(** * zephyr/models.py: message delivery, recipient resolution, subscriptions

    A shallow embedding of the delivery core of [zephyr/models.py]: the
    relational store behind the Django models, the Python exceptions the
    code can raise, and the functions [get_display_recipient],
    [Message.to_dict], [Message.to_log_dict], [log_event], [log_message],
    [do_send_message], [internal_send_message], [do_add_subscription],
    [do_remove_subscription], [get_huddle_hash] and [get_huddle]; and,
    around that core, [create_stream_if_needed], [get_client],
    [Stream.create], [Message.remove_unreachable] and
    [filter_by_subscriptions].

    Conventions.
    - A Django table is the list of its rows in insertion order; a new row
      gets an id one above every id of its table.
    - A foreign key read through [select_related()] is the joined row: a
      [UserProfile] row carries its [User] and its [Realm], a [Stream] its
      [Realm].  [Subscription] and [UserMessage] rows keep their foreign
      keys as ids and are joined when they are queried.
    - Code runs in a state-and-exception monad over the [World]: the
      store, the in-process [user_hash] table, the Django cache behind
      [cache_with_key], and the history of effects (lines appended to the
      message log, rows written, requests posted) in the order they
      happened.  An exception leaves the world as it was when raised; the
      [commit_on_success] block restores the store it started from. *)

From Stdlib Require Import String Ascii List Arith ZArith Lia Bool.
From stdpp Require Import base decidable option list gmap sorting pretty strings.

Open Scope string_scope.
Open Scope nat_scope.

Set Warnings "-abstract-large-number".

(** ** Exceptions and results *)

Inductive exn : Type :=
| DoesNotExist
| MultipleObjectsReturned
| IntegrityError
| ValueError (msg : string)
| KeyError
| TypeError
| AssertionError
| RequestException.

Inductive result (A : Type) : Type :=
| Ok (a : A)
| Raise (e : exn).

Arguments Ok {A} a.
Arguments Raise {A} e.

#[global] Instance exn_eq_dec : EqDecision exn.
Proof. solve_decision. Defined.

Definition is_ok {A} (r : result A) : bool :=
  match r with Ok _ => true | Raise _ => false end.

(** ** Models: one record per Django model *)

Module Realm.
Record t : Type := mk { id : nat; domain : string }.
End Realm.

(** django.contrib.auth.models.User, the fields this file reads. *)
Module User.
Record t : Type := mk { id : nat; email : string; is_active : bool }.
End User.

Module UserProfile.
Record t : Type := mk {
  id : nat;
  user : User.t;
  full_name : string;
  short_name : string;
  realm : Realm.t }.
End UserProfile.

Module Stream.
Record t : Type := mk { id : nat; name : string; realm : Realm.t }.
End Stream.

Module Recipient.
Record t : Type := mk { id : nat; type_id : nat; type : nat }.

(* Valid types are {personal, stream, huddle} *)
Definition PERSONAL : nat := 1.
Definition STREAM : nat := 2.
Definition HUDDLE : nat := 3.

Definition _type_names (ty : nat) : option string :=
  if ty =? PERSONAL then Some "personal"
  else if ty =? STREAM then Some "stream"
  else if ty =? HUDDLE then Some "huddle"
  else None.

(* Raises KeyError if invalid *)
Definition type_name (self : t) : result string :=
  match _type_names (type self) with
  | Some n => Ok n
  | None => Raise KeyError
  end.
End Recipient.

Module Client.
Record t : Type := mk { id : nat; name : string }.
End Client.

Module Huddle.
Record t : Type := mk { id : nat; huddle_hash : string }.
End Huddle.

Module Subscription.
Record t : Type := mk {
  id : nat;
  user_profile_id : nat;
  recipient_id : nat;
  active : bool }.

Definition set_active (b : bool) (s : t) : t :=
  mk (id s) (user_profile_id s) (recipient_id s) b.
End Subscription.

(** The description of a recipient: the stream name, or one dict per
    subscribed user. *)
Module UserDict.
Record t : Type := mk { email : string; full_name : string; short_name : string }.
End UserDict.

Inductive DisplayRecipient : Type :=
| DisplayName (name : string)
| DisplayUsers (users : list UserDict.t).

(** The dict built by [Message.to_dict]. *)
Module MessageDict.
Record t : Type := mk {
  id : option nat;
  sender_email : string;
  sender_full_name : string;
  sender_short_name : string;
  type : string;
  display_recipient : DisplayRecipient;
  recipient_id : nat;
  subject : string;
  timestamp : Z;
  gravatar_hash : string;
  content : string;
  content_type : string }.
End MessageDict.

Module Message.
Record t : Type := mk {
  id : option nat;                 (* None until the first save() *)
  sender : UserProfile.t;
  recipient : Recipient.t;
  subject : string;
  content : string;
  pub_date : Z;
  sending_client : Client.t;
  (* 'text/html' and 'text/x-markdown' dicts attached in the Tornado
     process; never persisted, absent on a message built for sending *)
  precomputed_dicts : option (MessageDict.t * MessageDict.t) }.

Definition sender_id (self : t) : nat := UserProfile.id (sender self).

Definition set_id (n : nat) (self : t) : t :=
  mk (Some n) (sender self) (recipient self) (subject self) (content self)
     (pub_date self) (sending_client self) (precomputed_dicts self).
End Message.

Module UserMessage.
Record t : Type := mk {
  id : nat;
  user_profile_id : nat;
  message_id : nat;
  archived : bool }.
End UserMessage.

(** ** The event log, the push request, the effect history *)

(** One line of the message log: the dicts handed to [log_event]. *)
Inductive EventBody : Type :=
| MessageSent
    (id : option nat) (sender_email sender_full_name sender_short_name : string)
    (sending_client : string) (type : string) (recipient : DisplayRecipient)
    (subject content : string)
| SubscriptionAdded (user name domain : string)
| SubscriptionRemoved (user name domain : string).

Record Event : Type := mkEvent {
  ev_body : EventBody;
  ev_timestamp : option Z }.

(** The form fields of the POST to /notify_new_message. *)
Record NotifyRequest : Type := mkNotify {
  nr_url : string;
  nr_secret : string;
  nr_message : option nat;
  nr_rendered : MessageDict.t * MessageDict.t;
  nr_users : list string }.

Inductive Table : Type :=
| TStream | TRecipient | TClient | THuddle | TSubscription | TMessage | TUserMessage.

Inductive Effect : Type :=
| LogAppend (e : Event)
| DbInsert (tbl : Table) (id : nat)
| DbUpdate (tbl : Table) (id : nat)
| DbCommit
| DbRollback
| HttpPost (r : NotifyRequest).

(** ** The store and the world *)

Record Store : Type := mkStore {
  profiles : list UserProfile.t;
  streams : list Stream.t;
  recipients : list Recipient.t;
  clients : list Client.t;
  huddles : list Huddle.t;
  subscriptions : list Subscription.t;
  messages : list Message.t;
  user_messages : list UserMessage.t }.

Record World : Type := mkWorld {
  db : Store;
  history : list Effect;
  (* the module-level dict user_hash = {} *)
  user_hash : gmap nat UserProfile.t;
  (* the Django cache, by key family *)
  cache_display_recipient : gmap nat DisplayRecipient;
  cache_message_dict : gmap (nat * bool) MessageDict.t }.

Definition set_db (s : Store) (w : World) : World :=
  mkWorld s (history w) (user_hash w) (cache_display_recipient w) (cache_message_dict w).

Definition record (e : Effect) (w : World) : World :=
  mkWorld (db w) (history w ++ [e]) (user_hash w)
          (cache_display_recipient w) (cache_message_dict w).

Definition set_cache_display_recipient (c : gmap nat DisplayRecipient) (w : World) : World :=
  mkWorld (db w) (history w) (user_hash w) c (cache_message_dict w).

Definition set_cache_message_dict (c : gmap (nat * bool) MessageDict.t) (w : World) : World :=
  mkWorld (db w) (history w) (user_hash w) (cache_display_recipient w) c.

(** The lines of the message log written so far. *)
Definition message_log (w : World) : list Event :=
  flat_map (fun e => match e with LogAppend ev => [ev] | _ => [] end) (history w).

(** The requests posted so far. *)
Definition posted (w : World) : list NotifyRequest :=
  flat_map (fun e => match e with HttpPost r => [r] | _ => [] end) (history w).

(** ** The monad *)

Definition M (A : Type) : Type := World -> result A * World.

Definition ret {A} (a : A) : M A := fun w => (Ok a, w).

Definition raise {A} (e : exn) : M A := fun w => (Raise e, w).

Definition bind {A B} (c : M A) (k : A -> M B) : M B := fun w =>
  match c w with
  | (Ok a, w') => k a w'
  | (Raise e, w') => (Raise e, w')
  end.

Notation "x <- c ;; k" := (bind c (fun x => k))
  (at level 100, c at next level, right associativity).
Notation "c ;;; k" := (bind c (fun _ => k))
  (at level 100, right associativity).

Definition lift {A} (r : result A) : M A := fun w => (r, w).

Definition get_db : M Store := fun w => (Ok (db w), w).

Definition put_db (s : Store) : M unit := fun w => (Ok tt, set_db s w).

Definition emit (e : Effect) : M unit := fun w => (Ok tt, record e w).

(** try: body except e: handler *)
Definition try_except {A} (body : M A) (e : exn) (handler : M A) : M A := fun w =>
  match body w with
  | (Raise e', w') => if decide (e' = e) then handler w' else (Raise e', w')
  | r => r
  end.

(** for x in l: body(x) *)
Fixpoint for_each {A} (l : list A) (body : A -> M unit) : M unit :=
  match l with
  | [] => ret tt
  | x :: l' => body x ;;; for_each l' body
  end.

(** with transaction.commit_on_success(): the rows written by the body are
    committed when it returns and rolled back when it raises. *)
Definition commit_on_success {A} (body : M A) : M A := fun w =>
  match body w with
  | (Ok a, w') => (Ok a, record DbCommit w')
  | (Raise e, w') => (Raise e, record DbRollback (set_db (db w) w'))
  end.

(** ** The Django ORM, as far as the code uses it *)

(** The id the database gives the next row of a table. *)
Definition next_id (ids : list nat) : nat := S (foldr Nat.max 0 ids).

(** Model.objects.get(...): exactly one row must match. *)
Definition objects_get {A} (p : A -> bool) (rows : list A) : result A :=
  match List.filter p rows with
  | [] => Raise DoesNotExist
  | [x] => Ok x
  | _ :: _ :: _ => Raise MultipleObjectsReturned
  end.

(** QuerySet.get_or_create: get; on DoesNotExist create; on IntegrityError
    get again, and re-raise the IntegrityError when there is still no row. *)
Definition get_or_create {A} (get create : M A) : M (A * bool) :=
  try_except (obj <- get ;; ret (obj, false)) DoesNotExist
    (try_except (obj <- create ;; ret (obj, true)) IntegrityError
       (try_except (obj <- get ;; ret (obj, false)) DoesNotExist
          (raise IntegrityError))).

Definition with_streams (l : list Stream.t) (s : Store) : Store :=
  mkStore (profiles s) l (recipients s) (clients s) (huddles s)
          (subscriptions s) (messages s) (user_messages s).

Definition with_recipients (l : list Recipient.t) (s : Store) : Store :=
  mkStore (profiles s) (streams s) l (clients s) (huddles s)
          (subscriptions s) (messages s) (user_messages s).

Definition with_clients (l : list Client.t) (s : Store) : Store :=
  mkStore (profiles s) (streams s) (recipients s) l (huddles s)
          (subscriptions s) (messages s) (user_messages s).

Definition with_huddles (l : list Huddle.t) (s : Store) : Store :=
  mkStore (profiles s) (streams s) (recipients s) (clients s) l
          (subscriptions s) (messages s) (user_messages s).

Definition with_subscriptions (l : list Subscription.t) (s : Store) : Store :=
  mkStore (profiles s) (streams s) (recipients s) (clients s) (huddles s)
          l (messages s) (user_messages s).

Definition with_messages (l : list Message.t) (s : Store) : Store :=
  mkStore (profiles s) (streams s) (recipients s) (clients s) (huddles s)
          (subscriptions s) l (user_messages s).

Definition with_user_messages (l : list UserMessage.t) (s : Store) : Store :=
  mkStore (profiles s) (streams s) (recipients s) (clients s) (huddles s)
          (subscriptions s) (messages s) l.

(** str.lower() on ASCII, for the name__iexact lookup. *)
Definition lower_ascii (c : ascii) : ascii :=
  let n := nat_of_ascii c in
  if (65 <=? n) && (n <=? 90) then ascii_of_nat (n + 32) else c.

Fixpoint lower (s : string) : string :=
  match s with
  | EmptyString => EmptyString
  | String c s' => String (lower_ascii c) (lower s')
  end.

(** *** UserProfile *)

Definition UserProfile_get_by_id (uid : nat) : M UserProfile.t := fun w =>
  (objects_get (fun p => UserProfile.id p =? uid) (profiles (db w)), w).

Definition UserProfile_get_by_email (email : string) : M UserProfile.t := fun w =>
  (objects_get (fun p => String.eqb (User.email (UserProfile.user p)) email)
               (profiles (db w)), w).

(** *** Stream: unique_together = ("name", "realm") *)

Definition Stream_get_by_id (sid : nat) : M Stream.t := fun w =>
  (objects_get (fun s => Stream.id s =? sid) (streams (db w)), w).

Definition Stream_get_iexact (realm : Realm.t) (name : string) : M Stream.t := fun w =>
  (objects_get (fun s => (Realm.id (Stream.realm s) =? Realm.id realm)
                         && String.eqb (lower (Stream.name s)) (lower name))
               (streams (db w)), w).

Definition Stream_create (realm : Realm.t) (name : string) : M Stream.t := fun w =>
  let s := db w in
  if existsb (fun x => String.eqb (Stream.name x) name
                       && (Realm.id (Stream.realm x) =? Realm.id realm)) (streams s)
  then (Raise IntegrityError, w)
  else
    let row := Stream.mk (next_id (map Stream.id (streams s))) name realm in
    (Ok row, record (DbInsert TStream (Stream.id row))
                    (set_db (with_streams (streams s ++ [row]) s) w)).

(** *** Recipient: unique_together = ("type", "type_id") *)

Definition Recipient_get (type_id type : nat) : M Recipient.t := fun w =>
  (objects_get (fun r => (Recipient.type_id r =? type_id) && (Recipient.type r =? type))
               (recipients (db w)), w).

Definition Recipient_create (type_id type : nat) : M Recipient.t := fun w =>
  let s := db w in
  if existsb (fun r => (Recipient.type r =? type) && (Recipient.type_id r =? type_id))
             (recipients s)
  then (Raise IntegrityError, w)
  else
    let row := Recipient.mk (next_id (map Recipient.id (recipients s))) type_id type in
    (Ok row, record (DbInsert TRecipient (Recipient.id row))
                    (set_db (with_recipients (recipients s ++ [row]) s) w)).

(** *** Client: name is unique *)

Definition Client_get (name : string) : M Client.t := fun w =>
  (objects_get (fun c => String.eqb (Client.name c) name) (clients (db w)), w).

Definition Client_create (name : string) : M Client.t := fun w =>
  let s := db w in
  if existsb (fun c => String.eqb (Client.name c) name) (clients s)
  then (Raise IntegrityError, w)
  else
    let row := Client.mk (next_id (map Client.id (clients s))) name in
    (Ok row, record (DbInsert TClient (Client.id row))
                    (set_db (with_clients (clients s ++ [row]) s) w)).

(** *** Huddle: huddle_hash is unique *)

Definition Huddle_get (huddle_hash : string) : M Huddle.t := fun w =>
  (objects_get (fun h => String.eqb (Huddle.huddle_hash h) huddle_hash)
               (huddles (db w)), w).

Definition Huddle_create (huddle_hash : string) : M Huddle.t := fun w =>
  let s := db w in
  if existsb (fun h => String.eqb (Huddle.huddle_hash h) huddle_hash) (huddles s)
  then (Raise IntegrityError, w)
  else
    let row := Huddle.mk (next_id (map Huddle.id (huddles s))) huddle_hash in
    (Ok row, record (DbInsert THuddle (Huddle.id row))
                    (set_db (with_huddles (huddles s ++ [row]) s) w)).

(** *** Subscription: unique_together = ("user_profile", "recipient") *)

Definition sub_matches (user_profile_id recipient_id : nat) (s : Subscription.t) : bool :=
  (Subscription.user_profile_id s =? user_profile_id)
  && (Subscription.recipient_id s =? recipient_id).

Definition Subscription_get (user_profile_id recipient_id : nat) : M Subscription.t :=
  fun w => (objects_get (sub_matches user_profile_id recipient_id)
                        (subscriptions (db w)), w).

Definition Subscription_filter (user_profile_id recipient_id : nat)
  : M (list Subscription.t) :=
  fun w => (Ok (List.filter (sub_matches user_profile_id recipient_id)
                            (subscriptions (db w))), w).

(** Subscription.objects.create(...): active defaults to True. *)
Definition Subscription_create (user_profile_id recipient_id : nat) (active : bool)
  : M Subscription.t := fun w =>
  let s := db w in
  if existsb (sub_matches user_profile_id recipient_id) (subscriptions s)
  then (Raise IntegrityError, w)
  else
    let row := Subscription.mk (next_id (map Subscription.id (subscriptions s)))
                               user_profile_id recipient_id active in
    (Ok row, record (DbInsert TSubscription (Subscription.id row))
                    (set_db (with_subscriptions (subscriptions s ++ [row]) s) w)).

(** subscription.save() on a loaded row: UPDATE by primary key. *)
Definition Subscription_save (row : Subscription.t) : M unit := fun w =>
  let s := db w in
  let upd := fun x => if Subscription.id x =? Subscription.id row then row else x in
  (Ok tt, record (DbUpdate TSubscription (Subscription.id row))
                 (set_db (with_subscriptions (map upd (subscriptions s)) s) w)).

(** Subscription.objects.select_related().filter(recipient=r, active=True),
    then s.user_profile of every row: the joined profile rows. *)
Definition active_subscriptions (s : Store) (recipient_id : nat) : list Subscription.t :=
  List.filter (fun x => (Subscription.recipient_id x =? recipient_id)
                        && Subscription.active x) (subscriptions s).

Definition select_user_profile (s : Store) (x : Subscription.t) : list UserProfile.t :=
  List.filter (fun p => UserProfile.id p =? Subscription.user_profile_id x) (profiles s).

Definition subscribed_profiles (recipient : Recipient.t) : M (list UserProfile.t) :=
  fun w => (Ok (flat_map (select_user_profile (db w))
                         (active_subscriptions (db w) (Recipient.id recipient))), w).

(** *** Message and UserMessage *)

(** message.save(): INSERT with a new id when the object has none; with an
    id, UPDATE the row of that id, or INSERT it when there is none. *)
Definition Message_save (message : Message.t) : M Message.t := fun w =>
  let s := db w in
  match Message.id message with
  | None =>
      let n := next_id (omap Message.id (messages s)) in
      let row := Message.set_id n message in
      (Ok row, record (DbInsert TMessage n)
                      (set_db (with_messages (messages s ++ [row]) s) w))
  | Some n =>
      if existsb (fun x => bool_decide (Message.id x = Some n)) (messages s)
      then
        let upd := fun x => if bool_decide (Message.id x = Some n) then message else x in
        (Ok message, record (DbUpdate TMessage n)
                            (set_db (with_messages (map upd (messages s)) s) w))
      else
        (Ok message, record (DbInsert TMessage n)
                            (set_db (with_messages (messages s ++ [message]) s) w))
  end.

(** UserMessage(user_profile=..., message=...).save():
    unique_together = ("user_profile", "message"). *)
Definition UserMessage_save (user_profile : UserProfile.t) (message : Message.t)
  : M unit := fun w =>
  let s := db w in
  match Message.id message with
  | None => (Raise IntegrityError, w)
  | Some mid =>
      if existsb (fun x => (UserMessage.user_profile_id x =? UserProfile.id user_profile)
                           && (UserMessage.message_id x =? mid)) (user_messages s)
      then (Raise IntegrityError, w)
      else
        let row := UserMessage.mk (next_id (map UserMessage.id (user_messages s)))
                                  (UserProfile.id user_profile) mid false in
        (Ok tt, record (DbInsert TUserMessage (UserMessage.id row))
                       (set_db (with_user_messages (user_messages s ++ [row]) s) w))
  end.

(** ** What the module imports *)

(** The functions and settings [zephyr/models.py] takes from elsewhere:
    hashing, rendering and escaping, the clocks, the push gateway, and the
    order in which CPython iterates over a two-element set. *)
Class Externals : Type := {
  (* hashlib.sha1(s).hexdigest() *)
  sha1_hexdigest : string -> string;
  (* zephyr.lib.bugdown.convert *)
  bugdown_convert : string -> string;
  (* django.utils.html.escape *)
  escape : string -> string;
  (* zephyr.lib.avatar.gravatar_hash *)
  gravatar_hash : string -> string;
  (* zephyr.lib.time.datetime_to_timestamp *)
  datetime_to_timestamp : Z -> Z;
  (* time.time() and timezone.now() *)
  time_time : Z;
  timezone_now : Z;
  (* set([a, b]) with a != b: is a iterated before b? (keys are the ids) *)
  set_iterates_first : nat -> nat -> bool;
  (* settings.TORNADO_SERVER ("" when unset) and settings.SHARED_SECRET *)
  TORNADO_SERVER : string;
  SHARED_SECRET : string;
  (* requests.post: does the gateway answer? (a RequestException if not) *)
  gateway_answers : NotifyRequest -> bool }.

Definition MAX_SUBJECT_LENGTH : nat := 60.
Definition MAX_MESSAGE_LENGTH : nat := 10000.

(** Modelled from the spec: the decorator cache_with_key of zephyr.lib.cache
    (not in this file), the "decorator-based memoized derived view": the
    value stored under the key is returned when there is one, otherwise the
    function runs and its result is stored. *)
Definition cache_with_key {K V} `{Countable K}
    (get : World -> gmap K V) (set : gmap K V -> World -> World)
    (key : K) (func : M V) : M V := fun w =>
  match get w !! key with
  | Some val => (Ok val, w)
  | None =>
      match func w with
      | (Ok val, w') => (Ok val, set (<[key := val]> (get w')) w')
      | (Raise e, w') => (Raise e, w')
      end
  end.

(** ** get_display_recipient *)

(** .order_by('user__email') *)
Fixpoint insert_by_email (p : UserProfile.t) (l : list UserProfile.t) : list UserProfile.t :=
  match l with
  | [] => [p]
  | q :: l' =>
      if String.leb (User.email (UserProfile.user p)) (User.email (UserProfile.user q))
      then p :: q :: l'
      else q :: insert_by_email p l'
  end.

Definition order_by_email (l : list UserProfile.t) : list UserProfile.t :=
  foldr insert_by_email [] l.

(** UserProfile.objects.filter(subscription__recipient=recipient): the join
    of the profiles with their subscriptions to the recipient, active or
    not. *)
Definition profiles_subscribed_to (s : Store) (recipient_id : nat) : list UserProfile.t :=
  flat_map (fun p =>
              map (fun _ => p)
                  (List.filter (sub_matches (UserProfile.id p) recipient_id)
                               (subscriptions s)))
           (profiles s).

Definition user_dict (user_profile : UserProfile.t) : UserDict.t :=
  UserDict.mk (User.email (UserProfile.user user_profile))
              (UserProfile.full_name user_profile)
              (UserProfile.short_name user_profile).

Definition get_display_recipient_body (recipient : Recipient.t) : M DisplayRecipient :=
  if Recipient.type recipient =? Recipient.STREAM then
    stream <- Stream_get_by_id (Recipient.type_id recipient) ;;
    ret (DisplayName (Stream.name stream))
  else
    (* We don't really care what the ordering is, just that it's deterministic. *)
    s <- get_db ;;
    let user_profile_list :=
      order_by_email (profiles_subscribed_to s (Recipient.id recipient)) in
    ret (DisplayUsers (map user_dict user_profile_list)).

(** @cache_with_key(lambda self: 'display_recipient_dict:%d' % (self.id,)) *)
Definition get_display_recipient (recipient : Recipient.t) : M DisplayRecipient :=
  cache_with_key cache_display_recipient set_cache_display_recipient
                 (Recipient.id recipient) (get_display_recipient_body recipient).

(** ** linebreak *)

(** string.replace(old, new) for a non-empty [old]: the occurrences are
    taken from the left and do not overlap.  [skip] counts the characters
    of a match still to be dropped. *)
Fixpoint replace_from (old new : string) (skip : nat) (s : string) : string :=
  match s with
  | EmptyString => EmptyString
  | String c s' =>
      match skip with
      | S k => replace_from old new k s'
      | O =>
          if String.prefix old s
          then new ++ replace_from old new (String.length old - 1) s'
          else String c (replace_from old new 0 s')
      end
  end.

Definition replace (old new s : string) : string := replace_from old new 0 s.

Definition newline : string := String (ascii_of_nat 10) EmptyString.

Definition linebreak (s : string) : string :=
  replace newline "<br/>" (replace (newline ++ newline) "<p/>" s).

(** ** Message.to_dict and Message.to_log_dict *)

Section Models.
Context {ext : Externals}.

Definition to_dict_body (self : Message.t) (apply_markdown : bool) : M MessageDict.t :=
  (* Messages arrive in the Tornado process with the dicts already rendered. *)
  match Message.precomputed_dicts self with
  | Some (html, markdown) => ret (if apply_markdown then html else markdown)
  | None =>
      let recipient := Message.recipient self in
      let sender := Message.sender self in
      display_recipient <- get_display_recipient recipient ;;
      shown <-
        (if Recipient.type recipient =? Recipient.STREAM then
           ret ("stream", display_recipient)
         else if (Recipient.type recipient =? Recipient.HUDDLE)
                 || (Recipient.type recipient =? Recipient.PERSONAL) then
           match display_recipient with
           | DisplayUsers [d0] =>
               (* add the sender in if this isn't a message between
                  someone and his self, preserving ordering *)
               let recip := user_dict sender in
               if String.ltb (UserDict.email recip) (UserDict.email d0)
               then ret ("private", DisplayUsers [recip; d0])
               else if String.ltb (UserDict.email d0) (UserDict.email recip)
               then ret ("private", DisplayUsers [d0; recip])
               else ret ("private", display_recipient)
           | DisplayUsers _ => ret ("private", display_recipient)
           | DisplayName name =>
               (* a one-character string has len 1 and no ['email'] *)
               if String.length name =? 1 then raise TypeError
               else ret ("private", display_recipient)
           end
         else
           display_type <- lift (Recipient.type_name recipient) ;;
           ret (display_type, display_recipient)) ;;
      let obj (content content_type : string) :=
        MessageDict.mk (Message.id self)
                       (User.email (UserProfile.user sender))
                       (UserProfile.full_name sender)
                       (UserProfile.short_name sender)
                       (fst shown) (snd shown)
                       (Recipient.id recipient)
                       (Message.subject self)
                       (datetime_to_timestamp (Message.pub_date self))
                       (gravatar_hash (User.email (UserProfile.user sender)))
                       content content_type in
      if apply_markdown then
        if negb (String.eqb (Realm.domain (UserProfile.realm sender)) "customer1.invalid")
           || existsb (String.eqb (Client.name (Message.sending_client self)))
                      ["API"; "github_bot"]
        then ret (obj (bugdown_convert (Message.content self)) "text/html")
        else ret (obj (linebreak (escape (Message.content self))) "text/html")
      else ret (obj (Message.content self) "text/x-markdown")
  end.

(** @cache_with_key(lambda self, apply_markdown:
       'message_dict:%d:%d' % (self.id, apply_markdown));
    '%d' % None is a TypeError. *)
Definition to_dict (self : Message.t) (apply_markdown : bool) : M MessageDict.t :=
  match Message.id self with
  | None => raise TypeError
  | Some n =>
      cache_with_key cache_message_dict set_cache_message_dict
                     (n, apply_markdown) (to_dict_body self apply_markdown)
  end.

Definition to_log_dict (self : Message.t) : M Event :=
  let sender := Message.sender self in
  type <- lift (Recipient.type_name (Message.recipient self)) ;;
  recipient <- get_display_recipient (Message.recipient self) ;;
  ret (mkEvent
         (MessageSent (Message.id self)
                      (User.email (UserProfile.user sender))
                      (UserProfile.full_name sender)
                      (UserProfile.short_name sender)
                      (Client.name (Message.sending_client self))
                      type recipient
                      (Message.subject self)
                      (Message.content self))
         (Some (datetime_to_timestamp (Message.pub_date self)))).

(** ** The message log *)

Definition get_user_profile_by_id (uid : nat) : M UserProfile.t := fun w =>
  match user_hash w !! uid with
  | Some user_profile => (Ok user_profile, w)
  | None => UserProfile_get_by_id uid w
  end.

(* Store an event in the log for re-importing messages *)
Definition log_event (event : Event) : M unit :=
  let event :=
    match ev_timestamp event with
    | None => mkEvent (ev_body event) (Some time_time)
    | Some _ => event
    end in
  emit (LogAppend event).

Definition log_message (message : Message.t) : M unit :=
  if negb (String.prefix "test:" (Client.name (Message.sending_client message)))
  then event <- to_log_dict message ;; log_event event
  else ret tt.

(** ** do_send_message *)

(** list(set([a, b])) on model instances, which are equal and hashed by
    primary key: one element when the ids agree (the first one is kept),
    two otherwise, in the set's iteration order. *)
Definition list_set (a b : UserProfile.t) : list UserProfile.t :=
  if UserProfile.id a =? UserProfile.id b then [a]
  else if set_iterates_first (UserProfile.id a) (UserProfile.id b)
       then [a; b] else [b; a].

(** The if / elif / else on message.recipient.type. *)
Definition resolve_recipients (message : Message.t) : M (list UserProfile.t) :=
  let recipient := Message.recipient message in
  if Recipient.type recipient =? Recipient.PERSONAL then
    a <- get_user_profile_by_id (Recipient.type_id recipient) ;;
    b <- get_user_profile_by_id (Message.sender_id message) ;;
    let recipients := list_set a b in
    (* For personals, you send out either 1 or 2 copies of the message, for
       personals to yourself or to someone else, respectively. *)
    if (length recipients =? 1) || (length recipients =? 2)
    then ret recipients
    else raise AssertionError
  else if (Recipient.type recipient =? Recipient.STREAM)
          || (Recipient.type recipient =? Recipient.HUDDLE) then
    subscribed_profiles recipient
  else
    raise (ValueError "Bad recipient type").

(** Save the message receipts in the database. *)
Definition save_receipts (message : Message.t) (recipients : list UserProfile.t)
  : M Message.t :=
  commit_on_success
    (message <- Message_save message ;;
     for_each recipients
       (fun user_profile =>
          (* Only deliver messages to "active" user accounts *)
          if User.is_active (UserProfile.user user_profile)
          then UserMessage_save user_profile message
          else ret tt) ;;;
     ret message).

(** requests.post(url, data=...): the request goes out, and the call
    raises when the gateway cannot be reached. *)
Definition requests_post (request : NotifyRequest) : M unit :=
  emit (HttpPost request) ;;;
  if gateway_answers request then ret tt else raise RequestException.

(** We can only publish messages to longpolling clients if the Tornado
    server is running. *)
Definition notify_tornado (message : Message.t) (recipients : list UserProfile.t)
  : M unit :=
  if negb (String.eqb TORNADO_SERVER "") then
    html <- to_dict message true ;;
    markdown <- to_dict message false ;;
    let request :=
      mkNotify (TORNADO_SERVER ++ "/notify_new_message")
               SHARED_SECRET
               (Message.id message)
               (html, markdown)
               (map (fun user => pretty (UserProfile.id user)) recipients) in
    requests_post request
  else ret tt.

Definition do_send_message (message : Message.t) (no_log : bool) : M unit :=
  (* Log the message to our message log for populate_db to refill *)
  (if negb no_log then log_message message else ret tt) ;;;
  recipients <- resolve_recipients message ;;
  message <- save_receipts message recipients ;;
  notify_tornado message recipients.

(** ** internal_send_message *)

Definition create_stream_if_needed (realm : Realm.t) (stream_name : string)
  : M Stream.t :=
  p <- get_or_create (Stream_get_iexact realm stream_name)
                     (Stream_create realm stream_name) ;;
  let (stream, created) := p in
  (if created : bool
   then Recipient_create (Stream.id stream) Recipient.STREAM ;;; ret tt
   else ret tt) ;;;
  ret stream.

(** @transaction.commit_on_success *)
Definition get_client (name : string) : M Client.t :=
  commit_on_success
    (try_except
       (p <- get_or_create (Client_get name) (Client_create name) ;; ret (fst p))
       IntegrityError
       (* If we're racing with other threads trying to create this client,
          one should just re-fetch the object. *)
       (emit DbCommit ;;; Client_get name)).

Definition truncation_notice : string :=
  newline ++ newline ++ "[message was too long and has been truncated]".

Definition internal_send_message
    (sender_email : string) (recipient_type : nat) (recipient_name : string)
    (subject content : string) : M unit :=
  let content :=
    if MAX_MESSAGE_LENGTH <? String.length content
    then substring 0 3900 content ++ truncation_notice
    else content in
  sender <- UserProfile_get_by_email sender_email ;;
  stream <- create_stream_if_needed (UserProfile.realm sender) recipient_name ;;
  recipient <- Recipient_get (Stream.id stream) recipient_type ;;
  sending_client <- get_client "Internal" ;;
  let message :=
    Message.mk None sender recipient subject content timezone_now sending_client None in
  do_send_message message false.

(** ** Subscriptions *)

Definition do_add_subscription
    (user_profile : UserProfile.t) (stream : Stream.t) (no_log : bool) : M bool :=
  recipient <- Recipient_get (Stream.id stream) Recipient.STREAM ;;
  p <- get_or_create
         (Subscription_get (UserProfile.id user_profile) (Recipient.id recipient))
         (Subscription_create (UserProfile.id user_profile) (Recipient.id recipient) true) ;;
  let (subscription, created) := p in
  did_subscribe <-
    (if negb (Subscription.active subscription)
     then Subscription_save (Subscription.set_active true subscription) ;;; ret true
     else ret created) ;;
  (if did_subscribe && negb no_log
   then log_event (mkEvent (SubscriptionAdded
                              (User.email (UserProfile.user user_profile))
                              (Stream.name stream)
                              (Realm.domain (Stream.realm stream))) None)
   else ret tt) ;;;
  ret did_subscribe.

Definition do_remove_subscription
    (user_profile : UserProfile.t) (stream : Stream.t) (no_log : bool) : M bool :=
  recipient <- Recipient_get (Stream.id stream) Recipient.STREAM ;;
  maybe_sub <- Subscription_filter (UserProfile.id user_profile) (Recipient.id recipient) ;;
  match maybe_sub with
  | [] => ret false
  | subscription :: _ =>
      let did_remove := Subscription.active subscription in
      Subscription_save (Subscription.set_active false subscription) ;;;
      (if did_remove && negb no_log
       then log_event (mkEvent (SubscriptionRemoved
                                  (User.email (UserProfile.user user_profile))
                                  (Stream.name stream)
                                  (Realm.domain (Stream.realm stream))) None)
       else ret tt) ;;;
      ret did_remove
  end.

(** ** Huddles *)

(** sorted(set(id_list)) *)
Definition sorted_set (id_list : list nat) : list nat :=
  merge_sort Nat.le (elements (list_to_set id_list : gset nat)).

Definition get_huddle_hash (id_list : list nat) : string :=
  let id_list := sorted_set id_list in
  let hash_key := String.concat "," (map pretty id_list) in
  sha1_hexdigest hash_key.

Definition get_huddle (id_list : list nat) : M Huddle.t :=
  let huddle_hash := get_huddle_hash id_list in
  p <- get_or_create (Huddle_get huddle_hash) (Huddle_create huddle_hash) ;;
  let (huddle, created) := p in
  (if created : bool then
     recipient <- Recipient_create (Huddle.id huddle) Recipient.HUDDLE ;;
     (* Add subscriptions *)
     for_each id_list
       (fun uid =>
          user_profile <- UserProfile_get_by_id uid ;;
          Subscription_create (UserProfile.id user_profile) (Recipient.id recipient) true ;;;
          ret tt)
   else ret tt) ;;;
  ret huddle.

End Models.

(** ** The constraints the database enforces *)

(** The primary keys and the [unique_together] declarations of the models
    this file queries, and the foreign key of [UserMessage] to [Message]. *)
Record wf_store (s : Store) : Prop := {
  wf_profile_pk : NoDup (map UserProfile.id (profiles s));
  wf_recipient_unique :
    NoDup (map (fun r => (Recipient.type r, Recipient.type_id r)) (recipients s));
  wf_subscription_pk : NoDup (map Subscription.id (subscriptions s));
  wf_subscription_unique :
    NoDup (map (fun x => (Subscription.user_profile_id x, Subscription.recipient_id x))
               (subscriptions s));
  wf_user_message_fk :
    forall row, In row (user_messages s) ->
      exists m, In m (messages s) /\ Message.id m = Some (UserMessage.message_id row) }.

(** The rows of UserMessage that mark the delivery of message [mid]. *)
Definition receipts_of (mid : nat) (s : Store) : list UserMessage.t :=
  List.filter (fun row => UserMessage.message_id row =? mid) (user_messages s).

(** Does [uid] hold an active subscription to recipient [rid]? *)
Definition actively_subscribed (s : Store) (uid rid : nat) : Prop :=
  exists x, In x (subscriptions s)
            /\ Subscription.user_profile_id x = uid
            /\ Subscription.recipient_id x = rid
            /\ Subscription.active x = true.

(** The subscription row of a user to a recipient, when there is one. *)
Definition subscription_of (s : Store) (uid rid : nat) : option Subscription.t :=
  List.find (sub_matches uid rid) (subscriptions s).

(** The rendering rule of [Message.to_dict]: is this message shown as
    escaped plain text? *)
Definition plain_text_only (self : Message.t) : bool :=
  String.eqb (Realm.domain (UserProfile.realm (Message.sender self))) "customer1.invalid"
  && negb (existsb (String.eqb (Client.name (Message.sending_client self)))
                   ["API"; "github_bot"]).

(** Effects that write a row of Message or UserMessage. *)
Definition is_receipt_write (e : Effect) : bool :=
  match e with
  | DbInsert TMessage _ | DbInsert TUserMessage _
  | DbUpdate TMessage _ | DbUpdate TUserMessage _ => true
  | _ => false
  end.

Definition is_log_append (e : Effect) : bool :=
  match e with LogAppend _ => true | _ => false end.

(** ** The vocabulary of the properties *)

(** [keeps f c]: running [c] never changes the component [f] of the world,
    whether it returns or raises. *)
Definition keeps {A B} (f : World -> B) (c : M A) : Prop :=
  forall w, f (snd (c w)) = f w.

(** [raises S c]: every exception [c] raises is in [S]. *)
Definition raises {A} (S : exn -> Prop) (c : M A) : Prop :=
  forall w e w', c w = (Raise e, w') -> S e.

(** Errors other than the two a bad recipient type leads to. *)
Definition not_a_type_error (e : exn) : Prop :=
  match e with
  | KeyError | ValueError _ => False
  | _ => True
  end.

Definition valid_type (type : nat) : Prop :=
  type = Recipient.PERSONAL \/ type = Recipient.STREAM \/ type = Recipient.HUDDLE.

(** The world after the rows [rows] were added to UserMessage. *)
Definition with_receipts (rows : list UserMessage.t) (w : World) : World :=
  mkWorld (with_user_messages (user_messages (db w) ++ rows) (db w))
          (history w ++ map (fun r => DbInsert TUserMessage (UserMessage.id r)) rows)
          (user_hash w) (cache_display_recipient w) (cache_message_dict w).

(** The id the next saved message gets. *)
Definition next_message_id (s : Store) : nat :=
  next_id (omap Message.id (messages s)).

(** The world after an unsent [message] and its receipts [rows] were
    written and committed. *)
Definition with_delivery (message : Message.t) (rows : list UserMessage.t)
    (w : World) : World :=
  let mid := next_message_id (db w) in
  record DbCommit
    (with_receipts rows
       (record (DbInsert TMessage mid)
          (set_db (with_messages (messages (db w) ++ [Message.set_id mid message])
                                 (db w)) w))).

(** A component of the world that the Django cache is not part of. *)
Definition cache_free {B} (f : World -> B) : Prop :=
  (forall c w, f (set_cache_display_recipient c w) = f w)
  /\ (forall c w, f (set_cache_message_dict c w) = f w).

(** A component that neither the cache nor the effect history is part of:
    the store, the [user_hash] table. *)
Definition stable {B} (f : World -> B) : Prop :=
  cache_free f /\ (forall e w, f (record e w) = f w).

(** Every profile kept in [user_hash] is kept under its own id. *)
Definition user_hash_coherent (w : World) : Prop :=
  forall uid p, user_hash w !! uid = Some p -> UserProfile.id p = uid.

(** [emits P c]: running [c] only appends to the history, and every effect
    it appends satisfies [P]. *)
Definition emits {A} (P : Effect -> Prop) (c : M A) : Prop :=
  forall w, exists new,
    history (snd (c w)) = (history w ++ new)%list /\ Forall P new.

Definition not_log_append (e : Effect) : Prop := is_log_append e = false.

(** Is the user subscribed to the recipient: is there a row, and is it
    active? *)
Definition is_subscribed (s : Store) (uid rid : nat) : bool :=
  match subscription_of s uid rid with
  | Some x => Subscription.active x
  | None => false
  end.

(** No row of Subscription is deleted: the ids of the table before are the
    first ids of the table after. *)
Definition rows_kept (s s' : Store) : Prop :=
  exists extra,
    map Subscription.id (subscriptions s')
    = (map Subscription.id (subscriptions s) ++ extra)%list.

(** content[0:3900] + "\n\n[message was too long and has been truncated]"
    when the content is longer than MAX_MESSAGE_LENGTH. *)
Definition stored_content (content : string) : string :=
  if MAX_MESSAGE_LENGTH <? String.length content
  then substring 0 3900 content ++ truncation_notice
  else content.

(** The world after the rows [rows] were added to Subscription. *)
Definition with_subscribers (rows : list Subscription.t) (w : World) : World :=
  mkWorld (with_subscriptions (subscriptions (db w) ++ rows) (db w))
          (history w ++ map (fun r => DbInsert TSubscription (Subscription.id r)) rows)
          (user_hash w) (cache_display_recipient w) (cache_message_dict w).

Section Steps.
Context {ext : Externals}.

(** The optional first step of do_send_message. *)
Definition log_step (message : Message.t) (no_log : bool) : M unit :=
  if negb no_log then log_message message else ret tt.

(** do_send_message after its logging step. *)
Definition deliver (message : Message.t) : M unit :=
  recipients <- resolve_recipients message ;;
  message <- save_receipts message recipients ;;
  notify_tornado message recipients.

End Steps.

(** ** A small installation, for the examples

    Two realms, four users (C's account is deactivated, D is in the
    plain-text realm), the stream "general" with A, B and C subscribed, and
    the personal recipients with their self-subscriptions, as
    [UserProfile.create] makes them. *)
Module Demo.

Definition externals : Externals := {|
  sha1_hexdigest := fun s => "sha1:" ++ s;
  bugdown_convert := fun s => "<p>" ++ s ++ "</p>";
  escape := fun s => s;
  gravatar_hash := fun s => "gravatar:" ++ s;
  datetime_to_timestamp := fun z => z;
  time_time := 1350000000%Z;
  timezone_now := 1350000000%Z;
  set_iterates_first := Nat.leb;
  TORNADO_SERVER := "http://localhost:9993";
  SHARED_SECRET := "secret";
  gateway_answers := fun _ => true |}.

Definition example_com : Realm.t := Realm.mk 1 "example.com".
Definition customer1 : Realm.t := Realm.mk 2 "customer1.invalid".

Definition A : UserProfile.t :=
  UserProfile.mk 1 (User.mk 1 "a@example.com" true) "A" "a" example_com.
Definition B : UserProfile.t :=
  UserProfile.mk 2 (User.mk 2 "b@example.com" true) "B" "b" example_com.
Definition C : UserProfile.t :=
  UserProfile.mk 3 (User.mk 3 "c@example.com" false) "C" "c" example_com.
Definition D : UserProfile.t :=
  UserProfile.mk 4 (User.mk 4 "d@customer1.invalid" true) "D" "d" customer1.

Definition general : Stream.t := Stream.mk 1 "general" example_com.

Definition to_A : Recipient.t := Recipient.mk 1 1 Recipient.PERSONAL.
Definition to_B : Recipient.t := Recipient.mk 2 2 Recipient.PERSONAL.
Definition to_C : Recipient.t := Recipient.mk 3 3 Recipient.PERSONAL.
Definition to_D : Recipient.t := Recipient.mk 4 4 Recipient.PERSONAL.
Definition to_general : Recipient.t := Recipient.mk 5 1 Recipient.STREAM.

Definition website : Client.t := Client.mk 1 "website".
Definition populate_db : Client.t := Client.mk 2 "test:populate_db".

Definition store : Store := {|
  profiles := [A; B; C; D];
  streams := [general];
  recipients := [to_A; to_B; to_C; to_D; to_general];
  clients := [website; populate_db];
  huddles := [];
  subscriptions :=
    [Subscription.mk 1 1 1 true; Subscription.mk 2 2 2 true;
     Subscription.mk 3 3 3 true; Subscription.mk 4 4 4 true;
     Subscription.mk 5 1 5 true; Subscription.mk 6 2 5 true;
     Subscription.mk 7 3 5 true];
  messages := [];
  user_messages := [] |}.

Definition world : World := {|
  db := store;
  history := [];
  user_hash := ∅;
  cache_display_recipient := ∅;
  cache_message_dict := ∅ |}.

(** An unsent message from [sender] through the web client. *)
Definition message (sender : UserProfile.t) (recipient : Recipient.t)
    (content : string) : Message.t :=
  Message.mk None sender recipient "hi" content 1350000000%Z website None.

End Demo.

(** * More of the module

    The functions of [zephyr/models.py] around the delivery core:
    [Stream.create], [Message.remove_unreachable] and
    [filter_by_subscriptions], and the vocabulary of their properties. *)

(** ** More vocabulary *)

(** Does the character occur in the string? *)
Fixpoint occurs (c : ascii) (s : string) : bool :=
  match s with
  | EmptyString => false
  | String a s' => Ascii.eqb a c || occurs c s'
  end.

(** The line feed, the one character of [newline]. *)
Definition LF : ascii := ascii_of_nat 10.

(** The post to the gateway, among the effects. *)
Definition is_http_post (e : Effect) : bool :=
  match e with HttpPost _ => true | _ => false end.

(** The lookup of create_stream_if_needed: realm, and name ignoring case. *)
Definition same_stream (realm : Realm.t) (name : string) (s : Stream.t) : bool :=
  (Realm.id (Stream.realm s) =? Realm.id realm)
  && String.eqb (lower (Stream.name s)) (lower name).

Section SubscriptionEvents.
Context {ext : Externals}.

(** The log lines of do_add_subscription and do_remove_subscription, as
    log_event writes them: stamped with the clock. *)
Definition subscription_added (user_profile : UserProfile.t) (stream : Stream.t)
  : Event :=
  mkEvent (SubscriptionAdded (User.email (UserProfile.user user_profile))
                             (Stream.name stream)
                             (Realm.domain (Stream.realm stream)))
          (Some time_time).

Definition subscription_removed (user_profile : UserProfile.t) (stream : Stream.t)
  : Event :=
  mkEvent (SubscriptionRemoved (User.email (UserProfile.user user_profile))
                               (Stream.name stream)
                               (Realm.domain (Stream.realm stream)))
          (Some time_time).

End SubscriptionEvents.

(** The table after [subscription.save()] of a changed copy of [x]. *)
Definition saved_subscription (x' : Subscription.t) (l : list Subscription.t)
  : list Subscription.t :=
  map (fun y => if Subscription.id y =? Subscription.id x' then x' else y) l.

(** [preserves P c]: a property of the store that holds before [c] holds
    after it, whether [c] returns or raises. *)
Definition preserves {A} (P : Store -> Prop) (c : M A) : Prop :=
  forall w, P (db w) -> P (db (snd (c w))).

(** ** Stream.create *)

(** The classmethod Stream.create(name, realm): save the stream, then
    create its Recipient. *)
Definition Stream_classmethod_create (name : string) (realm : Realm.t)
  : M (Stream.t * Recipient.t) :=
  stream <- Stream_create realm name ;;
  recipient <- Recipient_create (Stream.id stream) Recipient.STREAM ;;
  ret (stream, recipient).

(** ** Message.remove_unreachable *)

(** The rows matched by
    Message.objects.exclude(id__in = UserMessage.objects.values('message_id')):
    the stored messages whose id is the message_id of no UserMessage.  (A
    row without an id, which a table cannot hold, is matched by neither
    side of the NOT IN and stays.) *)
Definition unreachable (s : Store) (m : Message.t) : bool :=
  match Message.id m with
  | Some i => negb (existsb (Nat.eqb i) (map UserMessage.message_id (user_messages s)))
  | None => false
  end.

(** remove_unreachable, as the change of the store made by its .delete():
    Django collects the matched messages, deletes the UserMessage rows that
    point at them (the cascade of the ForeignKey) and then the messages. *)
Definition remove_unreachable (s : Store) : Store :=
  let doomed := omap Message.id (List.filter (unreachable s) (messages s)) in
  let cascade :=
    List.filter (fun row => negb (existsb (Nat.eqb (UserMessage.message_id row)) doomed))
                (user_messages s) in
  with_user_messages cascade
    (with_messages (List.filter (fun m => negb (unreachable s m)) (messages s)) s).

(** ** filter_by_subscriptions *)

(** [f(x) for x in l], when f reads the store or raises. *)
Fixpoint map_m {A B} (f : A -> M B) (l : list A) : M (list B) :=
  match l with
  | [] => ret []
  | x :: l' => y <- f x ;; ys <- map_m f l' ;; ret (y :: ys)
  end.

(** UserProfile.objects.get(user=user) *)
Definition UserProfile_get_by_user (user : User.t) : M UserProfile.t := fun w =>
  (objects_get (fun p => User.id (UserProfile.user p) =? User.id user)
               (profiles (db w)), w).

(** sub.recipient: the row behind the foreign key, fetched on first use. *)
Definition Recipient_get_by_id (rid : nat) : M Recipient.t := fun w =>
  (objects_get (fun r => Recipient.id r =? rid) (recipients (db w)), w).

(** Subscription.objects.filter(user_profile=user_profile, active=True) *)
Definition Subscription_filter_active (user_profile_id : nat)
  : M (list Subscription.t) :=
  fun w => (Ok (List.filter (fun s => (Subscription.user_profile_id s =? user_profile_id)
                                      && Subscription.active s)
                            (subscriptions (db w))), w).

(** Model instances are equal when their primary keys are: that is the ==
    behind [message.recipient in subscriptions] and
    [message.sender == user_profile]. *)
Definition filter_by_subscriptions (messages : list Message.t) (user : User.t)
  : M (list Message.t) :=
  user_profile <- UserProfile_get_by_user user ;;
  subs <- Subscription_filter_active (UserProfile.id user_profile) ;;
  subscriptions <- map_m (fun sub => Recipient_get_by_id (Subscription.recipient_id sub))
                         subs ;;
  ret (List.filter
         (fun message =>
            (* If you are subscribed to the personal or stream, or if you
               sent the personal, you can see the message. *)
            existsb (fun r => Recipient.id (Message.recipient message) =? Recipient.id r)
                    subscriptions
            || ((Recipient.type (Message.recipient message) =? Recipient.PERSONAL)
                && (Message.sender_id message =? UserProfile.id user_profile)))
         messages).

(** The string get_huddle_hash digests: the sorted member ids, joined by
    commas. *)
Definition hash_key (id_list : list nat) : string :=
  String.concat "," (map pretty (sorted_set id_list)).

(** The separator of the key. *)
Definition comma : ascii := ","%char.

(** What follows an element in a joined string: nothing, or a comma. *)
Definition rest_of_join (r : string) : Prop :=
  r = EmptyString \/ exists r', r = String comma r'.

(** ** The installation without a working gateway *)
Module Outage.

(** settings.TORNADO_SERVER unset: nothing is pushed. *)
Definition no_gateway : Externals := {|
  sha1_hexdigest := fun s => "sha1:" ++ s;
  bugdown_convert := fun s => "<p>" ++ s ++ "</p>";
  escape := fun s => s;
  gravatar_hash := fun s => "gravatar:" ++ s;
  datetime_to_timestamp := fun z => z;
  time_time := 1350000000%Z;
  timezone_now := 1350000000%Z;
  set_iterates_first := Nat.leb;
  TORNADO_SERVER := "";
  SHARED_SECRET := "secret";
  gateway_answers := fun _ => true |}.

(** The Tornado server configured, and down. *)
Definition gateway_down : Externals := {|
  sha1_hexdigest := fun s => "sha1:" ++ s;
  bugdown_convert := fun s => "<p>" ++ s ++ "</p>";
  escape := fun s => s;
  gravatar_hash := fun s => "gravatar:" ++ s;
  datetime_to_timestamp := fun z => z;
  time_time := 1350000000%Z;
  timezone_now := 1350000000%Z;
  set_iterates_first := Nat.leb;
  TORNADO_SERVER := "http://localhost:9993";
  SHARED_SECRET := "secret";
  gateway_answers := fun _ => false |}.

End Outage.

(** * Properties *)

(** ** Running the monad *)

Lemma bind_ok {A B} (c : M A) (k : A -> M B) w a w1 :
  c w = (Ok a, w1) -> bind c k w = k a w1.
Proof. intros Hc. unfold bind. now rewrite Hc. Qed.

Lemma bind_raise {A B} (c : M A) (k : A -> M B) w e w1 :
  c w = (Raise e, w1) -> bind c k w = (Raise e, w1).
Proof. intros Hc. unfold bind. now rewrite Hc. Qed.

Lemma bind_inv_ok {A B} (c : M A) (k : A -> M B) w b w2 :
  bind c k w = (Ok b, w2) ->
  exists a w1, c w = (Ok a, w1) /\ k a w1 = (Ok b, w2).
Proof.
  unfold bind. destruct (c w) as [[a|e] w1]; intros Hk.
  - eauto.
  - discriminate.
Qed.

Lemma bind_inv_raise {A B} (c : M A) (k : A -> M B) w e w2 :
  bind c k w = (Raise e, w2) ->
  c w = (Raise e, w2) \/ exists a w1, c w = (Ok a, w1) /\ k a w1 = (Raise e, w2).
Proof.
  unfold bind. destruct (c w) as [[a|e'] w1]; intros Hk.
  - right. eauto.
  - left. inversion Hk. reflexivity.
Qed.

(** ** Queries *)

Lemma filter_nil_existsb {A} (p : A -> bool) (l : list A) :
  List.filter p l = [] <-> existsb p l = false.
Proof.
  induction l as [|x l IH]; simpl; [tauto|].
  destruct (p x); simpl; [split; discriminate | exact IH].
Qed.

Lemma filter_app_one {A} (p : A -> bool) (l : list A) (x : A) :
  List.filter p l = [] -> p x = true -> List.filter p (l ++ [x]) = [x].
Proof.
  intros Hl Hx. rewrite List.filter_app, Hl. simpl. now rewrite Hx.
Qed.

Lemma objects_get_ok_inv {A} (p : A -> bool) (rows : list A) (x : A) :
  objects_get p rows = Ok x -> List.filter p rows = [x].
Proof.
  unfold objects_get. destruct (List.filter p rows) as [|y [|z l]]; congruence.
Qed.

Lemma objects_get_missing_inv {A} (p : A -> bool) (rows : list A) :
  objects_get p rows = Raise DoesNotExist -> List.filter p rows = [].
Proof.
  unfold objects_get. destruct (List.filter p rows) as [|y [|z l]]; congruence.
Qed.

Lemma objects_get_one {A} (p : A -> bool) (rows : list A) (x : A) :
  List.filter p rows = [x] -> objects_get p rows = Ok x.
Proof. unfold objects_get. now intros ->. Qed.

Lemma objects_get_raises {A} (p : A -> bool) (rows : list A) (e : exn) :
  objects_get p rows = Raise e -> e = DoesNotExist \/ e = MultipleObjectsReturned.
Proof.
  unfold objects_get. destruct (List.filter p rows) as [|y [|z l]]; intros H;
    inversion H; auto.
Qed.

Lemma next_id_above (ids : list nat) (n : nat) : In n ids -> n < next_id ids.
Proof.
  unfold next_id. induction ids as [|m ids IH]; simpl; [tauto|].
  intros [->|Hin]; [lia|]. specialize (IH Hin). lia.
Qed.

(** ** get_or_create *)

Lemma get_or_create_found {A} (get create : M A) w x w1 :
  get w = (Ok x, w1) -> get_or_create get create w = (Ok (x, false), w1).
Proof.
  intros Hg. unfold get_or_create, try_except.
  rewrite (bind_ok _ _ _ _ _ Hg). reflexivity.
Qed.

Lemma get_or_create_created {A} (get create : M A) w w1 x w2 :
  get w = (Raise DoesNotExist, w1) -> create w1 = (Ok x, w2) ->
  get_or_create get create w = (Ok (x, true), w2).
Proof.
  intros Hg Hc. unfold get_or_create.
  unfold try_except at 1. rewrite (bind_raise _ _ _ _ _ Hg).
  destruct (decide (DoesNotExist = DoesNotExist)); [|congruence].
  unfold try_except at 1. rewrite (bind_ok _ _ _ _ _ Hc). reflexivity.
Qed.

Lemma get_or_create_inv_ok {A} (get create : M A) w x created w2 :
  get_or_create get create w = (Ok (x, created), w2) ->
  (created = false /\ get w = (Ok x, w2))
  \/ (created = true /\ exists w1, get w = (Raise DoesNotExist, w1)
                                  /\ create w1 = (Ok x, w2))
  \/ (created = false /\ exists w1 w1', get w = (Raise DoesNotExist, w1)
                                       /\ create w1 = (Raise IntegrityError, w1')
                                       /\ get w1' = (Ok x, w2)).
Proof.
  unfold get_or_create, try_except, bind, ret, raise.
  destruct (get w) as [[y|e] w1] eqn:Hg.
  - intros H. inversion H; subst. left. auto.
  - destruct (decide (e = DoesNotExist)) as [->|]; [|discriminate].
    destruct (create w1) as [[y|e] w1'] eqn:Hc.
    + intros H. inversion H; subst. right. left. eauto.
    + destruct (decide (e = IntegrityError)) as [->|]; [|discriminate].
      destruct (get w1') as [[y|e] w1''] eqn:Hg'.
      * intros H. inversion H; subst. right. right. eauto 6.
      * destruct (decide (e = DoesNotExist)); discriminate.
Qed.

(** ** Frames: what a computation leaves alone *)

Lemma keeps_ret {A B} (f : World -> B) (a : A) : keeps f (ret a).
Proof. now intros w. Qed.

Lemma keeps_raise {A B} (f : World -> B) (e : exn) : keeps f (@raise A e).
Proof. now intros w. Qed.

Lemma keeps_lift {A B} (f : World -> B) (r : result A) : keeps f (lift r).
Proof. now intros w. Qed.

Lemma keeps_bind {A A' B} (f : World -> B) (c : M A) (k : A -> M A') :
  keeps f c -> (forall a, keeps f (k a)) -> keeps f (bind c k).
Proof.
  intros Hc Hk w. unfold bind. specialize (Hc w).
  destruct (c w) as [[a|e] w1]; simpl in *.
  - now rewrite Hk.
  - exact Hc.
Qed.

Lemma keeps_try_except {A B} (f : World -> B) (body handler : M A) (e : exn) :
  keeps f body -> keeps f handler -> keeps f (try_except body e handler).
Proof.
  intros Hb Hh w. unfold try_except. specialize (Hb w).
  destruct (body w) as [[a|e'] w1]; simpl in *; [exact Hb|].
  destruct (decide (e' = e)); simpl; [now rewrite Hh | exact Hb].
Qed.

Lemma keeps_get_or_create {A B} (f : World -> B) (get create : M A) :
  keeps f get -> keeps f create -> keeps f (get_or_create get create).
Proof.
  intros Hg Hc. unfold get_or_create.
  repeat first [ apply keeps_try_except | apply keeps_bind | apply keeps_ret
               | apply keeps_raise | assumption | intro ].
Qed.

Lemma keeps_for_each {A B} (f : World -> B) (l : list A) (body : A -> M unit) :
  (forall x, keeps f (body x)) -> keeps f (for_each l body).
Proof.
  intros Hb. induction l as [|x l IH]; simpl.
  - apply keeps_ret.
  - apply keeps_bind; [apply Hb | intros _; exact IH].
Qed.

Lemma keeps_cache_with_key {K V B} `{Countable K}
    (f : World -> B) (get : World -> gmap K V) (set : gmap K V -> World -> World)
    (key : K) (func : M V) :
  (forall c w, f (set c w) = f w) -> keeps f func ->
  keeps f (cache_with_key get set key func).
Proof.
  intros Hset Hf w. unfold cache_with_key.
  destruct (get w !! key); [reflexivity|].
  specialize (Hf w). destruct (func w) as [[v|e] w1]; simpl in *.
  - now rewrite Hset.
  - exact Hf.
Qed.

Lemma keeps_commit_on_success {A B} (g : Store -> B) (body : M A) :
  keeps (fun w => g (db w)) body ->
  keeps (fun w => g (db w)) (commit_on_success body).
Proof.
  intros Hb w. unfold commit_on_success. specialize (Hb w).
  destruct (body w) as [[a|e] w1]; simpl in *; [exact Hb | reflexivity].
Qed.

(** Reads of the store. *)
Lemma query_keeps {A B} (f : World -> B) (q : World -> result A) :
  keeps f (fun w => (q w, w)).
Proof. now intros w. Qed.

(** ** Huddles: the hash is a function of the member set *)

Lemma sorted_set_same (l1 l2 : list nat) :
  (forall x, In x l1 <-> In x l2) -> sorted_set l1 = sorted_set l2.
Proof.
  intros Hsame. unfold sorted_set.
  assert (Heq : (list_to_set l1 : gset nat) = list_to_set l2).
  { apply set_eq. intros x. rewrite !elem_of_list_to_set, !list_elem_of_In.
    apply Hsame. }
  now rewrite Heq.
Qed.

Lemma sorted_set_In (l : list nat) (x : nat) : In x (sorted_set l) <-> In x l.
Proof.
  unfold sorted_set. rewrite <- !list_elem_of_In, merge_sort_Permutation.
  rewrite elem_of_elements, elem_of_list_to_set. reflexivity.
Qed.

Lemma sorted_set_NoDup (l : list nat) : NoDup (sorted_set l).
Proof.
  unfold sorted_set. rewrite merge_sort_Permutation. apply NoDup_elements.
Qed.

Lemma sorted_set_Sorted (l : list nat) : Sorted Nat.le (sorted_set l).
Proof. unfold sorted_set. apply (Sorted_merge_sort Nat.le). Qed.

Ltac keeps_primitive f :=
  let w := fresh "w" in
  intros w; unfold f;
  repeat match goal with
         | |- context [match ?x with _ => _ end] => destruct x
         end;
  reflexivity.

Lemma Recipient_create_keeps_huddles type_id type :
  keeps (fun w => huddles (db w)) (Recipient_create type_id type).
Proof. keeps_primitive Recipient_create. Qed.

Lemma Subscription_create_keeps_huddles uid rid active :
  keeps (fun w => huddles (db w)) (Subscription_create uid rid active).
Proof. keeps_primitive Subscription_create. Qed.

Section HuddleProperties.
Context {ext : Externals}.

Lemma get_huddle_resolved (id_list : list nat) w h w' :
  get_huddle id_list w = (Ok h, w') ->
  Huddle_get (get_huddle_hash id_list) w' = (Ok h, w').
Proof.
  unfold get_huddle. intros Hrun.
  apply bind_inv_ok in Hrun as ([h0 created] & w1 & Hgoc & Hrest).
  apply bind_inv_ok in Hrest as ([] & w2 & Hfill & Hret).
  inversion Hret; subst h0 w2; clear Hret.
  set (hash := get_huddle_hash id_list) in *.
  assert (Hone : List.filter (fun x => String.eqb (Huddle.huddle_hash x) hash)
                             (huddles (db w1)) = [h]).
  { apply get_or_create_inv_ok in Hgoc as [[_ Hget] | [[_ Hmk] | [_ Hrace]]].
    - unfold Huddle_get in Hget. inversion Hget; subst.
      now apply objects_get_ok_inv.
    - destruct Hmk as (w0 & Hget & Hcreate).
      unfold Huddle_get in Hget. inversion Hget as [[Hq Hw]]. subst w0.
      apply objects_get_missing_inv in Hq.
      unfold Huddle_create in Hcreate.
      destruct (existsb _ (huddles (db w))); [discriminate|].
      inversion Hcreate; subst; simpl.
      apply filter_app_one; [exact Hq|]. simpl. apply String.eqb_refl.
    - destruct Hrace as (w0 & w0' & Hget & Hcreate & Hget').
      unfold Huddle_get in Hget. inversion Hget as [[Hq Hw]]. subst w0.
      unfold Huddle_create in Hcreate.
      destruct (existsb _ (huddles (db w))); [|discriminate].
      inversion Hcreate; subst w0'.
      unfold Huddle_get in Hget'. congruence. }
  assert (Hsame : huddles (db w') = huddles (db w1)).
  { match type of Hfill with
    | ?c w1 = _ => assert (Hk : keeps (fun w => huddles (db w)) c)
    end.
    { destruct created; [|apply keeps_ret].
      apply keeps_bind; [apply Recipient_create_keeps_huddles|]. intros r.
      apply keeps_for_each. intros uid.
      apply keeps_bind; [apply query_keeps|]. intros p.
      apply keeps_bind; [apply Subscription_create_keeps_huddles|]. intros _.
      apply keeps_ret. }
    specialize (Hk w1). now rewrite Hfill in Hk. }
  unfold Huddle_get. rewrite Hsame. now rewrite (objects_get_one _ _ _ Hone).
Qed.

End HuddleProperties.

Section RenderingProperties.
Context {ext : Externals}.

Lemma cache_with_key_miss_inv {K V} `{Countable K}
    (get : World -> gmap K V) (set : gmap K V -> World -> World)
    (key : K) (func : M V) w v w' :
  get w !! key = None ->
  cache_with_key get set key func w = (Ok v, w') ->
  exists w1, func w = (Ok v, w1) /\ w' = set (<[key := v]> (get w1)) w1.
Proof.
  intros Hmiss. unfold cache_with_key. rewrite Hmiss.
  destruct (func w) as [[v0|e] w1]; intros Hrun; inversion Hrun; subst. eauto.
Qed.

Lemma to_dict_body_markdown (self : Message.t) w d w' :
  Message.precomputed_dicts self = None ->
  to_dict_body self true w = (Ok d, w') ->
  MessageDict.content d =
    (if plain_text_only self
     then linebreak (escape (Message.content self))
     else bugdown_convert (Message.content self))
  /\ MessageDict.content_type d = "text/html".
Proof.
  intros Hpre. unfold to_dict_body. rewrite Hpre. intros Hrun.
  apply bind_inv_ok in Hrun as (dr & w1 & _ & Hrun).
  apply bind_inv_ok in Hrun as (shown & w2 & _ & Hrun).
  unfold plain_text_only.
  destruct (String.eqb (Realm.domain (UserProfile.realm (Message.sender self)))
                       "customer1.invalid");
    destruct (existsb (String.eqb (Client.name (Message.sending_client self)))
                      ["API"; "github_bot"]);
    simpl in Hrun; inversion Hrun; subst; simpl; auto.
Qed.

(** C9. A message rendered with markup ([apply_markdown], no dict cached
    or precomputed for it): when the sender's realm is the plain-text realm
    "customer1.invalid" and the sending client is neither "API" nor
    "github_bot", the content is [linebreak (escape content)]; in every
    other case it is [bugdown.convert content].  The rule reads only the
    message's own sender realm and client, at the time of the call. *)
Theorem to_dict_rendering_policy (self : Message.t) (n : nat) w d w' :
  Message.id self = Some n ->
  Message.precomputed_dicts self = None ->
  cache_message_dict w !! (n, true) = None ->
  to_dict self true w = (Ok d, w') ->
  MessageDict.content d =
    (if plain_text_only self
     then linebreak (escape (Message.content self))
     else bugdown_convert (Message.content self))
  /\ MessageDict.content_type d = "text/html".
Proof.
  intros Hid Hpre Hmiss Hrun. unfold to_dict in Hrun. rewrite Hid in Hrun.
  apply cache_with_key_miss_inv in Hrun as (w1 & Hbody & _); [|exact Hmiss].
  eapply to_dict_body_markdown; eassumption.
Qed.

End RenderingProperties.

Lemma to_dict_rendering_policy_witness :
  let self := Message.set_id 1 (Demo.message Demo.D Demo.to_general
                                  ("a" ++ newline ++ "b")) in
  exists d w',
    @to_dict Demo.externals self true Demo.world = (Ok d, w')
    /\ MessageDict.content d = "a<br/>b"
    /\ MessageDict.content_type d = "text/html".
Proof.
  intros self. eexists. eexists. split.
  - vm_compute. reflexivity.
  - apply (@to_dict_rendering_policy Demo.externals self 1 Demo.world _ _
             eq_refl eq_refl eq_refl eq_refl).
Defined.

Section HuddleResolution.
Context {ext : Externals}.

(** C3. Two id lists with the same elements, in any order and with any
    repetitions, have the same huddle hash; and once one of them has
    resolved to a Huddle, the other resolves to that same Huddle and
    changes nothing (so the Recipient of the huddle is the same too). *)
Theorem get_huddle_hash_member_set (l1 l2 : list nat) :
  (forall x, In x l1 <-> In x l2) ->
  get_huddle_hash l1 = get_huddle_hash l2
  /\ forall w h w', get_huddle l1 w = (Ok h, w') ->
                    get_huddle l2 w' = (Ok h, w').
Proof.
  intros Hsame.
  assert (Hhash : get_huddle_hash l1 = get_huddle_hash l2).
  { unfold get_huddle_hash. now rewrite (sorted_set_same l1 l2 Hsame). }
  split; [exact Hhash|].
  intros w h w' Hrun. apply get_huddle_resolved in Hrun.
  unfold get_huddle. rewrite <- Hhash.
  rewrite (bind_ok _ _ _ _ _ (get_or_create_found _ _ _ _ _ Hrun)).
  reflexivity.
Qed.

End HuddleResolution.

Lemma get_huddle_hash_member_set_witness :
  (forall x, In x [3; 1; 2] <-> In x [1; 1; 2; 3])
  /\ @get_huddle_hash Demo.externals [3; 1; 2]
     = @get_huddle_hash Demo.externals [1; 1; 2; 3]
  /\ forall w h w', @get_huddle Demo.externals [3; 1; 2] w = (Ok h, w') ->
                    @get_huddle Demo.externals [1; 1; 2; 3] w' = (Ok h, w').
Proof.
  assert (Hsame : forall x, In x [3; 1; 2] <-> In x [1; 1; 2; 3]).
  { intros x. simpl. intuition. }
  split; [exact Hsame|].
  exact (@get_huddle_hash_member_set Demo.externals [3; 1; 2] [1; 1; 2; 3] Hsame).
Defined.

(** ** Which exceptions a computation can raise *)

Lemma raises_ret {A} (S : exn -> Prop) (a : A) : raises S (ret a).
Proof. intros w e w' H. discriminate. Qed.

Lemma raises_raise {A} (S : exn -> Prop) (e : exn) : S e -> raises S (@raise A e).
Proof. intros He w e' w' H. inversion H. now subst. Qed.

Lemma raises_bind {A B} (S : exn -> Prop) (c : M A) (k : A -> M B) :
  raises S c -> (forall a, raises S (k a)) -> raises S (bind c k).
Proof.
  intros Hc Hk w e w' H. apply bind_inv_raise in H as [H | (a & w1 & _ & H)].
  - eapply Hc; eassumption.
  - eapply Hk; eassumption.
Qed.

Lemma raises_query {A} (S : exn -> Prop) (p : World -> A -> bool)
    (rows : World -> list A) :
  S DoesNotExist -> S MultipleObjectsReturned ->
  raises S (fun w => (objects_get (p w) (rows w), w)).
Proof.
  intros H1 H2 w e w' H. inversion H as [[Hq Hw]].
  apply objects_get_raises in Hq as [-> | ->]; assumption.
Qed.

Lemma raises_for_each {A} (S : exn -> Prop) (l : list A) (body : A -> M unit) :
  (forall x, raises S (body x)) -> raises S (for_each l body).
Proof.
  intros Hb. induction l as [|x l IH]; simpl.
  - apply raises_ret.
  - apply raises_bind; [apply Hb | intros _; exact IH].
Qed.

Lemma raises_cache_with_key {K V} `{Countable K} (S : exn -> Prop)
    (get : World -> gmap K V) (set : gmap K V -> World -> World)
    (key : K) (func : M V) :
  raises S func -> raises S (cache_with_key get set key func).
Proof.
  intros Hf w e w'. unfold cache_with_key.
  destruct (get w !! key); [discriminate|].
  destruct (func w) as [[v|e0] w1] eqn:Hrun; intros Hr; inversion Hr; subst.
  eapply Hf; eassumption.
Qed.

Lemma raises_commit_on_success {A} (S : exn -> Prop) (body : M A) :
  raises S body -> raises S (commit_on_success body).
Proof.
  intros Hb w e w'. unfold commit_on_success.
  destruct (body w) as [[a|e0] w1] eqn:Hrun; intros H; inversion H; subst.
  eapply Hb; eassumption.
Qed.

Lemma raises_emit (S : exn -> Prop) (e : Effect) : raises S (emit e).
Proof. intros w e' w' H. discriminate. Qed.

Lemma raises_get_db (S : exn -> Prop) : raises S get_db.
Proof. intros w e' w' H. discriminate. Qed.

Lemma type_name_valid (r : Recipient.t) :
  valid_type (Recipient.type r) -> exists n, Recipient.type_name r = Ok n.
Proof.
  unfold valid_type, Recipient.type_name, Recipient._type_names.
  intros [-> | [-> | ->]]; simpl; eauto.
Qed.

Lemma type_name_invalid (r : Recipient.t) :
  ~ valid_type (Recipient.type r) -> Recipient.type_name r = Raise KeyError.
Proof.
  unfold valid_type, Recipient.type_name, Recipient._type_names. intros Hbad.
  destruct (Nat.eqb_spec (Recipient.type r) Recipient.PERSONAL); [tauto|].
  destruct (Nat.eqb_spec (Recipient.type r) Recipient.STREAM); [tauto|].
  destruct (Nat.eqb_spec (Recipient.type r) Recipient.HUDDLE); [tauto|].
  reflexivity.
Qed.

Section SendErrors.
Context {ext : Externals}.

Lemma get_display_recipient_raises (r : Recipient.t) :
  raises not_a_type_error (get_display_recipient r).
Proof.
  unfold get_display_recipient. apply raises_cache_with_key.
  unfold get_display_recipient_body.
  destruct (Recipient.type r =? Recipient.STREAM).
  - apply raises_bind; [|intros; apply raises_ret].
    unfold Stream_get_by_id.
    apply (raises_query _ (fun _ s => Stream.id s =? Recipient.type_id r)
                          (fun w => streams (db w))); exact I.
  - apply raises_bind; [apply raises_get_db | intros; apply raises_ret].
Qed.

Lemma get_user_profile_by_id_raises (uid : nat) :
  raises not_a_type_error (get_user_profile_by_id uid).
Proof.
  intros w e w'. unfold get_user_profile_by_id.
  destruct (user_hash w !! uid); [discriminate|].
  apply (raises_query _ (fun _ p => UserProfile.id p =? uid)
                        (fun w => profiles (db w))); exact I.
Qed.

Lemma log_message_raises (message : Message.t) :
  valid_type (Recipient.type (Message.recipient message)) ->
  raises not_a_type_error (log_message message).
Proof.
  intros Hvalid. unfold log_message.
  destruct (negb _); [|apply raises_ret].
  apply raises_bind; [|intros; unfold log_event; apply raises_emit].
  unfold to_log_dict.
  destruct (type_name_valid _ Hvalid) as [n ->].
  apply raises_bind; [intros w e w' H; discriminate|]. intros ty.
  apply raises_bind; [apply get_display_recipient_raises|].
  intros; apply raises_ret.
Qed.

Lemma resolve_recipients_raises (message : Message.t) :
  valid_type (Recipient.type (Message.recipient message)) ->
  raises not_a_type_error (resolve_recipients message).
Proof.
  intros Hvalid. unfold resolve_recipients.
  destruct (Recipient.type (Message.recipient message) =? Recipient.PERSONAL) eqn:Hp.
  - apply raises_bind; [apply get_user_profile_by_id_raises|]. intros a.
    apply raises_bind; [apply get_user_profile_by_id_raises|]. intros b.
    destruct (_ || _); [apply raises_ret | now apply raises_raise].
  - destruct ((Recipient.type (Message.recipient message) =? Recipient.STREAM)
              || (Recipient.type (Message.recipient message) =? Recipient.HUDDLE))
      eqn:Hsh.
    + intros w e w' H. discriminate.
    + exfalso. apply Nat.eqb_neq in Hp. apply orb_false_iff in Hsh as [Hs Hh].
      apply Nat.eqb_neq in Hs, Hh. unfold valid_type in Hvalid. tauto.
Qed.

Lemma save_receipts_raises (message : Message.t) (recipients : list UserProfile.t) :
  raises not_a_type_error (save_receipts message recipients).
Proof.
  unfold save_receipts. apply raises_commit_on_success.
  apply raises_bind.
  - intros w e w'. unfold Message_save.
    destruct (Message.id message); [destruct (existsb _ _)|]; discriminate.
  - intros m. apply raises_bind; [|intros; apply raises_ret].
    apply raises_for_each. intros p.
    destruct (User.is_active _); [|apply raises_ret].
    intros w e w'. unfold UserMessage_save.
    destruct (Message.id m); [destruct (existsb _ _)|]; intros H; inversion H; exact I.
Qed.

Lemma to_dict_raises (message : Message.t) (apply_markdown : bool) :
  valid_type (Recipient.type (Message.recipient message)) ->
  raises not_a_type_error (to_dict message apply_markdown).
Proof.
  intros Hvalid. unfold to_dict.
  destruct (Message.id message); [|now apply raises_raise].
  apply raises_cache_with_key. unfold to_dict_body.
  destruct (Message.precomputed_dicts message) as [[html markdown]|];
    [apply raises_ret|].
  apply raises_bind; [apply get_display_recipient_raises|]. intros dr.
  apply raises_bind.
  - destruct (Recipient.type (Message.recipient message) =? Recipient.STREAM) eqn:Hs;
      [apply raises_ret|].
    destruct ((Recipient.type (Message.recipient message) =? Recipient.HUDDLE)
              || (Recipient.type (Message.recipient message) =? Recipient.PERSONAL))
      eqn:Hhp.
    + destruct dr as [name | [|d0 [|d1 l]]]; try apply raises_ret.
      * destruct (String.length name =? 1);
          [now apply raises_raise | apply raises_ret].
      * repeat match goal with
               | |- context [if ?b then _ else _] => destruct b
               end; apply raises_ret.
    + exfalso. apply Nat.eqb_neq in Hs. apply orb_false_iff in Hhp as [Hh Hp].
      apply Nat.eqb_neq in Hh, Hp. unfold valid_type in Hvalid. tauto.
  - intros shown.
    repeat match goal with
           | |- context [if ?b then _ else _] => destruct b
           end; apply raises_ret.
Qed.

Lemma notify_tornado_raises (message : Message.t) (recipients : list UserProfile.t) :
  valid_type (Recipient.type (Message.recipient message)) ->
  raises not_a_type_error (notify_tornado message recipients).
Proof.
  intros Hvalid. unfold notify_tornado.
  destruct (negb _); [|apply raises_ret].
  apply raises_bind; [now apply to_dict_raises|]. intros html.
  apply raises_bind; [now apply to_dict_raises|]. intros markdown.
  unfold requests_post. apply raises_bind; [apply raises_emit|]. intros _.
  destruct (gateway_answers _); [apply raises_ret | now apply raises_raise].
Qed.

Lemma resolve_recipients_invalid_type (message : Message.t) w :
  ~ valid_type (Recipient.type (Message.recipient message)) ->
  resolve_recipients message w = (Raise (ValueError "Bad recipient type"), w).
Proof.
  unfold valid_type, resolve_recipients. intros Hbad.
  destruct (Nat.eqb_spec (Recipient.type (Message.recipient message))
                         Recipient.PERSONAL); [tauto|].
  destruct (Nat.eqb_spec (Recipient.type (Message.recipient message))
                         Recipient.STREAM); [tauto|].
  destruct (Nat.eqb_spec (Recipient.type (Message.recipient message))
                         Recipient.HUDDLE); [tauto|].
  reflexivity.
Qed.

Lemma do_send_message_invalid_type (message : Message.t) (no_log : bool) w :
  ~ valid_type (Recipient.type (Message.recipient message)) ->
  exists e, do_send_message message no_log w = (Raise e, w)
            /\ (e = KeyError \/ e = ValueError "Bad recipient type").
Proof.
  intros Hbad. unfold do_send_message.
  assert (Hresolve :
    forall k : list UserProfile.t -> M unit,
      bind (resolve_recipients message) k w
      = (Raise (ValueError "Bad recipient type"), w)).
  { intros k. apply bind_raise. now apply resolve_recipients_invalid_type. }
  destruct no_log; simpl.
  - exists (ValueError "Bad recipient type"). split; [|now right].
    unfold bind at 1. simpl. apply Hresolve.
  - unfold log_message.
    destruct (negb (String.prefix "test:"
                      (Client.name (Message.sending_client message)))).
    + exists KeyError. split; [|now left].
      apply bind_raise. apply bind_raise. unfold to_log_dict.
      apply bind_raise. unfold lift. now rewrite type_name_invalid.
    + exists (ValueError "Bad recipient type"). split; [|now right].
      unfold bind at 1. simpl. apply Hresolve.
Qed.

Lemma Message_save_returns (message : Message.t) w saved w' :
  Message_save message w = (Ok saved, w') ->
  (Message.id message = None
   /\ saved = Message.set_id (next_id (omap Message.id (messages (db w)))) message)
  \/ (Message.id message <> None /\ saved = message).
Proof.
  unfold Message_save. destruct (Message.id message) as [n|] eqn:Hid.
  - destruct (existsb _ _); intros H; inversion H; subst; right; split; congruence.
  - intros H; inversion H; subst. left. auto.
Qed.

Lemma save_receipts_returns (message : Message.t) recipients w saved w' :
  save_receipts message recipients w = (Ok saved, w') ->
  Message.recipient saved = Message.recipient message
  /\ Message.id saved <> None.
Proof.
  unfold save_receipts, commit_on_success.
  match goal with |- context [match ?c w with _ => _ end] =>
    destruct (c w) as [[m|e] w1] eqn:Hbody end; intros H; inversion H; subst.
  apply bind_inv_ok in Hbody as (m & w2 & Hsave & Hrest).
  apply bind_inv_ok in Hrest as ([] & w3 & _ & Hret). inversion Hret; subst.
  apply Message_save_returns in Hsave as [[Hid ->] | [Hid ->]]; simpl; auto.
Qed.

Lemma raises_bind_ok {A B} (S : exn -> Prop) (c : M A) (k : A -> M B) :
  raises S c -> (forall w a w1, c w = (Ok a, w1) -> raises S (k a)) ->
  raises S (bind c k).
Proof.
  intros Hc Hk w e w' H. apply bind_inv_raise in H as [H | (a & w1 & Ha & H)].
  - eapply Hc; eassumption.
  - eapply Hk; eassumption.
Qed.

Lemma do_send_message_raises (message : Message.t) (no_log : bool) :
  valid_type (Recipient.type (Message.recipient message)) ->
  raises not_a_type_error (do_send_message message no_log).
Proof.
  intros Hvalid. unfold do_send_message.
  apply raises_bind.
  { destruct (negb no_log); [now apply log_message_raises | apply raises_ret]. }
  intros _. apply raises_bind; [now apply resolve_recipients_raises|].
  intros recipients. apply raises_bind_ok; [apply save_receipts_raises|].
  intros w saved w1 Hsaved. apply notify_tornado_raises.
  apply save_receipts_returns in Hsaved as [-> _]. exact Hvalid.
Qed.

(** C8. A message whose recipient type is none of PERSONAL, STREAM and
    HUDDLE makes do_send_message raise (the KeyError of type_name when the
    message is logged first, the ValueError 'Bad recipient type' otherwise)
    and leaves the world as it was: no row is written.  With one of the
    three types neither of these errors is raised. *)
Theorem do_send_message_recipient_type (message : Message.t) (no_log : bool) w :
  (~ valid_type (Recipient.type (Message.recipient message)) ->
   exists e, do_send_message message no_log w = (Raise e, w)
             /\ (e = KeyError \/ e = ValueError "Bad recipient type"))
  /\ (valid_type (Recipient.type (Message.recipient message)) ->
      forall e w', do_send_message message no_log w = (Raise e, w') ->
                   e <> KeyError /\ e <> ValueError "Bad recipient type").
Proof.
  split.
  - apply do_send_message_invalid_type.
  - intros Hvalid e w' Hrun.
    apply (do_send_message_raises message no_log Hvalid) in Hrun.
    split; intros ->; exact Hrun.
Qed.

End SendErrors.

(** ** The fanout: one UserMessage row per active account *)

Lemma with_user_messages_twice l1 l2 s :
  with_user_messages l2 (with_user_messages l1 s) = with_user_messages l2 s.
Proof. reflexivity. Qed.

Lemma existsb_false_intro {A} (p : A -> bool) (l : list A) :
  (forall x, In x l -> p x = false) -> existsb p l = false.
Proof.
  intros Hall. induction l as [|x l IH]; simpl; [reflexivity|].
  rewrite Hall by now left. apply IH. intros y Hy. apply Hall. now right.
Qed.

Lemma with_receipts_cons row rows w :
  with_receipts rows (with_receipts [row] w) = with_receipts (row :: rows) w.
Proof.
  unfold with_receipts. simpl. rewrite <- !app_assoc. reflexivity.
Qed.

Lemma with_receipts_nil w : with_receipts [] w = w.
Proof.
  unfold with_receipts. destruct w as [[] ? ? ? ?]; simpl.
  now rewrite !app_nil_r.
Qed.

Lemma UserMessage_save_ok (p : UserProfile.t) (m : Message.t) (mid : nat) w :
  Message.id m = Some mid ->
  (forall row, In row (user_messages (db w)) ->
               UserMessage.user_profile_id row = UserProfile.id p ->
               UserMessage.message_id row <> mid) ->
  UserMessage_save p m w
  = (Ok tt, with_receipts
              [UserMessage.mk (next_id (map UserMessage.id (user_messages (db w))))
                              (UserProfile.id p) mid false] w).
Proof.
  intros Hid Hfresh. unfold UserMessage_save. rewrite Hid.
  rewrite existsb_false_intro; [reflexivity|].
  intros row Hrow. apply andb_false_iff.
  destruct (Nat.eqb_spec (UserMessage.user_profile_id row) (UserProfile.id p))
    as [Heq|]; [right|now left].
  apply Nat.eqb_neq. now apply Hfresh.
Qed.

Lemma fanout_loop (m : Message.t) (mid : nat) (l : list UserProfile.t) :
  Message.id m = Some mid ->
  NoDup (map UserProfile.id l) ->
  forall w,
    (forall p row, In p l -> In row (user_messages (db w)) ->
                   UserMessage.user_profile_id row = UserProfile.id p ->
                   UserMessage.message_id row <> mid) ->
    exists rows,
      for_each l (fun user_profile =>
                    if User.is_active (UserProfile.user user_profile)
                    then UserMessage_save user_profile m
                    else ret tt) w
      = (Ok tt, with_receipts rows w)
      /\ map UserMessage.user_profile_id rows
         = map UserProfile.id
               (List.filter (fun p => User.is_active (UserProfile.user p)) l)
      /\ Forall (fun row => UserMessage.message_id row = mid) rows.
Proof.
  intros Hid. induction l as [|p l IH]; intros Hnd w Hfresh.
  - exists []. simpl. rewrite with_receipts_nil.
    split; [reflexivity | split; [reflexivity | constructor]].
  - inversion Hnd as [|? ? Hnotin Hnd']; subst. simpl.
    destruct (User.is_active (UserProfile.user p)) eqn:Hactive.
    + rewrite (bind_ok _ _ _ _ _ (UserMessage_save_ok p m mid w Hid
                 (fun row Hrow => Hfresh p row (or_introl eq_refl) Hrow))).
      set (row := UserMessage.mk _ _ _ _).
      destruct (IH Hnd' (with_receipts [row] w)) as (rows & Hrun & Hmap & Hall).
      { intros q r Hq Hr Hrq. simpl in Hr.
        apply in_app_or in Hr as [Hr | [<- | []]].
        - apply (Hfresh q r); auto. now right.
        - simpl in Hrq. exfalso. apply Hnotin. rewrite Hrq.
          apply list_elem_of_In. now apply in_map. }
      exists (row :: rows). rewrite Hrun, with_receipts_cons.
      split; [reflexivity | split].
      * simpl. now rewrite Hmap.
      * constructor; [reflexivity | exact Hall].
    + unfold bind at 1. simpl.
      apply IH; [exact Hnd'|]. intros q r Hq. apply Hfresh. now right.
Qed.

Lemma next_message_id_fresh (s : Store) (row : UserMessage.t) :
  (forall row, In row (user_messages s) ->
     exists m, In m (messages s) /\ Message.id m = Some (UserMessage.message_id row)) ->
  In row (user_messages s) -> UserMessage.message_id row <> next_message_id s.
Proof.
  intros Hfk Hrow. destruct (Hfk row Hrow) as (m & Hm & Hid).
  assert (Hin : In (UserMessage.message_id row) (omap Message.id (messages s))).
  { apply list_elem_of_In. apply list_elem_of_omap. exists m.
    split; [now apply list_elem_of_In | exact Hid]. }
  apply next_id_above in Hin. unfold next_message_id. lia.
Qed.

Lemma save_receipts_unsent (message : Message.t) (recipients : list UserProfile.t) w :
  Message.id message = None ->
  NoDup (map UserProfile.id recipients) ->
  (forall row, In row (user_messages (db w)) ->
     exists m, In m (messages (db w))
               /\ Message.id m = Some (UserMessage.message_id row)) ->
  exists rows,
    save_receipts message recipients w
    = (Ok (Message.set_id (next_message_id (db w)) message),
       with_delivery message rows w)
    /\ map UserMessage.user_profile_id rows
       = map UserProfile.id
             (List.filter (fun p => User.is_active (UserProfile.user p)) recipients)
    /\ Forall (fun row => UserMessage.message_id row = next_message_id (db w)) rows.
Proof.
  intros Hid Hnd Hfk.
  set (mid := next_message_id (db w)).
  set (saved := Message.set_id mid message).
  set (w1 := record (DbInsert TMessage mid)
               (set_db (with_messages (messages (db w) ++ [saved]) (db w)) w)).
  assert (Hsave : Message_save message w = (Ok saved, w1)).
  { unfold Message_save. rewrite Hid. reflexivity. }
  destruct (fanout_loop saved mid recipients eq_refl Hnd w1) as (rows & Hloop & Hmap & Hall).
  { intros p row _ Hrow _. subst w1. simpl in Hrow.
    now apply next_message_id_fresh. }
  exists rows. split; [|split; assumption].
  unfold save_receipts, commit_on_success.
  rewrite (bind_ok _ _ _ _ _ Hsave), (bind_ok _ _ _ _ _ Hloop).
  reflexivity.
Qed.

Lemma with_delivery_messages message rows w :
  messages (db (with_delivery message rows w))
  = (messages (db w) ++ [Message.set_id (next_message_id (db w)) message])%list.
Proof. reflexivity. Qed.

Lemma with_delivery_user_messages message rows w :
  user_messages (db (with_delivery message rows w))
  = (user_messages (db w) ++ rows)%list.
Proof. reflexivity. Qed.

Lemma with_delivery_history message rows w :
  history (with_delivery message rows w)
  = (history w
     ++ DbInsert TMessage (next_message_id (db w))
        :: map (fun r => DbInsert TUserMessage (UserMessage.id r)) rows
     ++ [DbCommit])%list.
Proof.
  unfold with_delivery, with_receipts, record. simpl.
  rewrite <- !app_assoc. reflexivity.
Qed.

(** The receipts of the new message are exactly the new rows. *)
Lemma with_delivery_receipts message rows w :
  (forall row, In row (user_messages (db w)) ->
     exists m, In m (messages (db w))
               /\ Message.id m = Some (UserMessage.message_id row)) ->
  Forall (fun row => UserMessage.message_id row = next_message_id (db w)) rows ->
  receipts_of (next_message_id (db w)) (db (with_delivery message rows w)) = rows.
Proof.
  intros Hfk Hall. unfold receipts_of. rewrite with_delivery_user_messages.
  rewrite List.filter_app.
  assert (Hold : List.filter (fun row => UserMessage.message_id row
                                          =? next_message_id (db w))
                             (user_messages (db w)) = []).
  { apply filter_nil_existsb. apply existsb_false_intro. intros row Hrow.
    apply Nat.eqb_neq. now apply next_message_id_fresh. }
  rewrite Hold. simpl.
  induction Hall as [|row rows Hrow Hall IH]; simpl; [reflexivity|].
  rewrite Hrow, Nat.eqb_refl. now rewrite IH.
Qed.

(** ** Who a stream or huddle message is resolved to *)

Lemma NoDup_map_filter {A B} (f : A -> B) (p : A -> bool) (l : list A) :
  NoDup (map f l) -> NoDup (map f (List.filter p l)).
Proof.
  induction l as [|x l IH]; simpl; [auto|].
  rewrite NoDup_cons. intros [Hnotin Hnd].
  destruct (p x); simpl; [|now apply IH].
  apply NoDup_cons. split; [|now apply IH].
  intros Hin. apply Hnotin. apply list_elem_of_In. apply list_elem_of_In in Hin.
  apply in_map_iff in Hin as (y & Hy & Hin). apply filter_In in Hin as [Hin _].
  apply in_map_iff. eauto.
Qed.

Lemma active_subscriptions_NoDup (s : Store) (rid : nat) :
  NoDup (map (fun x => (Subscription.user_profile_id x, Subscription.recipient_id x))
             (subscriptions s)) ->
  NoDup (map Subscription.user_profile_id (active_subscriptions s rid)).
Proof.
  unfold active_subscriptions.
  induction (subscriptions s) as [|x l IH]; simpl; [intros; constructor|].
  rewrite NoDup_cons. intros [Hnotin Hnd].
  destruct (Nat.eqb_spec (Subscription.recipient_id x) rid) as [Hrid|]; simpl;
    [|now apply IH].
  destruct (Subscription.active x); simpl; [|now apply IH].
  apply NoDup_cons. split; [|now apply IH].
  intros Hin. apply Hnotin. apply list_elem_of_In. apply list_elem_of_In in Hin.
  apply in_map_iff in Hin as (y & Hy & Hin). apply filter_In in Hin as [Hin Hpass].
  apply andb_true_iff in Hpass as [Hyrid _]. apply Nat.eqb_eq in Hyrid.
  apply in_map_iff. exists y. split; [|exact Hin]. congruence.
Qed.

Lemma select_user_profile_In (s : Store) (x : Subscription.t) (p : UserProfile.t) :
  In p (select_user_profile s x)
  <-> In p (profiles s) /\ UserProfile.id p = Subscription.user_profile_id x.
Proof.
  unfold select_user_profile. rewrite filter_In, Nat.eqb_eq. reflexivity.
Qed.

Lemma flat_map_select_NoDup (s : Store) (l : list Subscription.t) :
  NoDup (map UserProfile.id (profiles s)) ->
  NoDup (map Subscription.user_profile_id l) ->
  NoDup (map UserProfile.id (flat_map (select_user_profile s) l)).
Proof.
  intros Hpk. induction l as [|x l IH]; simpl; [constructor|].
  rewrite NoDup_cons. intros [Hnotin Hnd].
  rewrite map_app. apply NoDup_app. split; [|split].
  - unfold select_user_profile. now apply NoDup_map_filter.
  - intros uid Hin Hin'. apply Hnotin.
    apply list_elem_of_In in Hin, Hin'. apply list_elem_of_In.
    apply in_map_iff in Hin as (p & Hp & Hin).
    apply select_user_profile_In in Hin as [_ Hpx].
    apply in_map_iff in Hin' as (q & Hq & Hin').
    apply in_flat_map in Hin' as (y & Hy & Hin').
    apply select_user_profile_In in Hin' as [_ Hqy].
    apply in_map_iff. exists y. split; [congruence | exact Hy].
  - now apply IH.
Qed.

Lemma subscribed_profiles_NoDup (s : Store) (rid : nat) :
  wf_store s ->
  NoDup (map UserProfile.id
             (flat_map (select_user_profile s) (active_subscriptions s rid))).
Proof.
  intros Hwf. apply flat_map_select_NoDup.
  - apply (wf_profile_pk s Hwf).
  - apply active_subscriptions_NoDup. apply (wf_subscription_unique s Hwf).
Qed.

Lemma subscribed_profiles_In (s : Store) (rid : nat) (p : UserProfile.t) :
  In p (flat_map (select_user_profile s) (active_subscriptions s rid))
  <-> In p (profiles s) /\ actively_subscribed s (UserProfile.id p) rid.
Proof.
  rewrite in_flat_map. unfold actively_subscribed, active_subscriptions. split.
  - intros (x & Hx & Hp). apply select_user_profile_In in Hp as [Hp Hid].
    apply filter_In in Hx as [Hx Hpass].
    apply andb_true_iff in Hpass as [Hrid Hact]. apply Nat.eqb_eq in Hrid.
    split; [exact Hp|]. exists x. auto.
  - intros (Hp & x & Hx & Hid & Hrid & Hact). exists x. split.
    + apply filter_In. split; [exact Hx|].
      apply andb_true_iff. split; [now apply Nat.eqb_eq | exact Hact].
    + apply select_user_profile_In. auto.
Qed.

(** ** Logging and notifying leave the store alone *)

Lemma db_stable : stable db.
Proof. repeat split. Qed.

Lemma user_hash_stable : stable user_hash.
Proof. repeat split. Qed.

Lemma history_cache_free : cache_free history.
Proof. repeat split. Qed.

Lemma keeps_emit {B} (f : World -> B) (e : Effect) : stable f -> keeps f (emit e).
Proof. intros (_ & Hrec) w. apply Hrec. Qed.

Section Rendering.
Context {ext : Externals}.
Context {B : Type} (f : World -> B) (Hfree : cache_free f).

Lemma get_display_recipient_keeps (r : Recipient.t) :
  keeps f (get_display_recipient r).
Proof.
  unfold get_display_recipient.
  apply keeps_cache_with_key; [apply Hfree|].
  unfold get_display_recipient_body.
  destruct (Recipient.type r =? Recipient.STREAM).
  - apply keeps_bind; [apply query_keeps | intros; apply keeps_ret].
  - apply keeps_bind; [intros w; reflexivity | intros; apply keeps_ret].
Qed.

Lemma to_log_dict_keeps (m : Message.t) : keeps f (to_log_dict m).
Proof.
  unfold to_log_dict. apply keeps_bind; [apply keeps_lift|]. intros ty.
  apply keeps_bind; [apply get_display_recipient_keeps|].
  intros; apply keeps_ret.
Qed.

Lemma to_dict_keeps (m : Message.t) (apply_markdown : bool) :
  keeps f (to_dict m apply_markdown).
Proof.
  unfold to_dict. destruct (Message.id m); [|apply keeps_raise].
  apply keeps_cache_with_key; [apply Hfree|].
  unfold to_dict_body.
  destruct (Message.precomputed_dicts m) as [[html markdown]|]; [apply keeps_ret|].
  apply keeps_bind; [apply get_display_recipient_keeps|]. intros dr.
  apply keeps_bind.
  - repeat match goal with
           | |- context [if ?b then _ else _] => destruct b
           | |- context [match ?d with DisplayName _ => _ | DisplayUsers _ => _ end] =>
               destruct d as [? | [|? [|? ?]]]
           end;
      first [ apply keeps_ret | apply keeps_raise
            | apply keeps_bind; [apply keeps_lift | intros; apply keeps_ret] ].
  - intros shown.
    repeat match goal with
           | |- context [if ?b then _ else _] => destruct b
           end; apply keeps_ret.
Qed.

End Rendering.

Section Frames.
Context {ext : Externals}.
Context {B : Type} (f : World -> B) (Hstable : stable f).

Lemma log_event_keeps (e : Event) : keeps f (log_event e).
Proof. unfold log_event. now apply keeps_emit. Qed.

Lemma log_message_keeps (m : Message.t) : keeps f (log_message m).
Proof.
  unfold log_message. destruct (negb _); [|apply keeps_ret].
  apply keeps_bind; [apply to_log_dict_keeps, Hstable | intros; apply log_event_keeps].
Qed.

Lemma notify_tornado_keeps (m : Message.t) (recipients : list UserProfile.t) :
  keeps f (notify_tornado m recipients).
Proof.
  unfold notify_tornado. destruct (negb _); [|apply keeps_ret].
  apply keeps_bind; [apply to_dict_keeps, Hstable|]. intros html.
  apply keeps_bind; [apply to_dict_keeps, Hstable|]. intros markdown.
  unfold requests_post. apply keeps_bind; [now apply keeps_emit|]. intros _.
  destruct (gateway_answers _); [apply keeps_ret | apply keeps_raise].
Qed.

End Frames.

(** ** do_send_message, phase by phase *)

Section Delivery.
Context {ext : Externals}.

Lemma get_user_profile_by_id_reads (uid : nat) w r w' :
  get_user_profile_by_id uid w = (r, w') -> w' = w.
Proof.
  unfold get_user_profile_by_id, UserProfile_get_by_id.
  destruct (user_hash w !! uid); intros H; now inversion H.
Qed.

Lemma resolve_recipients_reads (message : Message.t) w r w' :
  resolve_recipients message w = (r, w') -> w' = w.
Proof.
  unfold resolve_recipients.
  destruct (Recipient.type (Message.recipient message) =? Recipient.PERSONAL).
  - unfold bind.
    destruct (get_user_profile_by_id _ w) as [[a|e] w1] eqn:Ha;
      apply get_user_profile_by_id_reads in Ha; subst w1;
      [|intros H; now inversion H].
    destruct (get_user_profile_by_id _ w) as [[b|e] w1] eqn:Hb;
      apply get_user_profile_by_id_reads in Hb; subst w1;
      [|intros H; now inversion H].
    destruct (_ || _); intros H; now inversion H.
  - destruct (_ || _); intros H; now inversion H.
Qed.

Lemma resolve_recipients_subscribed (message : Message.t) w :
  Recipient.type (Message.recipient message) = Recipient.STREAM
  \/ Recipient.type (Message.recipient message) = Recipient.HUDDLE ->
  resolve_recipients message w
  = (Ok (flat_map (select_user_profile (db w))
                  (active_subscriptions (db w)
                                        (Recipient.id (Message.recipient message)))), w).
Proof.
  unfold resolve_recipients. intros [-> | ->]; reflexivity.
Qed.

Lemma list_set_NoDup (a b : UserProfile.t) :
  NoDup (map UserProfile.id (list_set a b)).
Proof.
  unfold list_set.
  destruct (Nat.eqb_spec (UserProfile.id a) (UserProfile.id b)) as [Heq|Hne]; simpl.
  - apply NoDup_singleton.
  - destruct (set_iterates_first _ _); simpl;
      apply NoDup_cons; (split; [|apply NoDup_singleton]);
      rewrite list_elem_of_In; simpl; intuition.
Qed.

Lemma resolve_recipients_personal (message : Message.t) w recipients w' :
  Recipient.type (Message.recipient message) = Recipient.PERSONAL ->
  resolve_recipients message w = (Ok recipients, w') ->
  exists a b,
    get_user_profile_by_id (Recipient.type_id (Message.recipient message)) w = (Ok a, w)
    /\ get_user_profile_by_id (Message.sender_id message) w = (Ok b, w)
    /\ recipients = list_set a b.
Proof.
  unfold resolve_recipients. intros ->. simpl. intros Hrun.
  apply bind_inv_ok in Hrun as (a & w1 & Ha & Hrun).
  pose proof (get_user_profile_by_id_reads _ _ _ _ Ha) as ->.
  apply bind_inv_ok in Hrun as (b & w1 & Hb & Hrun).
  pose proof (get_user_profile_by_id_reads _ _ _ _ Hb) as ->.
  exists a, b. split; [exact Ha | split; [exact Hb|]].
  destruct (_ || _); inversion Hrun. reflexivity.
Qed.

Lemma resolve_recipients_NoDup (message : Message.t) w recipients w' :
  wf_store (db w) ->
  resolve_recipients message w = (Ok recipients, w') ->
  NoDup (map UserProfile.id recipients).
Proof.
  intros Hwf Hrun.
  destruct (Nat.eqb_spec (Recipient.type (Message.recipient message))
                         Recipient.PERSONAL) as [Hp|Hp].
  - apply (resolve_recipients_personal _ _ _ _ Hp) in Hrun as (a & b & _ & _ & ->).
    apply list_set_NoDup.
  - destruct (Nat.eqb_spec (Recipient.type (Message.recipient message))
                           Recipient.STREAM) as [Hs|Hs];
      [|destruct (Nat.eqb_spec (Recipient.type (Message.recipient message))
                               Recipient.HUDDLE) as [Hh|Hh]].
    + rewrite resolve_recipients_subscribed in Hrun by now left.
      inversion Hrun; subst. now apply subscribed_profiles_NoDup.
    + rewrite resolve_recipients_subscribed in Hrun by now right.
      inversion Hrun; subst. now apply subscribed_profiles_NoDup.
    + rewrite resolve_recipients_invalid_type in Hrun; [discriminate|].
      unfold valid_type. tauto.
Qed.

Lemma log_step_keeps {B} (f : World -> B) (message : Message.t) (no_log : bool) :
  stable f -> keeps f (log_step message no_log).
Proof.
  intros Hf. unfold log_step.
  destruct (negb no_log); [now apply log_message_keeps | apply keeps_ret].
Qed.

(** Once the message is logged (or logging is off) and its recipients are
    resolved, the message row and one receipt per active account are
    written, and what remains is the notification. *)
Lemma do_send_message_delivery (message : Message.t) (no_log : bool)
    w w1 (recipients : list UserProfile.t) :
  wf_store (db w) ->
  Message.id message = None ->
  log_step message no_log w = (Ok tt, w1) ->
  resolve_recipients message w1 = (Ok recipients, w1) ->
  exists rows,
    do_send_message message no_log w
    = notify_tornado (Message.set_id (next_message_id (db w)) message) recipients
                     (with_delivery message rows w1)
    /\ map UserMessage.user_profile_id rows
       = map UserProfile.id
             (List.filter (fun p => User.is_active (UserProfile.user p)) recipients)
    /\ receipts_of (next_message_id (db w)) (db (with_delivery message rows w1)) = rows
    /\ db w1 = db w.
Proof.
  intros Hwf Hid Hlog Hresolve.
  assert (Hdb : db w1 = db w).
  { pose proof (log_step_keeps db message no_log db_stable w) as Hk.
    now rewrite Hlog in Hk. }
  assert (Hfk : forall row, In row (user_messages (db w1)) ->
            exists m, In m (messages (db w1))
                      /\ Message.id m = Some (UserMessage.message_id row)).
  { rewrite Hdb. apply (wf_user_message_fk _ Hwf). }
  destruct (save_receipts_unsent message recipients w1 Hid) as (rows & Hsave & Hmap & Hall);
    [|exact Hfk|].
  { eapply resolve_recipients_NoDup; [|exact Hresolve]. now rewrite Hdb. }
  exists rows. rewrite <- Hdb. split; [|split; [exact Hmap | split; [|reflexivity]]].
  - unfold do_send_message. fold (log_step message no_log).
    rewrite (bind_ok _ _ _ _ _ Hlog), (bind_ok _ _ _ _ _ Hresolve),
            (bind_ok _ _ _ _ _ Hsave).
    reflexivity.
  - now apply with_delivery_receipts.
Qed.

End Delivery.

Section Fanout.
Context {ext : Externals}.

Lemma get_user_profile_by_id_depends (uid : nat) w w1 :
  db w1 = db w -> user_hash w1 = user_hash w ->
  fst (get_user_profile_by_id uid w1) = fst (get_user_profile_by_id uid w).
Proof.
  intros Hdb Hhash. unfold get_user_profile_by_id, UserProfile_get_by_id.
  rewrite Hdb, Hhash. destruct (user_hash w !! uid); reflexivity.
Qed.

(** The recipients depend on the store and on [user_hash] only. *)
Lemma resolve_recipients_depends (message : Message.t) w w1 :
  db w1 = db w -> user_hash w1 = user_hash w ->
  fst (resolve_recipients message w1) = fst (resolve_recipients message w).
Proof.
  intros Hdb Hhash. unfold resolve_recipients.
  destruct (Recipient.type (Message.recipient message) =? Recipient.PERSONAL).
  - unfold bind.
    pose proof (get_user_profile_by_id_depends
                  (Recipient.type_id (Message.recipient message)) w w1 Hdb Hhash) as Ha.
    pose proof (get_user_profile_by_id_depends
                  (Message.sender_id message) w w1 Hdb Hhash) as Hb.
    set (ta := Recipient.type_id (Message.recipient message)) in *.
    set (tb := Message.sender_id message) in *.
    destruct (get_user_profile_by_id ta w1) as [ra w1a] eqn:Ea1.
    pose proof (get_user_profile_by_id_reads _ _ _ _ Ea1) as ->.
    destruct (get_user_profile_by_id ta w) as [ra' wa] eqn:Ea.
    pose proof (get_user_profile_by_id_reads _ _ _ _ Ea) as ->.
    simpl in Ha. subst ra'. destruct ra as [a|e]; [|reflexivity].
    destruct (get_user_profile_by_id tb w1) as [rb w1b] eqn:Eb1.
    pose proof (get_user_profile_by_id_reads _ _ _ _ Eb1) as ->.
    destruct (get_user_profile_by_id tb w) as [rb' wb] eqn:Eb.
    pose proof (get_user_profile_by_id_reads _ _ _ _ Eb) as ->.
    simpl in Hb. subst rb'. destruct rb as [b|e]; [|reflexivity].
    destruct (_ || _); reflexivity.
  - destruct (_ || _); [|reflexivity].
    unfold subscribed_profiles. simpl. now rewrite Hdb.
Qed.

Lemma do_send_message_store (message : Message.t) (no_log : bool)
    w (recipients : list UserProfile.t) :
  wf_store (db w) ->
  Message.id message = None ->
  fst (log_step message no_log w) = Ok tt ->
  resolve_recipients message w = (Ok recipients, w) ->
  let mid := next_message_id (db w) in
  let w' := snd (do_send_message message no_log w) in
  messages (db w') = (messages (db w) ++ [Message.set_id mid message])%list
  /\ map UserMessage.user_profile_id (receipts_of mid (db w'))
     = map UserProfile.id
           (List.filter (fun p => User.is_active (UserProfile.user p)) recipients)
  /\ (TORNADO_SERVER = "" -> fst (do_send_message message no_log w) = Ok tt).
Proof.
  intros Hwf Hid Hlog Hresolve mid w'.
  destruct (log_step message no_log w) as [r w1] eqn:Hstep. simpl in Hlog. subst r.
  assert (Hdb : db w1 = db w).
  { pose proof (log_step_keeps db message no_log db_stable w) as Hk.
    now rewrite Hstep in Hk. }
  assert (Hhash : user_hash w1 = user_hash w).
  { pose proof (log_step_keeps user_hash message no_log user_hash_stable w) as Hk.
    now rewrite Hstep in Hk. }
  assert (Hresolve1 : resolve_recipients message w1 = (Ok recipients, w1)).
  { pose proof (resolve_recipients_depends message w w1 Hdb Hhash) as Hdep.
    destruct (resolve_recipients message w1) as [r1 w1'] eqn:Hr1.
    pose proof (resolve_recipients_reads _ _ _ _ Hr1) as ->.
    rewrite Hresolve in Hdep. simpl in Hdep. now subst r1. }
  destruct (do_send_message_delivery message no_log w w1 recipients
              Hwf Hid Hstep Hresolve1) as (rows & Hrun & Hmap & Hreceipts & _).
  pose proof (notify_tornado_keeps db db_stable
                (Message.set_id (next_message_id (db w)) message) recipients
                (with_delivery message rows w1)) as Hkeep.
  subst w' mid. rewrite Hrun, Hkeep. split; [|split].
  - rewrite with_delivery_messages. now rewrite Hdb.
  - now rewrite Hreceipts.
  - intros Hoff. unfold notify_tornado. now rewrite Hoff.
Qed.

Lemma NoDup_map_inj_on {A B} (f : A -> B) (l : list A) (x y : A) :
  NoDup (map f l) -> In x l -> In y l -> f x = f y -> x = y.
Proof.
  induction l as [|z l IH]; simpl; [tauto|].
  rewrite NoDup_cons. intros [Hnotin Hnd] [-> | Hx] [-> | Hy] Hf; auto.
  - exfalso. apply Hnotin. rewrite Hf. apply list_elem_of_In. now apply in_map.
  - exfalso. apply Hnotin. rewrite <- Hf. apply list_elem_of_In. now apply in_map.
Qed.

(** C1. A message to a Stream or Huddle recipient, once logged (or with
    logging off): the recipients resolved are the profiles with an active
    subscription to the recipient, deactivated accounts included; the
    UserMessage rows of the new message are one per resolved profile whose
    account is active, and none for a deactivated one.  With three
    subscribers of whom one is deactivated, that is two rows. *)
Theorem stream_fanout (message : Message.t) (no_log : bool) w :
  wf_store (db w) ->
  Message.id message = None ->
  Recipient.type (Message.recipient message) = Recipient.STREAM
  \/ Recipient.type (Message.recipient message) = Recipient.HUDDLE ->
  fst (log_step message no_log w) = Ok tt ->
  let rid := Recipient.id (Message.recipient message) in
  let mid := next_message_id (db w) in
  let w' := snd (do_send_message message no_log w) in
  let receivers := map UserMessage.user_profile_id (receipts_of mid (db w')) in
  exists recipients,
    resolve_recipients message w = (Ok recipients, w)
    /\ (forall p, In p recipients <->
                  In p (profiles (db w))
                  /\ actively_subscribed (db w) (UserProfile.id p) rid)
    /\ NoDup receivers
    /\ (forall uid, In uid receivers <->
                    exists p, In p (profiles (db w))
                              /\ UserProfile.id p = uid
                              /\ actively_subscribed (db w) uid rid
                              /\ User.is_active (UserProfile.user p) = true)
    /\ (forall p, In p recipients ->
                  User.is_active (UserProfile.user p) = false ->
                  ~ In (UserProfile.id p) receivers)
    /\ (length recipients = 3 ->
        length (List.filter (fun p => negb (User.is_active (UserProfile.user p)))
                            recipients) = 1 ->
        length (receipts_of mid (db w')) = 2).
Proof.
  intros Hwf Hid Htype Hlog rid mid w' receivers.
  set (recipients := flat_map (select_user_profile (db w))
                              (active_subscriptions (db w) rid)).
  assert (Hresolve : resolve_recipients message w = (Ok recipients, w))
    by now apply resolve_recipients_subscribed.
  assert (Hin : forall p, In p recipients <->
                  In p (profiles (db w))
                  /\ actively_subscribed (db w) (UserProfile.id p) rid)
    by (intros p; apply subscribed_profiles_In).
  assert (Hnd : NoDup (map UserProfile.id recipients))
    by now apply subscribed_profiles_NoDup.
  destruct (do_send_message_store message no_log w recipients Hwf Hid Hlog Hresolve)
    as (_ & Hrows & _).
  fold mid w' receivers in Hrows.
  exists recipients. split; [exact Hresolve | split; [exact Hin|]].
  split; [|split; [|split]].
  - rewrite Hrows. now apply NoDup_map_filter.
  - intros uid. rewrite Hrows, in_map_iff. split.
    + intros (p & Hp & Hpin). apply filter_In in Hpin as [Hpin Hact].
      apply Hin in Hpin as [Hprof Hsub]. exists p. subst uid. auto.
    + intros (p & Hprof & Hp & Hsub & Hact). exists p. split; [exact Hp|].
      apply filter_In. split; [|exact Hact]. apply Hin. subst uid. auto.
  - intros p Hp Hinactive. rewrite Hrows, in_map_iff.
    intros (q & Hq & Hqin). apply filter_In in Hqin as [Hqin Hact].
    assert (q = p) by (eapply NoDup_map_inj_on; eassumption).
    subst q. congruence.
  - intros Hthree Hone.
    assert (Hlen : length (receipts_of mid (db w'))
                   = length (List.filter
                               (fun p => User.is_active (UserProfile.user p))
                               recipients)).
    { rewrite <- (length_map UserMessage.user_profile_id). fold receivers.
      rewrite Hrows. apply length_map. }
    pose proof (filter_length (fun p => User.is_active (UserProfile.user p))
                              recipients) as Hsplit.
    lia.
Qed.

Lemma get_user_profile_by_id_id (uid : nat) w p w' :
  user_hash_coherent w ->
  get_user_profile_by_id uid w = (Ok p, w') -> UserProfile.id p = uid.
Proof.
  intros Hcoh. unfold get_user_profile_by_id, UserProfile_get_by_id.
  destruct (user_hash w !! uid) as [q|] eqn:Hq; intros H; inversion H as [[Hp Hw]].
  - subst. now apply Hcoh.
  - apply objects_get_ok_inv in Hp.
    assert (Hin : In p (List.filter (fun p => UserProfile.id p =? uid)
                                    (profiles (db w)))) by (rewrite Hp; now left).
    apply filter_In in Hin as [_ Hid]. now apply Nat.eqb_eq.
Qed.

Lemma resolve_recipients_personal_ok (message : Message.t) w a b :
  Recipient.type (Message.recipient message) = Recipient.PERSONAL ->
  get_user_profile_by_id (Recipient.type_id (Message.recipient message)) w = (Ok a, w) ->
  get_user_profile_by_id (Message.sender_id message) w = (Ok b, w) ->
  resolve_recipients message w = (Ok (list_set a b), w).
Proof.
  intros Htype Ha Hb. unfold resolve_recipients. rewrite Htype. simpl.
  rewrite (bind_ok _ _ _ _ _ Ha), (bind_ok _ _ _ _ _ Hb).
  unfold list_set.
  destruct (UserProfile.id a =? UserProfile.id b); [reflexivity|].
  destruct (set_iterates_first _ _); reflexivity.
Qed.

(** C2. A Personal message whose target and sender both exist with active
    accounts, once logged (or with logging off): one UserMessage row, the
    sender's, when the sender is the target; two rows, the sender's and the
    target's, when they differ.  The recipients come out of a set, so no
    user gets two rows. *)
Theorem personal_fanout (message : Message.t) (no_log : bool) w
    (target sender : UserProfile.t) :
  wf_store (db w) ->
  user_hash_coherent w ->
  Message.id message = None ->
  Recipient.type (Message.recipient message) = Recipient.PERSONAL ->
  fst (log_step message no_log w) = Ok tt ->
  get_user_profile_by_id (Recipient.type_id (Message.recipient message)) w
  = (Ok target, w) ->
  get_user_profile_by_id (Message.sender_id message) w = (Ok sender, w) ->
  User.is_active (UserProfile.user target) = true ->
  User.is_active (UserProfile.user sender) = true ->
  let target_id := Recipient.type_id (Message.recipient message) in
  let sender_id := Message.sender_id message in
  let mid := next_message_id (db w) in
  let w' := snd (do_send_message message no_log w) in
  let receivers := map UserMessage.user_profile_id (receipts_of mid (db w')) in
  NoDup receivers
  /\ (sender_id = target_id ->
      length (receipts_of mid (db w')) = 1 /\ receivers = [sender_id])
  /\ (sender_id <> target_id ->
      length (receipts_of mid (db w')) = 2
      /\ In sender_id receivers /\ In target_id receivers).
Proof.
  intros Hwf Hcoh Hid Htype Hlog Htarget Hsender Hta Hsa
         target_id sender_id mid w' receivers.
  pose proof (resolve_recipients_personal_ok message w target sender
                Htype Htarget Hsender) as Hresolve.
  destruct (do_send_message_store message no_log w _ Hwf Hid Hlog Hresolve)
    as (_ & Hrows & _).
  fold mid w' receivers in Hrows.
  apply get_user_profile_by_id_id in Htarget; [|exact Hcoh].
  apply get_user_profile_by_id_id in Hsender; [|exact Hcoh].
  fold target_id in Htarget. fold sender_id in Hsender.
  assert (Hlen : length (receipts_of mid (db w')) = length receivers)
    by (symmetry; apply length_map).
  revert Hrows. unfold list_set. rewrite Htarget, Hsender.
  destruct (Nat.eqb_spec target_id sender_id) as [Heq|Hne]; simpl.
  - rewrite Hta. simpl. rewrite Htarget. intros Hrows.
    rewrite Hlen, Hrows. split; [|split].
    + apply NoDup_singleton.
    + intros _. split; [reflexivity | now rewrite Heq].
    + congruence.
  - destruct (set_iterates_first target_id sender_id); simpl;
      rewrite Hta, Hsa; simpl; rewrite Htarget, Hsender; intros Hrows;
      rewrite Hlen, Hrows; (split; [|split]);
      try (intros Heq; congruence);
      try (intros _; simpl; auto);
      apply NoDup_cons; (split; [|apply NoDup_singleton]);
      rewrite list_elem_of_In; simpl; intuition.
Qed.

Lemma do_send_message_phases (message : Message.t) (no_log : bool)
    w (recipients : list UserProfile.t) :
  wf_store (db w) ->
  Message.id message = None ->
  fst (log_step message no_log w) = Ok tt ->
  resolve_recipients message w = (Ok recipients, w) ->
  exists w1 rows,
    do_send_message message no_log w
    = notify_tornado (Message.set_id (next_message_id (db w)) message) recipients
                     (with_delivery message rows w1)
    /\ map UserMessage.user_profile_id rows
       = map UserProfile.id
             (List.filter (fun p => User.is_active (UserProfile.user p)) recipients)
    /\ receipts_of (next_message_id (db w)) (db (with_delivery message rows w1)) = rows.
Proof.
  intros Hwf Hid Hlog Hresolve.
  destruct (log_step message no_log w) as [r w1] eqn:Hstep. simpl in Hlog. subst r.
  assert (Hdb : db w1 = db w).
  { pose proof (log_step_keeps db message no_log db_stable w) as Hk.
    now rewrite Hstep in Hk. }
  assert (Hhash : user_hash w1 = user_hash w).
  { pose proof (log_step_keeps user_hash message no_log user_hash_stable w) as Hk.
    now rewrite Hstep in Hk. }
  assert (Hresolve1 : resolve_recipients message w1 = (Ok recipients, w1)).
  { pose proof (resolve_recipients_depends message w w1 Hdb Hhash) as Hdep.
    destruct (resolve_recipients message w1) as [r1 w1'] eqn:Hr1.
    pose proof (resolve_recipients_reads _ _ _ _ Hr1) as ->.
    rewrite Hresolve in Hdep. simpl in Hdep. now subst r1. }
  destruct (do_send_message_delivery message no_log w w1 recipients
              Hwf Hid Hstep Hresolve1) as (rows & Hrun & Hmap & Hreceipts & _).
  exists w1, rows. auto.
Qed.

Lemma notify_tornado_posts (m : Message.t) (recipients : list UserProfile.t) w w' :
  TORNADO_SERVER <> "" ->
  notify_tornado m recipients w = (Ok tt, w') ->
  exists request,
    history w' = (history w ++ [HttpPost request])%list
    /\ nr_message request = Message.id m
    /\ nr_users request = map (fun user => pretty (UserProfile.id user)) recipients.
Proof.
  intros Hon. unfold notify_tornado.
  destruct (String.eqb_spec TORNADO_SERVER "") as [|_]; [contradiction|]. simpl.
  intros Hrun.
  apply bind_inv_ok in Hrun as (html & w1 & Hhtml & Hrun).
  apply bind_inv_ok in Hrun as (markdown & w2 & Hmarkdown & Hrun).
  unfold requests_post in Hrun.
  apply bind_inv_ok in Hrun as ([] & w3 & Hemit & Hrun).
  inversion Hemit; subst w3.
  destruct (gateway_answers _); inversion Hrun; subst w'.
  pose proof (to_dict_keeps history history_cache_free m true w) as H1.
  pose proof (to_dict_keeps history history_cache_free m false w1) as H2.
  rewrite Hhtml in H1. rewrite Hmarkdown in H2. simpl in H1, H2.
  eexists. split; [simpl; rewrite H2, H1; reflexivity|].
  split; reflexivity.
Qed.

(** C10. When the push gateway is configured and the send returns, the
    request posted last carries the ids of all the resolved recipients, as
    computed before the test on the account: a resolved recipient whose
    account is deactivated is in the request's user list and has no
    UserMessage row, so the list can be strictly larger than the set of
    users the message was delivered to. *)
Theorem push_users_unfiltered (message : Message.t) (no_log : bool)
    w (recipients : list UserProfile.t) :
  wf_store (db w) ->
  Message.id message = None ->
  TORNADO_SERVER <> "" ->
  resolve_recipients message w = (Ok recipients, w) ->
  fst (do_send_message message no_log w) = Ok tt ->
  let mid := next_message_id (db w) in
  let w' := snd (do_send_message message no_log w) in
  let receivers := map UserMessage.user_profile_id (receipts_of mid (db w')) in
  exists request earlier,
    history w' = (earlier ++ [HttpPost request])%list
    /\ nr_message request = Some mid
    /\ nr_users request = map (fun user => pretty (UserProfile.id user)) recipients
    /\ receivers
       = map UserProfile.id
             (List.filter (fun p => User.is_active (UserProfile.user p)) recipients)
    /\ (forall p, In p recipients ->
                  User.is_active (UserProfile.user p) = false ->
                  In (pretty (UserProfile.id p)) (nr_users request)
                  /\ ~ In (UserProfile.id p) receivers).
Proof.
  intros Hwf Hid Hon Hresolve Hok mid w' receivers.
  assert (Hlog : fst (log_step message no_log w) = Ok tt).
  { revert Hok. unfold do_send_message. fold (log_step message no_log).
    unfold bind at 1. destruct (log_step message no_log w) as [[[]|e] w1]; simpl;
      [reflexivity | discriminate]. }
  destruct (do_send_message_phases message no_log w recipients Hwf Hid Hlog Hresolve)
    as (w1 & rows & Hrun & Hmap & Hreceipts).
  subst w' receivers. revert Hok. rewrite Hrun.
  destruct (notify_tornado _ recipients (with_delivery message rows w1))
    as [r w2] eqn:Hnotify.
  simpl. intros ->.
  pose proof (notify_tornado_keeps db db_stable
                (Message.set_id (next_message_id (db w)) message) recipients
                (with_delivery message rows w1)) as Hkeep.
  rewrite Hnotify in Hkeep.
  change (db w2 = db (with_delivery message rows w1)) in Hkeep.
  apply notify_tornado_posts in Hnotify as (request & Hhist & Hmsg & Husers);
    [|exact Hon].
  assert (Hrows : map UserMessage.user_profile_id (receipts_of mid (db w2))
                  = map UserProfile.id
                        (List.filter (fun p => User.is_active (UserProfile.user p))
                                     recipients)).
  { rewrite Hkeep. unfold mid. rewrite Hreceipts. exact Hmap. }
  exists request, (history (with_delivery message rows w1)).
  split; [exact Hhist | split; [exact Hmsg | split; [exact Husers|]]].
  split; [exact Hrows|].
  intros p Hp Hinactive. split.
  - rewrite Husers. apply in_map_iff. exists p. auto.
  - rewrite Hrows, in_map_iff.
    intros (q & Hq & Hqin). apply filter_In in Hqin as [Hqin Hact].
    assert (q = p).
    { eapply NoDup_map_inj_on; [|exact Hqin | exact Hp | exact Hq].
      eapply resolve_recipients_NoDup; eassumption. }
    subst q. congruence.
Qed.

End Fanout.

(** ** The order of effects *)

Lemma emits_silent {A} (P : Effect -> Prop) (c : M A) :
  keeps history c -> emits P c.
Proof.
  intros Hk w. exists []. rewrite Hk, app_nil_r. split; [reflexivity | constructor].
Qed.

Lemma emits_ret {A} (P : Effect -> Prop) (a : A) : emits P (ret a).
Proof. apply emits_silent, keeps_ret. Qed.

Lemma emits_raise {A} (P : Effect -> Prop) (e : exn) : emits P (@raise A e).
Proof. apply emits_silent, keeps_raise. Qed.

Lemma emits_emit (P : Effect -> Prop) (e : Effect) : P e -> emits P (emit e).
Proof.
  intros He w. exists [e]. split; [reflexivity | now constructor].
Qed.

Lemma emits_bind {A B} (P : Effect -> Prop) (c : M A) (k : A -> M B) :
  emits P c -> (forall a, emits P (k a)) -> emits P (bind c k).
Proof.
  intros Hc Hk w. unfold bind. destruct (Hc w) as (new1 & H1 & HP1).
  destruct (c w) as [[a|e] w1]; simpl in *.
  - destruct (Hk a w1) as (new2 & H2 & HP2).
    exists (new1 ++ new2)%list. rewrite H2, H1, app_assoc.
    split; [reflexivity | now apply Forall_app].
  - exists new1. auto.
Qed.

Lemma emits_for_each {A} (P : Effect -> Prop) (l : list A) (body : A -> M unit) :
  (forall x, emits P (body x)) -> emits P (for_each l body).
Proof.
  intros Hb. induction l as [|x l IH]; simpl.
  - apply emits_ret.
  - apply emits_bind; [apply Hb | intros _; exact IH].
Qed.

Lemma emits_commit_on_success {A} (P : Effect -> Prop) (body : M A) :
  P DbCommit -> P DbRollback -> emits P body -> emits P (commit_on_success body).
Proof.
  intros Hc Hr Hb w. unfold commit_on_success.
  destruct (Hb w) as (new & Hnew & HP).
  destruct (body w) as [[a|e] w1]; simpl in *.
  - exists (new ++ [DbCommit])%list. rewrite Hnew, app_assoc.
    split; [reflexivity|]. apply Forall_app. split; [exact HP | now constructor].
  - exists (new ++ [DbRollback])%list. rewrite Hnew, app_assoc.
    split; [reflexivity|]. apply Forall_app. split; [exact HP | now constructor].
Qed.

Lemma Message_save_emits (m : Message.t) w :
  exists e, history (snd (Message_save m w)) = (history w ++ [e])%list
            /\ is_receipt_write e = true.
Proof.
  unfold Message_save. destruct (Message.id m) as [n|].
  - destruct (existsb _ _); eexists; split; reflexivity.
  - eexists; split; reflexivity.
Qed.

Lemma UserMessage_save_emits (p : UserProfile.t) (m : Message.t) :
  emits not_log_append (UserMessage_save p m).
Proof.
  intros w. unfold UserMessage_save. destruct (Message.id m) as [n|].
  - destruct (existsb _ _).
    + exists []. simpl. rewrite app_nil_r. split; [reflexivity | constructor].
    + eexists [_]. split; [reflexivity|]. constructor; [reflexivity | constructor].
  - exists []. simpl. rewrite app_nil_r. split; [reflexivity | constructor].
Qed.

Section Order.
Context {ext : Externals}.

Lemma save_receipts_emits (m : Message.t) (recipients : list UserProfile.t) :
  emits not_log_append (save_receipts m recipients).
Proof.
  unfold save_receipts. apply emits_commit_on_success; [reflexivity..|].
  apply emits_bind.
  - intros w. destruct (Message_save_emits m w) as (e & He & Hw).
    exists [e]. split; [exact He|]. constructor; [|constructor].
    destruct e as [| [] | [] | | |]; try discriminate; reflexivity.
  - intros saved. apply emits_bind; [|intros; apply emits_ret].
    apply emits_for_each. intros p.
    destruct (User.is_active _); [apply UserMessage_save_emits | apply emits_ret].
Qed.

(** A save that returns has written the message row. *)
Lemma save_receipts_writes (m : Message.t) (recipients : list UserProfile.t)
    w saved w' :
  save_receipts m recipients w = (Ok saved, w') ->
  exists e rest, history w' = (history w ++ e :: rest)%list
                 /\ is_receipt_write e = true.
Proof.
  unfold save_receipts, commit_on_success.
  match goal with |- context [match ?c w with _ => _ end] =>
    destruct (c w) as [[x|e] w1] eqn:Hbody end; intros H; inversion H; subst.
  apply bind_inv_ok in Hbody as (x & w2 & Hsave & Hrest).
  destruct (Message_save_emits m w) as (e & He & Hw). rewrite Hsave in He.
  simpl in He.
  match type of Hrest with
  | ?c w2 = _ => assert (Hk : emits (fun _ => True) c)
  end.
  { apply emits_bind; [|intros; apply emits_ret].
    apply emits_for_each. intros p.
    destruct (User.is_active _); [|apply emits_ret].
    intros w0. destruct (UserMessage_save_emits p x w0) as (new & Hn & _).
    exists new. split; [exact Hn|]. now apply Forall_forall. }
  destruct (Hk w2) as (new & Hnew & _). rewrite Hrest in Hnew. simpl in Hnew.
  exists e, (new ++ [DbCommit])%list. split; [|exact Hw].
  simpl. rewrite Hnew, He, <- !app_assoc. reflexivity.
Qed.

Lemma resolve_recipients_emits (m : Message.t) :
  emits not_log_append (resolve_recipients m).
Proof.
  apply emits_silent. intros w.
  destruct (resolve_recipients m w) as [r w'] eqn:Hrun.
  now rewrite (resolve_recipients_reads _ _ _ _ Hrun).
Qed.

Lemma notify_tornado_emits (m : Message.t) (recipients : list UserProfile.t) :
  emits not_log_append (notify_tornado m recipients).
Proof.
  unfold notify_tornado. destruct (negb _); [|apply emits_ret].
  apply emits_bind; [apply emits_silent, to_dict_keeps, history_cache_free|].
  intros html.
  apply emits_bind; [apply emits_silent, to_dict_keeps, history_cache_free|].
  intros markdown. unfold requests_post.
  apply emits_bind; [now apply emits_emit|]. intros _.
  destruct (gateway_answers _); [apply emits_ret | apply emits_raise].
Qed.

End Order.

Section LogOrder.
Context {ext : Externals}.

Lemma do_send_message_steps (message : Message.t) (no_log : bool) :
  do_send_message message no_log
  = (log_step message no_log ;;; deliver message).
Proof. reflexivity. Qed.

Lemma deliver_emits (message : Message.t) : emits not_log_append (deliver message).
Proof.
  unfold deliver. apply emits_bind; [apply resolve_recipients_emits|].
  intros recipients. apply emits_bind; [apply save_receipts_emits|].
  intros saved. apply notify_tornado_emits.
Qed.

Lemma deliver_writes (message : Message.t) w w' :
  deliver message w = (Ok tt, w') ->
  exists new, history w' = (history w ++ new)%list
              /\ Exists (fun e => is_receipt_write e = true) new.
Proof.
  unfold deliver. intros Hrun.
  apply bind_inv_ok in Hrun as (recipients & w1 & Hresolve & Hrun).
  pose proof (resolve_recipients_reads _ _ _ _ Hresolve) as ->.
  apply bind_inv_ok in Hrun as (saved & w2 & Hsave & Hnotify).
  apply save_receipts_writes in Hsave as (e & rest & Hhist & He).
  destruct (notify_tornado_emits saved recipients w2) as (new & Hnew & _).
  rewrite Hnotify in Hnew. simpl in Hnew.
  exists (e :: rest ++ new)%list. split.
  - rewrite Hnew, Hhist, <- app_assoc. reflexivity.
  - now apply Exists_cons_hd.
Qed.

Lemma to_log_dict_ok_inv (message : Message.t) w event w' :
  to_log_dict message w = (Ok event, w') ->
  exists type recipient,
    Recipient.type_name (Message.recipient message) = Ok type
    /\ fst (get_display_recipient (Message.recipient message) w) = Ok recipient
    /\ event
       = mkEvent
           (MessageSent (Message.id message)
              (User.email (UserProfile.user (Message.sender message)))
              (UserProfile.full_name (Message.sender message))
              (UserProfile.short_name (Message.sender message))
              (Client.name (Message.sending_client message))
              type recipient
              (Message.subject message) (Message.content message))
           (Some (datetime_to_timestamp (Message.pub_date message))).
Proof.
  unfold to_log_dict. intros Hrun.
  apply bind_inv_ok in Hrun as (type & w1 & Htype & Hrun).
  unfold lift in Htype. inversion Htype as [[Hty Hw]]. subst w1.
  apply bind_inv_ok in Hrun as (recipient & w2 & Hdr & Hret).
  inversion Hret; subst. exists type, recipient.
  rewrite Hdr. auto.
Qed.

Lemma log_step_exempt (message : Message.t) (no_log : bool) w :
  no_log || String.prefix "test:" (Client.name (Message.sending_client message)) = true ->
  log_step message no_log w = (Ok tt, w).
Proof.
  unfold log_step, log_message. destruct no_log; simpl; [reflexivity|].
  now intros ->.
Qed.

Lemma log_step_logged (message : Message.t) (no_log : bool) w event w0 :
  no_log || String.prefix "test:" (Client.name (Message.sending_client message)) = false ->
  to_log_dict message w = (Ok event, w0) ->
  log_step message no_log w = (Ok tt, record (LogAppend event) w0).
Proof.
  unfold log_step, log_message. intros Hex Hdict.
  apply orb_false_iff in Hex as [-> ->]. simpl.
  rewrite (bind_ok _ _ _ _ _ Hdict).
  destruct (to_log_dict_ok_inv _ _ _ _ Hdict) as (type & recipient & _ & _ & ->).
  reflexivity.
Qed.

Lemma log_step_failed (message : Message.t) (no_log : bool) w e w0 :
  no_log || String.prefix "test:" (Client.name (Message.sending_client message)) = false ->
  to_log_dict message w = (Raise e, w0) ->
  log_step message no_log w = (Raise e, w0).
Proof.
  unfold log_step, log_message. intros Hex Hdict.
  apply orb_false_iff in Hex as [-> ->]. simpl.
  now apply bind_raise.
Qed.

(** C7, as the code has it.  Without [no_log], and for a client whose name
    does not start with "test:", the event built by to_log_dict (sender,
    client, recipient type and description, subject, content, timestamp) is
    the first effect of the send: it is on the log before any row of Message
    or UserMessage is written, and nothing else is logged; when the event
    cannot be built the send raises and has no effect.  With [no_log], or for
    a "test:" client, the send appends nothing to the log.  A send that
    returns has written the message row. *)
Theorem message_logged_before_receipts (message : Message.t) (no_log : bool) w :
  let r := fst (do_send_message message no_log w) in
  let w' := snd (do_send_message message no_log w) in
  let exempt :=
    no_log || String.prefix "test:" (Client.name (Message.sending_client message)) in
  exists new,
    history w' = (history w ++ new)%list
    /\ (r = Ok tt -> Exists (fun e => is_receipt_write e = true) new)
    /\ if exempt then Forall not_log_append new
       else match fst (to_log_dict message w) with
            | Raise e => r = Raise e /\ new = []
            | Ok event =>
                exists type recipient rest,
                  new = LogAppend event :: rest
                  /\ Forall not_log_append rest
                  /\ event
                     = mkEvent
                         (MessageSent (Message.id message)
                            (User.email (UserProfile.user (Message.sender message)))
                            (UserProfile.full_name (Message.sender message))
                            (UserProfile.short_name (Message.sender message))
                            (Client.name (Message.sending_client message))
                            type recipient
                            (Message.subject message) (Message.content message))
                         (Some (datetime_to_timestamp (Message.pub_date message)))
            end.
Proof.
  intros r w' exempt. subst r w'. rewrite do_send_message_steps.
  assert (Hquiet : forall w0,
            exists new,
              history (snd (deliver message w0)) = (history w0 ++ new)%list
              /\ (fst (deliver message w0) = Ok tt ->
                  Exists (fun e => is_receipt_write e = true) new)
              /\ Forall not_log_append new).
  { intros w0. destruct (deliver_emits message w0) as (new & Hnew & Hall).
    exists new. split; [exact Hnew | split; [|exact Hall]].
    destruct (deliver message w0) as [[[]|e] w1] eqn:Hrun; simpl; [|discriminate].
    intros _. apply deliver_writes in Hrun as (new' & Hnew' & Hex).
    simpl in Hnew. rewrite Hnew in Hnew'. apply app_inv_head in Hnew'.
    now subst new'. }
  destruct exempt eqn:Hexempt; subst exempt.
  { rewrite (bind_ok _ _ _ _ _ (log_step_exempt message no_log w Hexempt)).
    destruct (Hquiet w) as (new & Hnew & Hwrites & Hall).
    exists new. auto. }
  pose proof (to_log_dict_keeps history history_cache_free message w) as Hk.
  destruct (to_log_dict message w) as [[event|e] w0] eqn:Hdict;
    change (history w0 = history w) in Hk.
  - rewrite (bind_ok _ _ _ _ _ (log_step_logged message no_log w event w0 Hexempt Hdict)).
    destruct (to_log_dict_ok_inv _ _ _ _ Hdict) as (type & recipient & _ & _ & Hevent).
    destruct (Hquiet (record (LogAppend event) w0)) as (rest & Hrest & Hwrites & Hall).
    exists (LogAppend event :: rest). split; [|split].
    + rewrite Hrest. unfold record at 1. simpl.
      rewrite Hk, <- app_assoc. reflexivity.
    + intros Hok. apply Exists_cons_tl. now apply Hwrites.
    + exists type, recipient, rest. auto.
  - rewrite (bind_raise _ _ _ _ _ (log_step_failed message no_log w e w0 Hexempt Hdict)).
    exists []. simpl. rewrite Hk, app_nil_r. split; [reflexivity|].
    split; [discriminate | auto].
Qed.

End LogOrder.

(** ** Subscriptions *)

Lemma filter_head_find {A} (p : A -> bool) (l : list A) :
  List.find p l = head (List.filter p l).
Proof.
  induction l as [|x l IH]; simpl; [reflexivity|].
  destruct (p x); [reflexivity | exact IH].
Qed.

Lemma sub_matches_key uid rid x :
  sub_matches uid rid x = true ->
  (Subscription.user_profile_id x, Subscription.recipient_id x) = (uid, rid).
Proof.
  unfold sub_matches. intros H. apply andb_true_iff in H as [H1 H2].
  apply Nat.eqb_eq in H1, H2. congruence.
Qed.

Lemma filter_matches_unique (l : list Subscription.t) uid rid :
  NoDup (map (fun x => (Subscription.user_profile_id x, Subscription.recipient_id x)) l) ->
  List.filter (sub_matches uid rid) l
  = match List.find (sub_matches uid rid) l with Some x => [x] | None => [] end.
Proof.
  induction l as [|x l IH]; simpl; [reflexivity|].
  rewrite NoDup_cons. intros [Hnotin Hnd].
  destruct (sub_matches uid rid x) eqn:Hx; [|now apply IH].
  f_equal. apply filter_nil_existsb. apply existsb_false_intro.
  intros y Hy. destruct (sub_matches uid rid y) eqn:Hyx; [|reflexivity].
  exfalso. apply Hnotin. apply list_elem_of_In.
  apply sub_matches_key in Hx, Hyx. rewrite Hx, <- Hyx.
  apply (in_map (fun x => (Subscription.user_profile_id x,
                           Subscription.recipient_id x))). exact Hy.
Qed.

Lemma Subscription_get_spec uid rid w :
  wf_store (db w) ->
  Subscription_get uid rid w
  = (match subscription_of (db w) uid rid with
     | Some x => Ok x
     | None => Raise DoesNotExist
     end, w).
Proof.
  intros Hwf. unfold Subscription_get, objects_get, subscription_of.
  rewrite (filter_matches_unique _ uid rid (wf_subscription_unique _ Hwf)).
  destruct (List.find _ _); reflexivity.
Qed.

Lemma find_matches_In uid rid l x :
  List.find (sub_matches uid rid) l = Some x ->
  In x l /\ sub_matches uid rid x = true.
Proof. apply find_some. Qed.

(** Saving a changed copy of the first matching row makes it the first
    matching row. *)
Lemma find_after_save (l : list Subscription.t) uid rid x b :
  List.find (sub_matches uid rid) l = Some x ->
  List.find (sub_matches uid rid)
            (map (fun y => if Subscription.id y =? Subscription.id x
                           then Subscription.set_active b x else y) l)
  = Some (Subscription.set_active b x).
Proof.
  induction l as [|y l IH]; simpl; [discriminate|].
  destruct (sub_matches uid rid y) eqn:Hy.
  - intros H. inversion H; subst y. rewrite Nat.eqb_refl.
    unfold sub_matches in *. simpl. now rewrite Hy.
  - intros Hfind. pose proof (find_matches_In _ _ _ _ Hfind) as [_ Hx].
    destruct (Subscription.id y =? Subscription.id x).
    + unfold sub_matches in *. simpl. now rewrite Hx.
    + rewrite Hy. now apply IH.
Qed.

Lemma map_id_after_save (l : list Subscription.t) (row : Subscription.t) :
  map Subscription.id
      (map (fun y => if Subscription.id y =? Subscription.id row then row else y) l)
  = map Subscription.id l.
Proof.
  induction l as [|y l IH]; simpl; [reflexivity|]. rewrite IH. f_equal.
  destruct (Nat.eqb_spec (Subscription.id y) (Subscription.id row)); congruence.
Qed.

Section SubscriptionProperties.
Context {ext : Externals}.
Variables (user_profile : UserProfile.t) (stream : Stream.t) (no_log : bool).
Variables (w : World) (recipient : Recipient.t).
Hypothesis Hwf : wf_store (db w).
Hypothesis Hrecipient :
  Recipient_get (Stream.id stream) Recipient.STREAM w = (Ok recipient, w).

Let uid := UserProfile.id user_profile.
Let rid := Recipient.id recipient.

Lemma add_first_time :
  subscription_of (db w) uid rid = None ->
  fst (do_add_subscription user_profile stream no_log w) = Ok true
  /\ subscriptions (db (snd (do_add_subscription user_profile stream no_log w)))
     = (subscriptions (db w)
        ++ [Subscription.mk (next_id (map Subscription.id (subscriptions (db w))))
                            uid rid true])%list.
Proof.
  intros Hnone. unfold do_add_subscription.
  rewrite (bind_ok _ _ _ _ _ Hrecipient). fold uid rid.
  assert (Hget : Subscription_get uid rid w = (Raise DoesNotExist, w)).
  { rewrite Subscription_get_spec by exact Hwf. now rewrite Hnone. }
  assert (Hcreate :
    Subscription_create uid rid true w
    = (Ok (Subscription.mk (next_id (map Subscription.id (subscriptions (db w))))
                           uid rid true),
       record (DbInsert TSubscription
                        (next_id (map Subscription.id (subscriptions (db w)))))
         (set_db (with_subscriptions
                    (subscriptions (db w)
                     ++ [Subscription.mk
                           (next_id (map Subscription.id (subscriptions (db w))))
                           uid rid true]) (db w)) w))).
  { unfold Subscription_create.
    replace (existsb (sub_matches uid rid) (subscriptions (db w))) with false;
      [reflexivity|].
    symmetry. apply filter_nil_existsb.
    unfold Subscription_get in Hget. inversion Hget as [Hq].
    now apply objects_get_missing_inv. }
  rewrite (bind_ok _ _ _ _ _ (get_or_create_created _ _ _ _ _ _ Hget Hcreate)).
  destruct no_log; split; reflexivity.
Qed.

Lemma add_reactivates (x : Subscription.t) :
  subscription_of (db w) uid rid = Some x ->
  Subscription.active x = false ->
  fst (do_add_subscription user_profile stream no_log w) = Ok true
  /\ subscriptions (db (snd (do_add_subscription user_profile stream no_log w)))
     = map (fun y => if Subscription.id y =? Subscription.id x
                     then Subscription.set_active true x else y)
           (subscriptions (db w)).
Proof.
  intros Hsome Hinactive. unfold do_add_subscription.
  rewrite (bind_ok _ _ _ _ _ Hrecipient). fold uid rid.
  assert (Hget : Subscription_get uid rid w = (Ok x, w)).
  { rewrite Subscription_get_spec by exact Hwf. now rewrite Hsome. }
  rewrite (bind_ok _ _ _ _ _ (get_or_create_found _ _ _ _ _ Hget)).
  rewrite Hinactive. destruct no_log; split; reflexivity.
Qed.

Lemma add_already_active (x : Subscription.t) :
  subscription_of (db w) uid rid = Some x ->
  Subscription.active x = true ->
  do_add_subscription user_profile stream no_log w = (Ok false, w).
Proof.
  intros Hsome Hactive. unfold do_add_subscription.
  rewrite (bind_ok _ _ _ _ _ Hrecipient). fold uid rid.
  assert (Hget : Subscription_get uid rid w = (Ok x, w)).
  { rewrite Subscription_get_spec by exact Hwf. now rewrite Hsome. }
  rewrite (bind_ok _ _ _ _ _ (get_or_create_found _ _ _ _ _ Hget)).
  rewrite Hactive. reflexivity.
Qed.

Lemma remove_absent :
  subscription_of (db w) uid rid = None ->
  do_remove_subscription user_profile stream no_log w = (Ok false, w).
Proof.
  intros Hnone. unfold do_remove_subscription.
  rewrite (bind_ok _ _ _ _ _ Hrecipient). fold uid rid.
  unfold Subscription_filter, bind.
  unfold subscription_of in Hnone. rewrite filter_head_find in Hnone.
  destruct (List.filter (sub_matches uid rid) (subscriptions (db w)));
    [reflexivity | discriminate].
Qed.

Lemma remove_present (x : Subscription.t) :
  subscription_of (db w) uid rid = Some x ->
  fst (do_remove_subscription user_profile stream no_log w)
  = Ok (Subscription.active x)
  /\ subscriptions (db (snd (do_remove_subscription user_profile stream no_log w)))
     = map (fun y => if Subscription.id y =? Subscription.id x
                     then Subscription.set_active false x else y)
           (subscriptions (db w))
  /\ recipients (db (snd (do_remove_subscription user_profile stream no_log w)))
     = recipients (db w).
Proof.
  intros Hsome. unfold do_remove_subscription.
  rewrite (bind_ok _ _ _ _ _ Hrecipient). fold uid rid.
  unfold subscription_of in Hsome. rewrite filter_head_find in Hsome.
  destruct (List.filter (sub_matches uid rid) (subscriptions (db w))) as [|y l] eqn:Hf;
    [discriminate|].
  inversion Hsome; subst y.
  assert (Hfilter : Subscription_filter uid rid w = (Ok (x :: l), w)).
  { unfold Subscription_filter. now rewrite Hf. }
  rewrite (bind_ok _ _ _ _ _ Hfilter).
  destruct (Subscription.active x); destruct no_log; repeat split; reflexivity.
Qed.

End SubscriptionProperties.

Lemma find_app_none {A} (p : A -> bool) (l : list A) (x : A) :
  List.find p l = None -> p x = true -> List.find p (l ++ [x]) = Some x.
Proof.
  induction l as [|y l IH]; simpl; intros Hl Hx.
  - now rewrite Hx.
  - destruct (p y); [discriminate | now apply IH].
Qed.

Lemma rows_kept_refl (s : Store) : rows_kept s s.
Proof. exists []. now rewrite app_nil_r. Qed.

Section SubscriptionLedger.
Context {ext : Externals}.

(** C6. For a stream that has its Recipient, in a store that satisfies its
    constraints: do_add_subscription returns True exactly when the user was
    not subscribed before (no row, or an inactive row) and leaves the user
    subscribed; do_remove_subscription returns False and changes nothing
    when there is no row, and otherwise makes the row inactive and returns
    whether it was active; removing twice from an active subscription
    returns True, then False.  Neither call deletes a row. *)
Theorem subscription_state_changes
    (user_profile : UserProfile.t) (stream : Stream.t) (no_log : bool)
    (w : World) (recipient : Recipient.t) :
  wf_store (db w) ->
  Recipient_get (Stream.id stream) Recipient.STREAM w = (Ok recipient, w) ->
  let uid := UserProfile.id user_profile in
  let rid := Recipient.id recipient in
  let add := do_add_subscription user_profile stream no_log w in
  let remove := do_remove_subscription user_profile stream no_log w in
  let again := do_remove_subscription user_profile stream no_log (snd remove) in
  fst add = Ok (negb (is_subscribed (db w) uid rid))
  /\ is_subscribed (db (snd add)) uid rid = true
  /\ rows_kept (db w) (db (snd add))
  /\ fst remove = Ok (is_subscribed (db w) uid rid)
  /\ (subscription_of (db w) uid rid = None -> snd remove = w)
  /\ (forall x, subscription_of (db w) uid rid = Some x ->
                subscription_of (db (snd remove)) uid rid
                = Some (Subscription.set_active false x))
  /\ rows_kept (db w) (db (snd remove))
  /\ (is_subscribed (db w) uid rid = true ->
      fst remove = Ok true /\ fst again = Ok false).
Proof.
  intros Hwf Hrecipient uid rid add remove again.
  subst uid rid.
  assert (Hmatch : sub_matches (UserProfile.id user_profile) (Recipient.id recipient)
                     (Subscription.mk (next_id (map Subscription.id
                                                    (subscriptions (db w))))
                                      (UserProfile.id user_profile)
                                      (Recipient.id recipient) true) = true).
  { unfold sub_matches. simpl. now rewrite !Nat.eqb_refl. }
  unfold is_subscribed.
  destruct (subscription_of (db w) (UserProfile.id user_profile) (Recipient.id recipient)) as [x|] eqn:Hprior.
  - (* there is a row *)
    destruct (remove_present user_profile stream no_log w recipient Hrecipient x Hprior)
      as (Hres & Hsubs & Hrecs).
    fold remove in Hres, Hsubs, Hrecs.
    assert (Hafter : subscription_of (db (snd remove)) (UserProfile.id user_profile) (Recipient.id recipient)
                     = Some (Subscription.set_active false x)).
    { unfold subscription_of. rewrite Hsubs. now apply find_after_save. }
    assert (Hkept : rows_kept (db w) (db (snd remove))).
    { exists []. rewrite Hsubs, app_nil_r.
      apply (map_id_after_save _ (Subscription.set_active false x)). }
    assert (Hadd : fst add = Ok (negb (Subscription.active x))
                   /\ match subscription_of (db (snd add)) (UserProfile.id user_profile) (Recipient.id recipient) with
                      | Some y => Subscription.active y
                      | None => false
                      end = true
                   /\ rows_kept (db w) (db (snd add))).
    { destruct (Subscription.active x) eqn:Hactive.
      - pose proof (add_already_active user_profile stream no_log w recipient
                      Hwf Hrecipient x Hprior Hactive) as Hrun.
        fold add in Hrun. rewrite Hrun. simpl. rewrite Hprior.
        split; [reflexivity | split; [exact Hactive | apply rows_kept_refl]].
      - destruct (add_reactivates user_profile stream no_log w recipient
                    Hwf Hrecipient x Hprior Hactive) as (Hr & Hs).
        fold add in Hr, Hs. split; [exact Hr | split].
        + unfold subscription_of. rewrite Hs.
          now rewrite (find_after_save _ _ _ x true Hprior).
        + exists []. rewrite Hs, app_nil_r.
          apply (map_id_after_save _ (Subscription.set_active true x)). }
    destruct Hadd as (Ha1 & Ha2 & Ha3).
    repeat (split; [assumption|]).
    split; [discriminate|].
    split; [intros y Hy; inversion Hy; now subst y|].
    split; [exact Hkept|].
    intros Hactive. split; [now rewrite Hres, Hactive|].
    assert (Hrecipient' :
      Recipient_get (Stream.id stream) Recipient.STREAM (snd remove)
      = (Ok recipient, snd remove)).
    { unfold Recipient_get in *. rewrite Hrecs.
      inversion Hrecipient as [Hq]. now rewrite Hq. }
    destruct (remove_present user_profile stream no_log (snd remove) recipient
                Hrecipient' _ Hafter) as (Hres' & _).
    exact Hres'.
  - (* there is no row *)
    pose proof (remove_absent user_profile stream no_log w recipient
                  Hrecipient Hprior) as Hrun.
    fold remove in Hrun.
    destruct (add_first_time user_profile stream no_log w recipient
                Hwf Hrecipient Hprior) as (Hr & Hs).
    fold add in Hr, Hs.
    split; [exact Hr|].
    split.
    { unfold subscription_of. rewrite Hs.
      rewrite (find_app_none _ _ _ Hprior Hmatch). reflexivity. }
    split.
    { eexists. rewrite Hs, map_app. reflexivity. }
    rewrite Hrun. simpl.
    split; [reflexivity|].
    split; [reflexivity|].
    split; [intros y Hy; discriminate|].
    split; [apply rows_kept_refl | discriminate].
Qed.

End SubscriptionLedger.

(** ** internal_send_message: oversized content is cut, not refused *)

Lemma string_length_app (a b : string) :
  String.length (a ++ b) = String.length a + String.length b.
Proof. induction a as [|c a IH]; simpl; [reflexivity | now rewrite IH]. Qed.

Lemma string_length_prefix (n : nat) (s : string) :
  String.length (substring 0 n s) = Nat.min n (String.length s).
Proof.
  revert s. induction n as [|n IH]; intros [|c s]; simpl; try reflexivity.
  now rewrite IH.
Qed.

Lemma MAX_MESSAGE_LENGTH_value : MAX_MESSAGE_LENGTH = 100 * 100.
Proof. vm_compute. reflexivity. Qed.

Lemma stored_content_oversized (content : string) :
  MAX_MESSAGE_LENGTH < String.length content ->
  stored_content content = substring 0 3900 content ++ truncation_notice
  /\ String.length (substring 0 3900 content) = 3900
  /\ String.length (stored_content content) = 3900 + String.length truncation_notice
  /\ String.length (stored_content content) < String.length content.
Proof.
  intros Hlong. unfold stored_content.
  destruct (Nat.ltb_spec MAX_MESSAGE_LENGTH (String.length content)); [|lia].
  rewrite MAX_MESSAGE_LENGTH_value in *.
  assert (Hprefix : String.length (substring 0 3900 content) = 3900).
  { rewrite string_length_prefix. lia. }
  rewrite string_length_app, Hprefix.
  assert (Hnotice : String.length truncation_notice = 47) by reflexivity.
  rewrite Hnotice. repeat split; lia.
Qed.

Lemma stored_content_idempotent (content : string) :
  stored_content (stored_content content) = stored_content content.
Proof.
  unfold stored_content at 2.
  destruct (Nat.ltb_spec MAX_MESSAGE_LENGTH (String.length content)) as [Hlong|Hshort].
  - destruct (stored_content_oversized content Hlong) as (Heq & _ & Hlen & _).
    rewrite <- Heq. unfold stored_content at 1.
    destruct (Nat.ltb_spec MAX_MESSAGE_LENGTH (String.length (stored_content content)))
      as [Hbad|]; [|reflexivity].
    rewrite Hlen, MAX_MESSAGE_LENGTH_value in Hbad.
    assert (Hnotice : String.length truncation_notice = 47) by reflexivity.
    lia.
  - unfold stored_content.
    destruct (Nat.ltb_spec MAX_MESSAGE_LENGTH (String.length content)); [lia|reflexivity].
Qed.

Lemma UserMessage_save_keeps_messages p m :
  keeps (fun w => messages (db w)) (UserMessage_save p m).
Proof. keeps_primitive UserMessage_save. Qed.

Lemma Recipient_create_keeps_messages type_id type :
  keeps (fun w => messages (db w)) (Recipient_create type_id type).
Proof. keeps_primitive Recipient_create. Qed.

Lemma Stream_create_keeps_messages realm name :
  keeps (fun w => messages (db w)) (Stream_create realm name).
Proof. keeps_primitive Stream_create. Qed.

Lemma Client_create_keeps_messages name :
  keeps (fun w => messages (db w)) (Client_create name).
Proof. keeps_primitive Client_create. Qed.

Section InternalSend.
Context {ext : Externals}.

(** A send that returns has added the message, as it was given, to the
    Message table. *)
Lemma do_send_message_persists (message : Message.t) (no_log : bool) w w' :
  Message.id message = None ->
  do_send_message message no_log w = (Ok tt, w') ->
  messages (db w')
  = (messages (db w) ++ [Message.set_id (next_message_id (db w)) message])%list.
Proof.
  intros Hid. rewrite do_send_message_steps. intros Hrun.
  apply bind_inv_ok in Hrun as ([] & w1 & Hlog & Hrun).
  pose proof (log_step_keeps db message no_log db_stable w) as Hdb1.
  rewrite Hlog in Hdb1. change (db w1 = db w) in Hdb1.
  unfold deliver in Hrun.
  apply bind_inv_ok in Hrun as (recipients & w1' & Hresolve & Hrun).
  pose proof (resolve_recipients_reads _ _ _ _ Hresolve) as ->.
  apply bind_inv_ok in Hrun as (saved & w2 & Hsave & Hnotify).
  pose proof (notify_tornado_keeps db db_stable saved recipients w2) as Hdb2.
  rewrite Hnotify in Hdb2. change (db w' = db w2) in Hdb2.
  rewrite Hdb2, <- Hdb1. clear Hdb2 Hnotify Hlog Hresolve.
  unfold save_receipts, commit_on_success in Hsave.
  match type of Hsave with context [match ?c w1 with _ => _ end] =>
    destruct (c w1) as [[m|e] w3] eqn:Hbody end; inversion Hsave; subst.
  apply bind_inv_ok in Hbody as (m & w4 & Hmsg & Hloop).
  match type of Hloop with
  | ?c w4 = _ => assert (Hk : keeps (fun w => messages (db w)) c)
  end.
  { apply keeps_bind; [|intros; apply keeps_ret].
    apply keeps_for_each. intros p.
    destruct (User.is_active _);
      [apply UserMessage_save_keeps_messages | apply keeps_ret]. }
  specialize (Hk w4). rewrite Hloop in Hk. simpl in Hk. simpl. rewrite Hk.
  unfold Message_save in Hmsg. rewrite Hid in Hmsg.
  inversion Hmsg; subst. reflexivity.
Qed.

Lemma create_stream_if_needed_keeps_messages realm name :
  keeps (fun w => messages (db w)) (create_stream_if_needed realm name).
Proof.
  unfold create_stream_if_needed.
  apply keeps_bind.
  - apply keeps_get_or_create; [apply query_keeps | apply Stream_create_keeps_messages].
  - intros [stream created]. apply keeps_bind; [|intros; apply keeps_ret].
    destruct created; [|apply keeps_ret].
    apply keeps_bind; [apply Recipient_create_keeps_messages | intros; apply keeps_ret].
Qed.

Lemma get_client_keeps_messages name :
  keeps (fun w => messages (db w)) (get_client name).
Proof.
  unfold get_client. apply (keeps_commit_on_success messages).
  apply keeps_try_except.
  - apply keeps_bind; [|intros; apply keeps_ret].
    apply keeps_get_or_create; [apply query_keeps | apply Client_create_keeps_messages].
  - apply keeps_bind; [intros w; reflexivity | intros; apply query_keeps].
Qed.

(** C4. internal_send_message stores [content] unchanged when it is at most
    10000 characters long; a longer content is stored as its first 3900
    characters followed by the truncation notice (3947 characters in all,
    fewer than the original).  The long content is not refused: the call
    is the very call that sends the cut text, and whenever it returns, the
    row it added to Message holds the stored content. *)
Theorem internal_send_message_truncates
    (sender_email : string) (recipient_type : nat) (recipient_name : string)
    (subject content : string) w :
  let run := internal_send_message sender_email recipient_type recipient_name
                                   subject content w in
  (String.length content <= MAX_MESSAGE_LENGTH -> stored_content content = content)
  /\ (MAX_MESSAGE_LENGTH < String.length content ->
      stored_content content = substring 0 3900 content ++ truncation_notice
      /\ String.length (substring 0 3900 content) = 3900
      /\ String.length (stored_content content)
         = 3900 + String.length truncation_notice
      /\ String.length (stored_content content) < String.length content)
  /\ run = internal_send_message sender_email recipient_type recipient_name
                                 subject (stored_content content) w
  /\ (fst run = Ok tt ->
      exists row, messages (db (snd run)) = (messages (db w) ++ [row])%list
                  /\ Message.content row = stored_content content).
Proof.
  intros run. split; [|split; [|split]].
  - intros Hshort. unfold stored_content.
    destruct (Nat.ltb_spec MAX_MESSAGE_LENGTH (String.length content));
      [lia | reflexivity].
  - apply stored_content_oversized.
  - subst run. unfold internal_send_message.
    fold (stored_content content). fold (stored_content (stored_content content)).
    now rewrite stored_content_idempotent.
  - subst run. unfold internal_send_message. fold (stored_content content).
    intros Hok.
    destruct (bind _ _ w) as [r w'] eqn:Hrun. simpl in Hok. subst r. simpl.
    apply bind_inv_ok in Hrun as (sender & w1 & Hsender & Hrun).
    inversion Hsender as [[Hq Hw]]. subst w1.
    apply bind_inv_ok in Hrun as (stream & w2 & Hstream & Hrun).
    pose proof (create_stream_if_needed_keeps_messages
                  (UserProfile.realm sender) recipient_name w) as Hk2.
    rewrite Hstream in Hk2. simpl in Hk2.
    apply bind_inv_ok in Hrun as (recipient & w3 & Hrecipient & Hrun).
    inversion Hrecipient as [[Hq3 Hw3]]. subst w3.
    apply bind_inv_ok in Hrun as (client & w4 & Hclient & Hrun).
    pose proof (get_client_keeps_messages "Internal" w2) as Hk4.
    rewrite Hclient in Hk4. simpl in Hk4.
    apply do_send_message_persists in Hrun; [|reflexivity].
    eexists. split; [rewrite Hrun, Hk4, Hk2; reflexivity | reflexivity].
Qed.

End InternalSend.

(** ** get_huddle: the first resolution *)

Lemma with_subscribers_nil w : with_subscribers [] w = w.
Proof.
  unfold with_subscribers. destruct w as [[] ? ? ? ?]; simpl.
  now rewrite !app_nil_r.
Qed.

Lemma with_subscribers_cons row rows w :
  with_subscribers rows (with_subscribers [row] w) = with_subscribers (row :: rows) w.
Proof.
  unfold with_subscribers. simpl. rewrite <- !app_assoc. reflexivity.
Qed.

Lemma Subscription_create_ok (uid rid : nat) w :
  (forall s, In s (subscriptions (db w)) ->
             Subscription.user_profile_id s = uid ->
             Subscription.recipient_id s <> rid) ->
  Subscription_create uid rid true w
  = (Ok (Subscription.mk (next_id (map Subscription.id (subscriptions (db w))))
                         uid rid true),
     with_subscribers
       [Subscription.mk (next_id (map Subscription.id (subscriptions (db w))))
                        uid rid true] w).
Proof.
  intros Hfresh. unfold Subscription_create.
  rewrite existsb_false_intro; [reflexivity|].
  intros s Hs. unfold sub_matches. apply andb_false_iff.
  destruct (Nat.eqb_spec (Subscription.user_profile_id s) uid) as [Heq|];
    [right | now left].
  apply Nat.eqb_neq. now apply Hfresh.
Qed.

Lemma subscribe_loop (rid : nat) (l : list nat) :
  NoDup l ->
  forall w,
    (forall uid, In uid l ->
       exists p, objects_get (fun p => UserProfile.id p =? uid) (profiles (db w)) = Ok p) ->
    (forall uid s, In uid l -> In s (subscriptions (db w)) ->
                   Subscription.user_profile_id s = uid ->
                   Subscription.recipient_id s <> rid) ->
    exists rows,
      for_each l (fun uid =>
                    user_profile <- UserProfile_get_by_id uid ;;
                    Subscription_create (UserProfile.id user_profile) rid true ;;;
                    ret tt) w
      = (Ok tt, with_subscribers rows w)
      /\ map Subscription.user_profile_id rows = l
      /\ Forall (fun s => Subscription.recipient_id s = rid
                          /\ Subscription.active s = true) rows.
Proof.
  induction l as [|uid l IH]; intros Hnd w Hprofiles Hfresh.
  - exists []. simpl. rewrite with_subscribers_nil.
    split; [reflexivity | split; [reflexivity | constructor]].
  - apply NoDup_cons in Hnd as [Hnotin Hnd]. simpl.
    destruct (Hprofiles uid (or_introl eq_refl)) as (p & Hp).
    assert (Hpid : UserProfile.id p = uid).
    { apply objects_get_ok_inv in Hp.
      assert (Hin : In p (List.filter (fun p => UserProfile.id p =? uid)
                                      (profiles (db w)))) by (rewrite Hp; now left).
      apply filter_In in Hin as [_ Hid]. now apply Nat.eqb_eq. }
    assert (Hget : UserProfile_get_by_id uid w = (Ok p, w)).
    { unfold UserProfile_get_by_id. now rewrite Hp. }
    assert (Hbody :
      (user_profile <- UserProfile_get_by_id uid ;;
       Subscription_create (UserProfile.id user_profile) rid true ;;; ret tt) w
      = (Ok tt, with_subscribers
                  [Subscription.mk (next_id (map Subscription.id
                                                 (subscriptions (db w))))
                                   uid rid true] w)).
    { rewrite (bind_ok _ _ _ _ _ Hget), Hpid.
      rewrite (bind_ok _ _ _ _ _ (Subscription_create_ok uid rid w
                 (fun s Hs => Hfresh uid s (or_introl eq_refl) Hs))).
      reflexivity. }
    rewrite (bind_ok _ _ _ _ _ Hbody).
    set (row := Subscription.mk _ uid rid true).
    destruct (IH Hnd (with_subscribers [row] w)) as (rows & Hrun & Hmap & Hall).
    { intros u Hu. apply Hprofiles. now right. }
    { intros u s Hu Hs Hsu. simpl in Hs.
      apply in_app_or in Hs as [Hs | [<- | []]].
      - apply (Hfresh u s); auto. now right.
      - simpl in Hsu. exfalso. apply Hnotin. rewrite Hsu.
        now apply list_elem_of_In. }
    exists (row :: rows). rewrite Hrun, with_subscribers_cons.
    split; [reflexivity | split].
    + simpl. now rewrite Hmap.
    + constructor; [split; reflexivity | exact Hall].
Qed.

Section HuddleCreation.
Context {ext : Externals}.

(** For a list of distinct ids of existing users, the resolution that
    creates the Huddle creates its Recipient and one active Subscription
    per member, in the order of the list. *)
Lemma get_huddle_first_resolution (id_list : list nat) w :
  NoDup id_list ->
  (forall uid, In uid id_list ->
     exists p, objects_get (fun p => UserProfile.id p =? uid) (profiles (db w)) = Ok p) ->
  List.filter (fun h => String.eqb (Huddle.huddle_hash h) (get_huddle_hash id_list))
              (huddles (db w)) = [] ->
  (forall r, In r (recipients (db w)) -> Recipient.type r = Recipient.HUDDLE ->
             In (Recipient.type_id r) (map Huddle.id (huddles (db w)))) ->
  (forall s, In s (subscriptions (db w)) ->
             In (Subscription.recipient_id s) (map Recipient.id (recipients (db w)))) ->
  let h := Huddle.mk (next_id (map Huddle.id (huddles (db w))))
                     (get_huddle_hash id_list) in
  let r := Recipient.mk (next_id (map Recipient.id (recipients (db w))))
                        (Huddle.id h) Recipient.HUDDLE in
  exists rows w',
    get_huddle id_list w = (Ok h, w')
    /\ huddles (db w') = (huddles (db w) ++ [h])%list
    /\ recipients (db w') = (recipients (db w) ++ [r])%list
    /\ subscriptions (db w') = (subscriptions (db w) ++ rows)%list
    /\ map Subscription.user_profile_id rows = id_list
    /\ Forall (fun s => Subscription.recipient_id s = Recipient.id r
                        /\ Subscription.active s = true) rows.
Proof.
  intros Hnd Hprofiles Hnew Hrfk Hsfk h r.
  set (w1 := record (DbInsert THuddle (Huddle.id h))
               (set_db (with_huddles (huddles (db w) ++ [h]) (db w)) w)).
  set (w2 := record (DbInsert TRecipient (Recipient.id r))
               (set_db (with_recipients (recipients (db w1) ++ [r]) (db w1)) w1)).
  assert (Hget : Huddle_get (get_huddle_hash id_list) w = (Raise DoesNotExist, w)).
  { unfold Huddle_get, objects_get. now rewrite Hnew. }
  assert (Hcreate : Huddle_create (get_huddle_hash id_list) w = (Ok h, w1)).
  { unfold Huddle_create.
    rewrite (proj1 (filter_nil_existsb _ _) Hnew). reflexivity. }
  assert (Hrecipient : Recipient_create (Huddle.id h) Recipient.HUDDLE w1 = (Ok r, w2)).
  { unfold Recipient_create. rewrite existsb_false_intro; [reflexivity|].
    intros r' Hr'. simpl in Hr'. apply andb_false_iff.
    destruct (Nat.eqb_spec (Recipient.type r') Recipient.HUDDLE) as [Hty|];
      [right | now left].
    apply Nat.eqb_neq. intros Heq.
    pose proof (next_id_above _ _ (Hrfk r' Hr' Hty)) as Hlt.
    simpl in Heq. lia. }
  destruct (subscribe_loop (Recipient.id r) id_list Hnd w2) as (rows & Hloop & Hmap & Hall).
  { exact Hprofiles. }
  { intros uid s _ Hs _. simpl in Hs.
    pose proof (next_id_above _ _ (Hsfk s Hs)) as Hlt. simpl. lia. }
  exists rows, (with_subscribers rows w2).
  split; [|repeat split; assumption].
  unfold get_huddle.
  rewrite (bind_ok _ _ _ _ _ (get_or_create_created _ _ _ _ _ _ Hget Hcreate)).
  cbv beta iota.
  assert (Hfill :
    (recipient <- Recipient_create (Huddle.id h) Recipient.HUDDLE ;;
     for_each id_list
       (fun uid =>
          user_profile <- UserProfile_get_by_id uid ;;
          Subscription_create (UserProfile.id user_profile)
                              (Recipient.id recipient) true ;;; ret tt)) w1
    = (Ok tt, with_subscribers rows w2)).
  { rewrite (bind_ok _ _ _ _ _ Hrecipient). exact Hloop. }
  rewrite (bind_ok _ _ _ _ _ Hfill). reflexivity.
Qed.

End HuddleCreation.

(** ** The example installation *)

Lemma example_store_wf : wf_store Demo.store.
Proof.
  constructor; simpl.
  - apply (bool_decide_unpack _). vm_compute. exact I.
  - apply (bool_decide_unpack _). vm_compute. exact I.
  - apply (bool_decide_unpack _). vm_compute. exact I.
  - apply (bool_decide_unpack _). vm_compute. exact I.
  - intros row [].
Qed.

Lemma example_user_hash_coherent : user_hash_coherent Demo.world.
Proof. intros uid p H. simpl in H. rewrite lookup_empty in H. discriminate. Qed.

Lemma stream_fanout_witness :
  length (receipts_of 1
            (db (snd (@do_send_message Demo.externals
                        (Demo.message Demo.A Demo.to_general "hello")
                        false Demo.world)))) = 2.
Proof.
  destruct (@stream_fanout Demo.externals
              (Demo.message Demo.A Demo.to_general "hello")
              false Demo.world
              example_store_wf eq_refl (or_introl eq_refl)
              ltac:(vm_compute; reflexivity))
    as (recipients & Hresolve & _ & _ & _ & _ & Hcount).
  vm_compute in Hresolve. inversion Hresolve; subst recipients.
  apply Hcount; reflexivity.
Defined.

Lemma personal_fanout_witness :
  length (receipts_of 1
            (db (snd (@do_send_message Demo.externals
                        (Demo.message Demo.A Demo.to_B "hello")
                        false Demo.world)))) = 2
  /\ length (receipts_of 1
               (db (snd (@do_send_message Demo.externals
                           (Demo.message Demo.A Demo.to_A "hello")
                           false Demo.world)))) = 1.
Proof.
  split.
  - destruct (@personal_fanout Demo.externals
                (Demo.message Demo.A Demo.to_B "hello")
                false Demo.world Demo.B Demo.A
                example_store_wf example_user_hash_coherent eq_refl eq_refl
                ltac:(vm_compute; reflexivity)
                ltac:(vm_compute; reflexivity) ltac:(vm_compute; reflexivity)
                eq_refl eq_refl)
      as (_ & _ & Hother).
    apply Hother. simpl. discriminate.
  - destruct (@personal_fanout Demo.externals
                (Demo.message Demo.A Demo.to_A "hello")
                false Demo.world Demo.A Demo.A
                example_store_wf example_user_hash_coherent eq_refl eq_refl
                ltac:(vm_compute; reflexivity)
                ltac:(vm_compute; reflexivity) ltac:(vm_compute; reflexivity)
                eq_refl eq_refl)
      as (_ & Hself & _).
    apply Hself. reflexivity.
Defined.

Lemma push_users_unfiltered_witness :
  exists request earlier,
    history (snd (@do_send_message Demo.externals
                    (Demo.message Demo.A Demo.to_general "hello")
                    false Demo.world))
    = (earlier ++ [HttpPost request])%list
    /\ nr_users request = ["1"; "2"; "3"]
    /\ map UserMessage.user_profile_id
           (receipts_of 1
              (db (snd (@do_send_message Demo.externals
                          (Demo.message Demo.A Demo.to_general "hello")
                          false Demo.world))))
       = [1; 2].
Proof.
  destruct (@push_users_unfiltered Demo.externals
              (Demo.message Demo.A Demo.to_general "hello")
              false Demo.world [Demo.A; Demo.B; Demo.C]
              example_store_wf eq_refl
              ltac:(discriminate)
              ltac:(vm_compute; reflexivity)
              ltac:(vm_compute; reflexivity))
    as (request & earlier & Hhistory & _ & Husers & Hreceivers & _).
  exists request, earlier. split; [exact Hhistory|].
  split; [exact Husers | exact Hreceivers].
Defined.

Lemma subscription_state_changes_witness :
  fst (@do_add_subscription Demo.externals Demo.D Demo.general false
         Demo.world) = Ok true
  /\ fst (@do_add_subscription Demo.externals Demo.A Demo.general false
            Demo.world) = Ok false
  /\ fst (@do_remove_subscription Demo.externals Demo.A Demo.general false
            Demo.world) = Ok true
  /\ fst (@do_remove_subscription Demo.externals Demo.A Demo.general false
            (snd (@do_remove_subscription Demo.externals Demo.A
                    Demo.general false Demo.world))) = Ok false.
Proof.
  destruct (@subscription_state_changes Demo.externals Demo.D Demo.general
              false Demo.world Demo.to_general example_store_wf eq_refl)
    as (HaddD & _).
  destruct (@subscription_state_changes Demo.externals Demo.A Demo.general
              false Demo.world Demo.to_general example_store_wf eq_refl)
    as (HaddA & _ & _ & _ & _ & _ & _ & Htwice).
  split; [exact HaddD | split; [exact HaddA|]].
  apply Htwice. reflexivity.
Defined.

(** C7, the claim as the spec words it, fails: a send with [no_log] through
    the web client, which is no "test:" client, returns, writes the message
    and its two receipts, and appends nothing to the log. *)
Lemma send_with_no_log_is_not_logged :
  let run := @do_send_message Demo.externals
               (Demo.message Demo.A Demo.to_general "hello")
               true Demo.world in
  String.prefix "test:" (Client.name Demo.website) = false
  /\ fst run = Ok tt
  /\ length (messages (db (snd run))) = 1
  /\ length (user_messages (db (snd run))) = 2
  /\ message_log (snd run) = [].
Proof. vm_compute. repeat split. Qed.

(** The same send without [no_log] is logged first, and a message from the
    "Internal" client of internal_send_message is logged like any other. *)
Example send_is_logged_first :
  let run := @do_send_message Demo.externals
               (Demo.message Demo.A Demo.to_general "hello")
               false Demo.world in
  fst run = Ok tt
  /\ map is_log_append (history (snd run))
     = [true; false; false; false; false; false].
Proof. vm_compute. split; reflexivity. Qed.

Example internal_send_is_logged :
  let run := @internal_send_message Demo.externals
               "a@example.com" Recipient.STREAM "general" "hi" "hello"
               Demo.world in
  fst run = Ok tt /\ length (message_log (snd run)) = 1.
Proof. vm_compute. split; reflexivity. Qed.

(** An oversized message is sent, cut to 3947 characters. *)
Example internal_send_oversized :
  let content := String.concat "" (repeat "x" 10001) in
  let run := @internal_send_message Demo.externals
               "a@example.com" Recipient.STREAM "general" "hi" content
               Demo.world in
  fst run = Ok tt
  /\ map (fun m => String.length (Message.content m)) (messages (db (snd run)))
     = [3947].
Proof. vm_compute. split; reflexivity. Qed.

(** C5, where the code falls short of it.  get_huddle subscribes the
    members by walking the list it was given, not the de-duplicated one it
    hashed: resolving [1, 1, 2, 3] for the first time creates the Huddle,
    its Recipient and the Subscription of user 1, then raises
    IntegrityError on the second 1.  The next resolution of the same set
    finds the Huddle and adds nothing, so users 2 and 3 stay unsubscribed. *)
Theorem get_huddle_duplicate_ids :
  let first := @get_huddle Demo.externals [1; 1; 2; 3] Demo.world in
  let second := @get_huddle Demo.externals [1; 2; 3] (snd first) in
  fst first = Raise IntegrityError
  /\ huddles (db (snd first)) = [Huddle.mk 1 "sha1:1,2,3"]
  /\ List.filter (fun r => Recipient.type r =? Recipient.HUDDLE)
                 (recipients (db (snd first)))
     = [Recipient.mk 6 1 Recipient.HUDDLE]
  /\ List.filter (fun s => Subscription.recipient_id s =? 6)
                 (subscriptions (db (snd first)))
     = [Subscription.mk 8 1 6 true]
  /\ fst second = Ok (Huddle.mk 1 "sha1:1,2,3")
  /\ db (snd second) = db (snd first).
Proof. vm_compute. repeat split. Qed.

(** Without the repetition the same first resolution succeeds. *)
Example get_huddle_distinct_ids :
  let first := @get_huddle Demo.externals [3; 1; 2] Demo.world in
  fst first = Ok (Huddle.mk 1 "sha1:1,2,3")
  /\ List.filter (fun s => Subscription.recipient_id s =? 6)
                 (subscriptions (db (snd first)))
     = [Subscription.mk 8 3 6 true; Subscription.mk 9 1 6 true;
        Subscription.mk 10 2 6 true].
Proof. vm_compute. split; reflexivity. Qed.

(** ** The constraints survive a send *)

Section Invariant.
Context {ext : Externals}.

Lemma with_delivery_wf (message : Message.t) (rows : list UserMessage.t) w :
  wf_store (db w) ->
  Forall (fun row => UserMessage.message_id row = next_message_id (db w)) rows ->
  wf_store (db (with_delivery message rows w)).
Proof.
  intros [Hpk Hru Hspk Hsu Hfk] Hall. constructor; simpl; try assumption.
  intros row Hrow. apply in_app_or in Hrow as [Hold | Hnew].
  - destruct (Hfk row Hold) as (m & Hm & Hid).
    exists m. split; [apply in_or_app; now left | exact Hid].
  - exists (Message.set_id (next_message_id (db w)) message). split.
    + apply in_or_app. right. now left.
    + simpl. f_equal. symmetry.
      rewrite Forall_forall in Hall. apply Hall. now apply list_elem_of_In.
Qed.

Lemma do_send_message_keeps_wf (message : Message.t) (no_log : bool) w :
  wf_store (db w) ->
  Message.id message = None ->
  wf_store (db (snd (do_send_message message no_log w))).
Proof.
  intros Hwf Hid. rewrite do_send_message_steps. unfold bind at 1.
  pose proof (log_step_keeps db message no_log db_stable w) as Hdb1.
  destruct (log_step message no_log w) as [[[]|e] w1];
    change (db w1 = db w) in Hdb1; [|simpl; now rewrite Hdb1].
  unfold deliver, bind at 1.
  destruct (resolve_recipients message w1) as [[recipients|e] w1'] eqn:Hresolve;
    pose proof (resolve_recipients_reads _ _ _ _ Hresolve) as ->;
    [|simpl; now rewrite Hdb1].
  rewrite <- Hdb1 in Hwf.
  destruct (save_receipts_unsent message recipients w1 Hid) as (rows & Hsave & _ & Hall).
  { eapply resolve_recipients_NoDup; eassumption. }
  { apply (wf_user_message_fk _ Hwf). }
  rewrite (bind_ok _ _ _ _ _ Hsave).
  rewrite (notify_tornado_keeps db db_stable).
  now apply with_delivery_wf.
Qed.

End Invariant.

(** ** More runs of the example installation *)

(** do_send_message itself stores the content it is given. *)
Example do_send_message_stores_content_as_given :
  let content := String.concat "" (repeat "x" 10001) in
  let run := @do_send_message Demo.externals
               (Demo.message Demo.A Demo.to_general content) true Demo.world in
  fst run = Ok tt
  /\ map (fun m => String.length (Message.content m)) (messages (db (snd run)))
     = [10001].
Proof. vm_compute. split; reflexivity. Qed.

(** A recipient of type 7: KeyError when the message is logged first,
    ValueError otherwise, and the world is as before. *)
Example bad_recipient_type :
  let message := Demo.message Demo.A (Recipient.mk 9 1 7) "hello" in
  @do_send_message Demo.externals message false Demo.world
  = (Raise KeyError, Demo.world)
  /\ @do_send_message Demo.externals message true Demo.world
     = (Raise (ValueError "Bad recipient type"), Demo.world).
Proof. split; reflexivity. Qed.

(** A message from a "test:" client is delivered and leaves the log alone. *)
Example test_client_is_not_logged :
  let message :=
    Message.mk None Demo.A Demo.to_general "hi" "hello" 1350000000%Z
               Demo.populate_db None in
  let run := @do_send_message Demo.externals message false Demo.world in
  fst run = Ok tt
  /\ message_log (snd run) = []
  /\ length (user_messages (db (snd run))) = 2.
Proof. vm_compute. repeat split. Qed.

(** * Further properties *)

(** ** linebreak *)

Lemma occurs_app (c : ascii) (a b : string) :
  occurs c (a ++ b) = occurs c a || occurs c b.
Proof.
  induction a as [|x a IH]; simpl; [reflexivity|].
  now rewrite IH, orb_assoc.
Qed.

Lemma prefix_head (c a : ascii) (rest s : string) :
  String.prefix (String c rest) (String a s) = true -> a = c.
Proof.
  simpl. destruct (ascii_dec c a) as [->|]; [reflexivity | discriminate].
Qed.

Lemma prefix_one (c a : ascii) (s : string) :
  String.prefix (String c EmptyString) (String a s) = Ascii.eqb a c.
Proof.
  cbn [String.prefix]. destruct (ascii_dec c a) as [Heq|Hne].
  - subst a. rewrite Ascii.eqb_refl. now destruct s.
  - symmetry. apply Ascii.eqb_neq. congruence.
Qed.

(** Replacing a one-character string leaves no occurrence of the
    character, when the replacement has none. *)
Lemma replace_char_gone (c : ascii) (new s : string) :
  occurs c new = false ->
  occurs c (replace (String c EmptyString) new s) = false.
Proof.
  intros Hnew. unfold replace. induction s as [|a s IH]; [reflexivity|].
  cbn [replace_from]. rewrite prefix_one.
  destruct (Ascii.eqb a c) eqn:Hac.
  - simpl String.length. simpl Nat.sub. rewrite occurs_app, Hnew. exact IH.
  - simpl. now rewrite Hac.
Qed.

(** Replacing a string whose first character does not occur changes
    nothing. *)
Lemma replace_absent (c : ascii) (rest new s : string) :
  occurs c s = false -> replace (String c rest) new s = s.
Proof.
  unfold replace. induction s as [|a s IH]; [reflexivity|].
  simpl occurs. intros Hocc. apply orb_false_iff in Hocc as [Hac Hs].
  cbn [replace_from].
  destruct (String.prefix (String c rest) (String a s)) eqn:Hp.
  - apply prefix_head in Hp. subst a. now rewrite Ascii.eqb_refl in Hac.
  - now rewrite IH.
Qed.

(** X1. linebreak(s) holds no line feed, whatever [s] is: every one is
    part of a "<p/>" or has become a "<br/>". *)
Theorem linebreak_no_newline (s : string) : occurs LF (linebreak s) = false.
Proof.
  unfold linebreak, newline. fold LF. now apply replace_char_gone.
Qed.

(** X2. A string without a line feed is returned as it is. *)
Theorem linebreak_single_line (s : string) :
  occurs LF s = false -> linebreak s = s.
Proof.
  intros Hs. unfold linebreak, newline. fold LF.
  change (String LF EmptyString ++ String LF EmptyString)
    with (String LF (String LF EmptyString)).
  rewrite (replace_absent LF _ _ s Hs). now apply replace_absent.
Qed.

Lemma linebreak_single_line_witness :
  occurs LF "no line feed here" = false
  /\ linebreak "no line feed here" = "no line feed here".
Proof.
  split; [reflexivity|].
  apply (linebreak_single_line "no line feed here"). reflexivity.
Defined.

(** ** Idempotent creation: create_stream_if_needed and get_client *)

Lemma filter_unique {A K} (key : A -> K) (p : A -> bool) (k : K) (l : list A) :
  NoDup (map key l) ->
  (forall x, p x = true -> key x = k) ->
  List.filter p l = match List.find p l with Some x => [x] | None => [] end.
Proof.
  intros Hnd Hkey. induction l as [|x l IH]; simpl; [reflexivity|].
  simpl in Hnd. apply NoDup_cons in Hnd as [Hnotin Hnd].
  destruct (p x) eqn:Hx; [|now apply IH].
  f_equal. apply filter_nil_existsb. apply existsb_false_intro.
  intros y Hy. destruct (p y) eqn:Hpy; [|reflexivity].
  exfalso. apply Hnotin. apply list_elem_of_In.
  rewrite (Hkey x Hx), <- (Hkey y Hpy). now apply in_map.
Qed.

Lemma Recipient_create_keeps_streams type_id type :
  keeps (fun w => streams (db w)) (Recipient_create type_id type).
Proof. keeps_primitive Recipient_create. Qed.

Lemma same_stream_self realm name n :
  same_stream realm name (Stream.mk n name realm) = true.
Proof.
  unfold same_stream. simpl. now rewrite Nat.eqb_refl, String.eqb_refl.
Qed.

Section IdempotentCreation.
Context {ext : Externals}.

Lemma create_stream_if_needed_found realm name w stream :
  List.filter (same_stream realm name) (streams (db w)) = [stream] ->
  create_stream_if_needed realm name w = (Ok stream, w).
Proof.
  intros Hone. unfold create_stream_if_needed.
  assert (Hget : Stream_get_iexact realm name w = (Ok stream, w)).
  { unfold Stream_get_iexact. fold (same_stream realm name).
    now rewrite (objects_get_one _ _ _ Hone). }
  rewrite (bind_ok _ _ _ _ _ (get_or_create_found _ _ _ _ _ Hget)).
  reflexivity.
Qed.

Lemma create_stream_if_needed_one realm name w stream w' :
  create_stream_if_needed realm name w = (Ok stream, w') ->
  List.filter (same_stream realm name) (streams (db w')) = [stream].
Proof.
  unfold create_stream_if_needed. intros Hrun.
  apply bind_inv_ok in Hrun as ([s created] & w1 & Hgoc & Hrest).
  apply bind_inv_ok in Hrest as ([] & w2 & Hfill & Hret).
  inversion Hret; subst s w2; clear Hret.
  assert (Hone : List.filter (same_stream realm name) (streams (db w1)) = [stream]).
  { apply get_or_create_inv_ok in Hgoc as [[_ Hget] | [[_ Hmk] | [_ Hrace]]].
    - unfold Stream_get_iexact in Hget. inversion Hget; subst.
      now apply objects_get_ok_inv.
    - destruct Hmk as (w0 & Hget & Hcreate).
      unfold Stream_get_iexact in Hget. inversion Hget as [[Hq Hw]]. subst w0.
      apply objects_get_missing_inv in Hq.
      unfold Stream_create in Hcreate.
      destruct (existsb _ (streams (db w))); [discriminate|].
      inversion Hcreate; subst; simpl.
      apply filter_app_one; [exact Hq | apply same_stream_self].
    - destruct Hrace as (w0 & w0' & Hget & Hcreate & Hget').
      unfold Stream_get_iexact in Hget. inversion Hget as [[Hq Hw]]. subst w0.
      unfold Stream_create in Hcreate.
      destruct (existsb _ (streams (db w))); [|discriminate].
      inversion Hcreate; subst w0'.
      unfold Stream_get_iexact in Hget'. congruence. }
  assert (Hsame : streams (db w') = streams (db w1)).
  { match type of Hfill with
    | ?c w1 = _ => assert (Hk : keeps (fun w => streams (db w)) c)
    end.
    { destruct created; [|apply keeps_ret].
      apply keeps_bind; [apply Recipient_create_keeps_streams|].
      intros; apply keeps_ret. }
    specialize (Hk w1). now rewrite Hfill in Hk. }
  now rewrite Hsame.
Qed.

(** X3. Once create_stream_if_needed has returned a stream for a realm and
    a name, the stream is of that realm and has that name up to case, and
    every later call for the realm with a name that differs in case only
    returns the same stream and changes nothing. *)
Theorem create_stream_if_needed_idempotent realm name w stream w' :
  create_stream_if_needed realm name w = (Ok stream, w') ->
  Realm.id (Stream.realm stream) = Realm.id realm
  /\ lower (Stream.name stream) = lower name
  /\ forall name', lower name' = lower name ->
                   create_stream_if_needed realm name' w' = (Ok stream, w').
Proof.
  intros Hrun. apply create_stream_if_needed_one in Hrun.
  assert (Hin : In stream (List.filter (same_stream realm name) (streams (db w'))))
    by (rewrite Hrun; now left).
  apply filter_In in Hin as [_ Hmatch]. unfold same_stream in Hmatch.
  apply andb_true_iff in Hmatch as [Hrealm Hname].
  apply Nat.eqb_eq in Hrealm. apply String.eqb_eq in Hname.
  split; [exact Hrealm | split; [exact Hname|]].
  intros name' Hcase. apply create_stream_if_needed_found.
  unfold same_stream in *. now rewrite Hcase.
Qed.

(** X4. For a name no stream of the realm has, even up to case, and when
    every STREAM recipient belongs to a stream of the table:
    create_stream_if_needed adds one stream, with the name as given, and
    one STREAM Recipient for it, and touches nothing else; the Recipient is
    then the one found for the stream. *)
Theorem create_stream_if_needed_creates realm name w :
  List.filter (same_stream realm name) (streams (db w)) = [] ->
  (forall r, In r (recipients (db w)) -> Recipient.type r = Recipient.STREAM ->
             In (Recipient.type_id r) (map Stream.id (streams (db w)))) ->
  let stream := Stream.mk (next_id (map Stream.id (streams (db w)))) name realm in
  let recipient := Recipient.mk (next_id (map Recipient.id (recipients (db w))))
                                (Stream.id stream) Recipient.STREAM in
  exists w',
    create_stream_if_needed realm name w = (Ok stream, w')
    /\ db w' = with_recipients (recipients (db w) ++ [recipient])
                 (with_streams (streams (db w) ++ [stream]) (db w))
    /\ Recipient_get (Stream.id stream) Recipient.STREAM w' = (Ok recipient, w').
Proof.
  intros Hnew Hfk stream recipient.
  set (w1 := record (DbInsert TStream (Stream.id stream))
               (set_db (with_streams (streams (db w) ++ [stream]) (db w)) w)).
  set (w2 := record (DbInsert TRecipient (Recipient.id recipient))
               (set_db (with_recipients (recipients (db w1) ++ [recipient]) (db w1)) w1)).
  assert (Hget : Stream_get_iexact realm name w = (Raise DoesNotExist, w)).
  { unfold Stream_get_iexact, objects_get. fold (same_stream realm name).
    now rewrite Hnew. }
  assert (Hcreate : Stream_create realm name w = (Ok stream, w1)).
  { unfold Stream_create. rewrite existsb_false_intro; [reflexivity|].
    intros x Hx. destruct (String.eqb (Stream.name x) name
                           && (Realm.id (Stream.realm x) =? Realm.id realm)) eqn:Hexact;
      [|reflexivity].
    exfalso. apply andb_true_iff in Hexact as [Hn Hr]. apply String.eqb_eq in Hn.
    assert (Hin : In x (List.filter (same_stream realm name) (streams (db w)))).
    { apply filter_In. split; [exact Hx|]. unfold same_stream.
      now rewrite Hr, Hn, String.eqb_refl. }
    now rewrite Hnew in Hin. }
  assert (Hold : List.filter
                   (fun r => (Recipient.type_id r =? Stream.id stream)
                             && (Recipient.type r =? Recipient.STREAM))
                   (recipients (db w)) = []).
  { apply filter_nil_existsb. apply existsb_false_intro. intros r Hr.
    apply andb_false_iff.
    destruct (Nat.eqb_spec (Recipient.type r) Recipient.STREAM) as [Hty|];
      [left | now right].
    apply Nat.eqb_neq. intros Heq.
    pose proof (next_id_above _ _ (Hfk r Hr Hty)) as Hlt. simpl in Heq. lia. }
  assert (Hrecipient :
    Recipient_create (Stream.id stream) Recipient.STREAM w1 = (Ok recipient, w2)).
  { unfold Recipient_create. rewrite existsb_false_intro; [reflexivity|].
    intros r Hr. simpl in Hr.
    apply filter_nil_existsb in Hold.
    rewrite andb_comm.
    destruct ((Recipient.type_id r =? Stream.id stream)
              && (Recipient.type r =? Recipient.STREAM)) eqn:Hm; [|reflexivity].
    exfalso.
    assert (Hex : existsb (fun r => (Recipient.type_id r =? Stream.id stream)
                                    && (Recipient.type r =? Recipient.STREAM))
                          (recipients (db w)) = true).
    { apply existsb_exists. eauto. }
    congruence. }
  exists w2. split; [|split].
  - unfold create_stream_if_needed.
    rewrite (bind_ok _ _ _ _ _ (get_or_create_created _ _ _ _ _ _ Hget Hcreate)).
    cbv beta iota.
    assert (Hfill : (Recipient_create (Stream.id stream) Recipient.STREAM ;;; ret tt) w1
                    = (Ok tt, w2)).
    { now rewrite (bind_ok _ _ _ _ _ Hrecipient). }
    rewrite (bind_ok _ _ _ _ _ Hfill). reflexivity.
  - reflexivity.
  - unfold Recipient_get. simpl recipients.
    rewrite (objects_get_one _ _ recipient); [reflexivity|].
    apply filter_app_one; [exact Hold|]. simpl. now rewrite !Nat.eqb_refl.
Qed.

Lemma get_client_found name w c :
  Client_get name w = (Ok c, w) -> get_client name w = (Ok c, record DbCommit w).
Proof.
  intros Hget. unfold get_client, commit_on_success, try_except.
  rewrite (bind_ok _ _ _ _ _ (get_or_create_found _ _ _ _ _ Hget)).
  reflexivity.
Qed.

(** X5. With client names unique, get_client(name) returns a client of that
    name, creating it (and nothing else) only when there is none; names
    stay unique, and a second call returns the same client and leaves the
    store as it is. *)
Theorem get_client_idempotent name w :
  NoDup (map Client.name (clients (db w))) ->
  exists c w',
    get_client name w = (Ok c, w')
    /\ Client.name c = name
    /\ db w' = (if existsb (fun x => String.eqb (Client.name x) name) (clients (db w))
                then db w
                else with_clients (clients (db w) ++ [c]) (db w))
    /\ NoDup (map Client.name (clients (db w')))
    /\ fst (get_client name w') = Ok c
    /\ db (snd (get_client name w')) = db w'.
Proof.
  intros Hnd.
  set (p := fun x => String.eqb (Client.name x) name).
  assert (Hkey : forall x, p x = true -> Client.name x = name)
    by (intros x Hx; now apply String.eqb_eq).
  pose proof (filter_unique Client.name p name _ Hnd Hkey) as Hfilter.
  destruct (List.find p (clients (db w))) as [c|] eqn:Hfind.
  - (* the client exists *)
    apply find_some in Hfind as [Hin Hpc].
    assert (Hget : Client_get name w = (Ok c, w)).
    { unfold Client_get. fold p. now rewrite (objects_get_one _ _ _ Hfilter). }
    assert (Hex : existsb p (clients (db w)) = true)
      by (apply existsb_exists; eauto).
    exists c, (record DbCommit w).
    rewrite (get_client_found name w c Hget). fold p. rewrite Hex.
    split; [reflexivity | split; [now apply Hkey|]].
    split; [reflexivity | split; [exact Hnd|]].
    assert (Hget' : Client_get name (record DbCommit w) = (Ok c, record DbCommit w)).
    { unfold Client_get in *. simpl. inversion Hget as [Hq]. now rewrite Hq. }
    rewrite (get_client_found name _ c Hget'). split; reflexivity.
  - (* the client is created *)
    set (c := Client.mk (next_id (map Client.id (clients (db w)))) name).
    set (w1 := record (DbInsert TClient (Client.id c))
                 (set_db (with_clients (clients (db w) ++ [c]) (db w)) w)).
    assert (Hex : existsb p (clients (db w)) = false)
      by now apply filter_nil_existsb.
    assert (Hget : Client_get name w = (Raise DoesNotExist, w)).
    { unfold Client_get, objects_get. fold p. now rewrite Hfilter. }
    assert (Hcreate : Client_create name w = (Ok c, w1)).
    { unfold Client_create. fold p. now rewrite Hex. }
    assert (Hrun : get_client name w = (Ok c, record DbCommit w1)).
    { unfold get_client, commit_on_success, try_except.
      rewrite (bind_ok _ _ _ _ _ (get_or_create_created _ _ _ _ _ _ Hget Hcreate)).
      reflexivity. }
    exists c, (record DbCommit w1). rewrite Hrun. fold p. rewrite Hex.
    split; [reflexivity | split; [reflexivity|]].
    split; [reflexivity|].
    assert (Hnd' : NoDup (map Client.name (clients (db w) ++ [c]))).
    { rewrite map_app. apply NoDup_app. split; [exact Hnd | split].
      - intros n Hn Hn'. apply list_elem_of_In in Hn, Hn'.
        destruct Hn' as [<- | []]. apply in_map_iff in Hn as (x & Hx & Hin).
        assert (Hpx : p x = true) by (unfold p; rewrite Hx; apply String.eqb_refl).
        assert (Htrue : existsb p (clients (db w)) = true)
          by (apply existsb_exists; eauto).
        congruence.
      - apply NoDup_singleton. }
    split; [exact Hnd'|].
    assert (Hget' : Client_get name (record DbCommit w1) = (Ok c, record DbCommit w1)).
    { unfold Client_get. simpl clients. fold p.
      rewrite (objects_get_one _ _ c); [reflexivity|].
      apply filter_app_one; [exact Hfilter|]. unfold p. simpl. apply String.eqb_refl. }
    rewrite (get_client_found name _ c Hget'). split; reflexivity.
Qed.

End IdempotentCreation.

(** ** do_send_message: what a failure leaves behind *)

Lemma emits_weaken {A} (P Q : Effect -> Prop) (c : M A) :
  (forall e, P e -> Q e) -> emits P c -> emits Q c.
Proof.
  intros HPQ Hc w. destruct (Hc w) as (new & Hnew & Hall).
  exists new. split; [exact Hnew|]. eapply Forall_impl; eassumption.
Qed.

Lemma commit_on_success_raise {A} (body : M A) w e w' :
  commit_on_success body w = (Raise e, w') -> db w' = db w.
Proof.
  unfold commit_on_success. destruct (body w) as [[a|e0] w1]; intros H;
    inversion H; reflexivity.
Qed.

Section SendFailures.
Context {ext : Externals}.

Lemma notify_tornado_unset (m : Message.t) (recipients : list UserProfile.t) w :
  TORNADO_SERVER = "" -> notify_tornado m recipients w = (Ok tt, w).
Proof. intros Hoff. unfold notify_tornado. now rewrite Hoff. Qed.

(** X6. A send that raises leaves the store exactly as it found it, the
    Message row included, unless the exception comes from the notification,
    which runs after the commit; with no gateway configured every send that
    raises leaves the store unchanged. *)
Theorem do_send_message_all_or_nothing (message : Message.t) (no_log : bool) w e :
  fst (do_send_message message no_log w) = Raise e ->
  db (snd (do_send_message message no_log w)) = db w
  \/ (TORNADO_SERVER <> ""
      /\ exists recipients saved w1 w2,
           save_receipts message recipients w1 = (Ok saved, w2)
           /\ notify_tornado saved recipients w2
              = (Raise e, snd (do_send_message message no_log w))).
Proof.
  destruct (do_send_message message no_log w) as [r w'] eqn:Hrun.
  simpl. intros ->. rewrite do_send_message_steps in Hrun.
  apply bind_inv_raise in Hrun as [Hlog | ([] & w1 & Hlog & Hrun)].
  { left. pose proof (log_step_keeps db message no_log db_stable w) as Hk.
    now rewrite Hlog in Hk. }
  assert (Hdb1 : db w1 = db w).
  { pose proof (log_step_keeps db message no_log db_stable w) as Hk.
    now rewrite Hlog in Hk. }
  unfold deliver in Hrun.
  apply bind_inv_raise in Hrun as [Hresolve | (recipients & w1' & Hresolve & Hrun)].
  { left. now rewrite (resolve_recipients_reads _ _ _ _ Hresolve). }
  pose proof (resolve_recipients_reads _ _ _ _ Hresolve) as ->.
  apply bind_inv_raise in Hrun as [Hsave | (saved & w2 & Hsave & Hnotify)].
  { left. unfold save_receipts in Hsave. apply commit_on_success_raise in Hsave.
    now rewrite Hsave. }
  right. destruct (String.eqb_spec TORNADO_SERVER "") as [Hoff|Hon].
  - rewrite (notify_tornado_unset saved recipients w2 Hoff) in Hnotify.
    discriminate.
  - split; [exact Hon|]. exists recipients, saved, w1, w2. auto.
Qed.

(** X7. The constraints of the store (primary keys, unique_together, the
    foreign key of UserMessage) hold after every send of an unsent message,
    whether it returns or raises. *)
Theorem do_send_message_keeps_constraints (message : Message.t) (no_log : bool) w :
  wf_store (db w) ->
  Message.id message = None ->
  wf_store (db (snd (do_send_message message no_log w))).
Proof. apply do_send_message_keeps_wf. Qed.

End SendFailures.

(** ** do_send_message: the order of its effects, and the post *)

Lemma posted_app_history (w : World) (new : list Effect) (w' : World) :
  history w' = (history w ++ new)%list ->
  posted w'
  = (posted w
     ++ flat_map (fun e => match e with HttpPost r => [r] | _ => [] end) new)%list.
Proof. intros H. unfold posted. now rewrite H, flat_map_app. Qed.

Lemma no_posts (new : list Effect) :
  Forall (fun e => is_http_post e = false) new ->
  flat_map (fun e => match e with HttpPost r => [r] | _ => [] end) new = [].
Proof.
  induction 1 as [|e new He _ IH]; simpl; [reflexivity|].
  rewrite IH. destruct e; try reflexivity. discriminate.
Qed.

Section SendOrder.
Context {ext : Externals}.

Lemma log_step_history (message : Message.t) (no_log : bool) w :
  history (snd (log_step message no_log w)) = history w
  \/ exists event,
       history (snd (log_step message no_log w))
       = (history w ++ [LogAppend event])%list.
Proof.
  destruct (no_log || String.prefix "test:"
                        (Client.name (Message.sending_client message))) eqn:Hex.
  - left. now rewrite (log_step_exempt message no_log w Hex).
  - pose proof (to_log_dict_keeps history history_cache_free message w) as Hk.
    destruct (to_log_dict message w) as [[event|e] w0] eqn:Hdict;
      change (history w0 = history w) in Hk.
    + right. exists event.
      rewrite (log_step_logged message no_log w event w0 Hex Hdict).
      simpl. now rewrite Hk.
    + left. rewrite (log_step_failed message no_log w e w0 Hex Hdict).
      exact Hk.
Qed.

Lemma resolve_recipients_at (message : Message.t) w w1 recipients :
  db w1 = db w -> user_hash w1 = user_hash w ->
  resolve_recipients message w = (Ok recipients, w) ->
  resolve_recipients message w1 = (Ok recipients, w1).
Proof.
  intros Hdb Hhash Hresolve.
  pose proof (resolve_recipients_depends message w w1 Hdb Hhash) as Hdep.
  destruct (resolve_recipients message w1) as [r1 w1'] eqn:Hr1.
  pose proof (resolve_recipients_reads _ _ _ _ Hr1) as ->.
  rewrite Hresolve in Hdep. simpl in Hdep. now subst r1.
Qed.

(** X8. A send that returns with the gateway configured has done its work
    in this order: the log line if any, the Message row, the UserMessage
    rows one by one, the commit, and only then the POST. *)
Theorem do_send_message_effect_order (message : Message.t) (no_log : bool)
    w (recipients : list UserProfile.t) :
  wf_store (db w) ->
  Message.id message = None ->
  TORNADO_SERVER <> "" ->
  resolve_recipients message w = (Ok recipients, w) ->
  fst (do_send_message message no_log w) = Ok tt ->
  let mid := next_message_id (db w) in
  let w' := snd (do_send_message message no_log w) in
  exists logged request,
    history w'
    = (history w ++ logged
       ++ DbInsert TMessage mid
          :: map (fun r => DbInsert TUserMessage (UserMessage.id r))
                 (receipts_of mid (db w'))
       ++ [DbCommit; HttpPost request])%list
    /\ (logged = [] \/ exists event, logged = [LogAppend event]).
Proof.
  intros Hwf Hid Hon Hresolve Hok mid w'. subst w'.
  pose proof (log_step_history message no_log w) as Hhist.
  pose proof (log_step_keeps db message no_log db_stable w) as Hdb.
  pose proof (log_step_keeps user_hash message no_log user_hash_stable w) as Hhash.
  assert (Hlog : exists w1, log_step message no_log w = (Ok tt, w1)).
  { revert Hok. rewrite do_send_message_steps. unfold bind at 1.
    destruct (log_step message no_log w) as [[[]|e] w1]; simpl;
      [eauto | discriminate]. }
  destruct Hlog as (w1 & Hlog). rewrite Hlog in Hhist, Hdb, Hhash.
  change (db w1 = db w) in Hdb. change (user_hash w1 = user_hash w) in Hhash.
  simpl in Hhist.
  pose proof (resolve_recipients_at message w w1 recipients Hdb Hhash Hresolve)
    as Hresolve1.
  destruct (do_send_message_delivery message no_log w w1 recipients
              Hwf Hid Hlog Hresolve1) as (rows & Hrun & _ & Hreceipts & _).
  rewrite Hrun in Hok |- *.
  destruct (notify_tornado _ recipients (with_delivery message rows w1))
    as [r w2] eqn:Hnotify.
  simpl in Hok. subst r. simpl.
  pose proof (notify_tornado_keeps db db_stable
                (Message.set_id (next_message_id (db w)) message) recipients
                (with_delivery message rows w1)) as Hkeep.
  rewrite Hnotify in Hkeep.
  change (db w2 = db (with_delivery message rows w1)) in Hkeep.
  apply notify_tornado_posts in Hnotify as (request & Hpost & _ & _);
    [|exact Hon].
  rewrite Hkeep. fold mid in Hreceipts. rewrite Hreceipts.
  rewrite Hpost, with_delivery_history, Hdb. fold mid.
  destruct Hhist as [Hsame | (event & Hone)].
  - exists [], request. split; [|now left].
    rewrite Hsame. rewrite <- ?app_assoc. simpl. rewrite <- ?app_assoc. reflexivity.
  - exists [LogAppend event], request. split; [|right; eauto].
    rewrite Hone. rewrite <- ?app_assoc. simpl. rewrite <- ?app_assoc. reflexivity.
Qed.

Lemma log_step_no_post (message : Message.t) (no_log : bool) :
  emits (fun e => is_http_post e = false) (log_step message no_log).
Proof.
  intros w. destruct (log_step_history message no_log w) as [Hsame | (event & Hone)].
  - exists []. rewrite Hsame, app_nil_r. split; [reflexivity | constructor].
  - exists [LogAppend event]. split; [exact Hone|].
    constructor; [reflexivity | constructor].
Qed.

Lemma save_receipts_no_post (m : Message.t) (recipients : list UserProfile.t) :
  emits (fun e => is_http_post e = false) (save_receipts m recipients).
Proof.
  unfold save_receipts. apply emits_commit_on_success; [reflexivity..|].
  apply emits_bind.
  - intros w. destruct (Message_save_emits m w) as (e & He & Hw).
    exists [e]. split; [exact He|]. constructor; [|constructor].
    destruct e; try reflexivity. discriminate.
  - intros saved. apply emits_bind; [|intros; apply emits_ret].
    apply emits_for_each. intros p.
    destruct (User.is_active _); [|apply emits_ret].
    intros w. unfold UserMessage_save. destruct (Message.id saved) as [n|].
    + destruct (existsb _ _).
      * exists []. simpl. rewrite app_nil_r. split; [reflexivity | constructor].
      * eexists [_]. split; [reflexivity|].
        constructor; [reflexivity | constructor].
    + exists []. simpl. rewrite app_nil_r. split; [reflexivity | constructor].
Qed.

Lemma notify_tornado_history (m : Message.t) (recipients : list UserProfile.t) w :
  history (snd (notify_tornado m recipients w)) = history w
  \/ (TORNADO_SERVER <> ""
      /\ exists request,
           history (snd (notify_tornado m recipients w))
           = (history w ++ [HttpPost request])%list).
Proof.
  unfold notify_tornado.
  destruct (String.eqb_spec TORNADO_SERVER "") as [Hoff|Hon]; simpl; [now left|].
  pose proof (to_dict_keeps history history_cache_free m true w) as H1.
  destruct (to_dict m true w) as [[html|e] w1] eqn:E1;
    change (history w1 = history w) in H1.
  2:{ left. now rewrite (bind_raise _ _ _ _ _ E1). }
  rewrite (bind_ok _ _ _ _ _ E1).
  pose proof (to_dict_keeps history history_cache_free m false w1) as H2.
  destruct (to_dict m false w1) as [[markdown|e] w2] eqn:E2;
    change (history w2 = history w1) in H2.
  2:{ left. rewrite (bind_raise _ _ _ _ _ E2). simpl. congruence. }
  rewrite (bind_ok _ _ _ _ _ E2).
  right. split; [exact Hon|].
  exists (mkNotify (TORNADO_SERVER ++ "/notify_new_message") SHARED_SECRET
                   (Message.id m) (html, markdown)
                   (map (fun user => pretty (UserProfile.id user)) recipients)).
  unfold requests_post, bind, emit. cbv zeta.
  match goal with
  | |- context [gateway_answers ?r] => destruct (gateway_answers r)
  end; simpl; now rewrite H2, H1.
Qed.

(** X9. A send posts at most one request to the gateway, and none at all
    when settings.TORNADO_SERVER is unset. *)
Theorem do_send_message_posts_once (message : Message.t) (no_log : bool) w :
  let w' := snd (do_send_message message no_log w) in
  (TORNADO_SERVER = "" -> posted w' = posted w)
  /\ exists requests,
       posted w' = (posted w ++ requests)%list /\ length requests <= 1.
Proof.
  intros w'. subst w'.
  assert (Hmain : exists requests,
            posted (snd (do_send_message message no_log w))
            = (posted w ++ requests)%list
            /\ length requests <= 1
            /\ (TORNADO_SERVER = "" -> requests = [])).
  { rewrite do_send_message_steps. unfold bind at 1.
    destruct (log_step_no_post message no_log w) as (new1 & Hnew1 & Hall1).
    destruct (log_step message no_log w) as [[[]|e] w1]; simpl in Hnew1.
    2:{ exists []. simpl. rewrite (posted_app_history w new1 w1 Hnew1).
        rewrite (no_posts new1 Hall1). split; [reflexivity | split; [lia | auto]]. }
    unfold deliver, bind at 1.
    destruct (resolve_recipients message w1) as [[recipients|e] w1'] eqn:Hresolve;
      pose proof (resolve_recipients_reads _ _ _ _ Hresolve) as ->.
    2:{ exists []. simpl. rewrite (posted_app_history w new1 w1 Hnew1).
        rewrite (no_posts new1 Hall1). split; [reflexivity | split; [lia | auto]]. }
    unfold bind at 1.
    destruct (save_receipts_no_post message recipients w1) as (new2 & Hnew2 & Hall2).
    destruct (save_receipts message recipients w1) as [[saved|e] w2]; simpl in Hnew2.
    2:{ exists []. simpl. rewrite (posted_app_history w1 new2 w2 Hnew2).
        rewrite (no_posts new2 Hall2), app_nil_r.
        rewrite (posted_app_history w new1 w1 Hnew1).
        rewrite (no_posts new1 Hall1). split; [reflexivity | split; [lia | auto]]. }
    assert (Hpre : posted w2 = posted w).
    { rewrite (posted_app_history w1 new2 w2 Hnew2), (no_posts new2 Hall2), app_nil_r.
      rewrite (posted_app_history w new1 w1 Hnew1), (no_posts new1 Hall1).
      apply app_nil_r. }
    destruct (notify_tornado_history saved recipients w2)
      as [Hsame | (Hon & request & Hone)].
    - exists []. unfold posted at 1. rewrite Hsame. fold (posted w2).
      rewrite Hpre, app_nil_r. split; [reflexivity | split; [simpl; lia | auto]].
    - exists [request]. rewrite (posted_app_history w2 _ _ Hone). simpl.
      rewrite Hpre. split; [reflexivity | split; [simpl; lia|]].
      intros Hoff. contradiction. }
  destruct Hmain as (requests & Hposted & Hlen & Hoff).
  split.
  - intros Hunset. rewrite Hposted, (Hoff Hunset). apply app_nil_r.
  - exists requests. auto.
Qed.

End SendOrder.

(** ** do_send_message: deactivated parties, unreachable gateway *)

Section SendEdges.
Context {ext : Externals}.

(** X10. A Personal message between two users, whatever the state of their
    accounts: the receipts are those of the active ones among target and
    sender.  A deactivated target gets none while the sender keeps their own;
    with both deactivated the message is stored without any receipt. *)
Theorem personal_fanout_accounts (message : Message.t) (no_log : bool) w
    (target sender : UserProfile.t) :
  wf_store (db w) ->
  user_hash_coherent w ->
  Message.id message = None ->
  Recipient.type (Message.recipient message) = Recipient.PERSONAL ->
  fst (log_step message no_log w) = Ok tt ->
  get_user_profile_by_id (Recipient.type_id (Message.recipient message)) w
  = (Ok target, w) ->
  get_user_profile_by_id (Message.sender_id message) w = (Ok sender, w) ->
  Message.sender_id message <> Recipient.type_id (Message.recipient message) ->
  let mid := next_message_id (db w) in
  let w' := snd (do_send_message message no_log w) in
  let receivers := map UserMessage.user_profile_id (receipts_of mid (db w')) in
  In (Message.set_id mid message) (messages (db w'))
  /\ (In (UserProfile.id target) receivers
      <-> User.is_active (UserProfile.user target) = true)
  /\ (In (UserProfile.id sender) receivers
      <-> User.is_active (UserProfile.user sender) = true)
  /\ (forall uid, In uid receivers ->
                  uid = UserProfile.id target \/ uid = UserProfile.id sender)
  /\ (User.is_active (UserProfile.user target) = false ->
      User.is_active (UserProfile.user sender) = false ->
      receipts_of mid (db w') = []).
Proof.
  intros Hwf Hcoh Hid Htype Hlog Htarget Hsender Hdiff mid w' receivers.
  pose proof (resolve_recipients_personal_ok message w target sender
                Htype Htarget Hsender) as Hresolve.
  destruct (do_send_message_store message no_log w _ Hwf Hid Hlog Hresolve)
    as (Hmsgs & Hrows & _).
  fold mid w' receivers in Hrows. fold mid w' in Hmsgs.
  pose proof (get_user_profile_by_id_id _ _ _ _ Hcoh Htarget) as Htid.
  pose proof (get_user_profile_by_id_id _ _ _ _ Hcoh Hsender) as Hsid.
  assert (Hne : UserProfile.id target <> UserProfile.id sender) by congruence.
  split; [rewrite Hmsgs; apply in_or_app; right; now left|].
  assert (Hempty : receivers = [] -> receipts_of mid (db w') = []).
  { unfold receivers. destruct (receipts_of mid (db w')); [reflexivity | discriminate]. }
  revert Hrows. unfold list_set.
  destruct (Nat.eqb_spec (UserProfile.id target) (UserProfile.id sender));
    [contradiction|].
  destruct (set_iterates_first _ _); simpl;
    destruct (User.is_active (UserProfile.user target));
    destruct (User.is_active (UserProfile.user sender)); simpl;
    intros Hrows; rewrite Hrows; simpl;
    (split; [|split; [|split; [|intros ? ?; try discriminate; auto]]]);
    try (split; intros; try reflexivity; try discriminate; simpl in *; intuition congruence);
    try (intros uid Hin; simpl in Hin; intuition).
Qed.

(** X11. With the gateway configured but not answering, the send does not
    return normally; the message and the receipts of the active recipients
    are in the store all the same: the failure of the notification undoes
    nothing. *)
Theorem gateway_failure_keeps_delivery (message : Message.t) (no_log : bool)
    w (recipients : list UserProfile.t) :
  wf_store (db w) ->
  Message.id message = None ->
  fst (log_step message no_log w) = Ok tt ->
  resolve_recipients message w = (Ok recipients, w) ->
  TORNADO_SERVER <> "" ->
  (forall request, gateway_answers request = false) ->
  let mid := next_message_id (db w) in
  let run := do_send_message message no_log w in
  is_ok (fst run) = false
  /\ In (Message.set_id mid message) (messages (db (snd run)))
  /\ map UserMessage.user_profile_id (receipts_of mid (db (snd run)))
     = map UserProfile.id
           (List.filter (fun p => User.is_active (UserProfile.user p)) recipients).
Proof.
  intros Hwf Hid Hlog Hresolve Hon Hdown mid run. subst run.
  destruct (do_send_message_store message no_log w recipients Hwf Hid Hlog Hresolve)
    as (Hmsgs & Hrows & _).
  split; [|split; [rewrite Hmsgs; apply in_or_app; right; now left | exact Hrows]].
  destruct (do_send_message_phases message no_log w recipients Hwf Hid Hlog Hresolve)
    as (w1 & rows & Hrun & _).
  rewrite Hrun.
  destruct (notify_tornado _ recipients (with_delivery message rows w1))
    as [[[]|e] w2] eqn:Hnotify; [|reflexivity].
  exfalso. revert Hnotify. unfold notify_tornado.
  destruct (String.eqb_spec TORNADO_SERVER ""); [contradiction|]. simpl.
  intros Hnotify.
  apply bind_inv_ok in Hnotify as (html & w3 & _ & Hnotify).
  apply bind_inv_ok in Hnotify as (markdown & w4 & _ & Hnotify).
  unfold requests_post in Hnotify.
  apply bind_inv_ok in Hnotify as ([] & w5 & _ & Hnotify).
  rewrite Hdown in Hnotify. discriminate.
Qed.

End SendEdges.

(** ** Subscriptions: the log, the other rows, the constraints *)

Lemma message_log_record (e : Effect) w :
  message_log (record e w)
  = (message_log w ++ match e with LogAppend ev => [ev] | _ => [] end)%list.
Proof.
  unfold message_log, record. simpl. rewrite flat_map_app.
  destruct e; reflexivity.
Qed.

Lemma with_subscriptions_same (s : Store) :
  with_subscriptions (subscriptions s) s = s.
Proof. now destruct s. Qed.

Lemma with_subscriptions_wf (s : Store) (l : list Subscription.t) :
  wf_store s ->
  NoDup (map Subscription.id l) ->
  NoDup (map (fun x => (Subscription.user_profile_id x, Subscription.recipient_id x)) l) ->
  wf_store (with_subscriptions l s).
Proof.
  intros [Hpk Hru Hspk Hsu Hfk] Hid Hkey. constructor; simpl; assumption.
Qed.

Lemma saved_subscription_id (x' : Subscription.t) (l : list Subscription.t) :
  map Subscription.id (saved_subscription x' l) = map Subscription.id l.
Proof. apply map_id_after_save. Qed.

Lemma saved_subscription_key (x x' : Subscription.t) (l : list Subscription.t) :
  NoDup (map Subscription.id l) -> In x l ->
  Subscription.id x' = Subscription.id x ->
  Subscription.user_profile_id x' = Subscription.user_profile_id x ->
  Subscription.recipient_id x' = Subscription.recipient_id x ->
  map (fun y => (Subscription.user_profile_id y, Subscription.recipient_id y))
      (saved_subscription x' l)
  = map (fun y => (Subscription.user_profile_id y, Subscription.recipient_id y)) l.
Proof.
  intros Hnd Hin Hid Hu Hr. unfold saved_subscription. rewrite map_map.
  apply map_ext_in. intros y Hy.
  destruct (Nat.eqb_spec (Subscription.id y) (Subscription.id x')) as [Heq|];
    [|reflexivity].
  assert (y = x) by (eapply NoDup_map_inj_on; eauto; congruence).
  subst y. now rewrite Hu, Hr.
Qed.

Lemma find_other_after_save (x' : Subscription.t) (l : list Subscription.t) uid rid :
  sub_matches uid rid x' = false ->
  (forall y, In y l -> Subscription.id y = Subscription.id x' ->
             sub_matches uid rid y = false) ->
  List.find (sub_matches uid rid) (saved_subscription x' l)
  = List.find (sub_matches uid rid) l.
Proof.
  intros Hx' Hsame. unfold saved_subscription.
  induction l as [|y l IH]; simpl; [reflexivity|].
  destruct (Nat.eqb_spec (Subscription.id y) (Subscription.id x')) as [Heq|Hne].
  - rewrite Hx', (Hsame y (or_introl eq_refl) Heq).
    apply IH. intros z Hz. apply Hsame. now right.
  - destruct (sub_matches uid rid y); [reflexivity|].
    apply IH. intros z Hz. apply Hsame. now right.
Qed.

Lemma find_app_other {A} (p : A -> bool) (l : list A) (x : A) :
  p x = false -> List.find p (l ++ [x]) = List.find p l.
Proof.
  intros Hx. induction l as [|y l IH]; simpl.
  - now rewrite Hx.
  - destruct (p y); [reflexivity | exact IH].
Qed.

Lemma sub_matches_other uid rid uid' rid' x :
  sub_matches uid rid x = true -> (uid', rid') <> (uid, rid) ->
  sub_matches uid' rid' x = false.
Proof.
  unfold sub_matches. intros Hm Hne.
  apply andb_true_iff in Hm as [Hu Hr]. apply Nat.eqb_eq in Hu, Hr.
  apply andb_false_iff.
  destruct (Nat.eqb_spec (Subscription.user_profile_id x) uid'); [|now left].
  destruct (Nat.eqb_spec (Subscription.recipient_id x) rid'); [|now right].
  exfalso. apply Hne. congruence.
Qed.

Lemma is_subscribed_actively (s : Store) uid rid :
  NoDup (map (fun x => (Subscription.user_profile_id x, Subscription.recipient_id x))
             (subscriptions s)) ->
  is_subscribed s uid rid = true <-> actively_subscribed s uid rid.
Proof.
  intros Hnd. unfold is_subscribed, actively_subscribed, subscription_of. split.
  - destruct (List.find _ _) as [x|] eqn:Hfind; [|discriminate].
    intros Hact. apply find_some in Hfind as [Hin Hm].
    apply sub_matches_key in Hm. inversion Hm. exists x. auto.
  - intros (x & Hin & Hu & Hr & Hact).
    assert (Hm : sub_matches uid rid x = true).
    { unfold sub_matches. subst. now rewrite !Nat.eqb_refl. }
    pose proof (filter_matches_unique _ uid rid Hnd) as Hfilter.
    assert (Hx : In x (List.filter (sub_matches uid rid) (subscriptions s)))
      by (apply filter_In; auto).
    rewrite Hfilter in Hx. destruct (List.find _ _) as [y|]; [|destruct Hx].
    destruct Hx as [<- | []]. exact Hact.
Qed.

Section SubscriptionWorlds.
Context {ext : Externals}.
Variables (user_profile : UserProfile.t) (stream : Stream.t) (no_log : bool).
Variables (w : World) (recipient : Recipient.t).
Hypothesis Hwf : wf_store (db w).
Hypothesis Hrecipient :
  Recipient_get (Stream.id stream) Recipient.STREAM w = (Ok recipient, w).

Let uid := UserProfile.id user_profile.
Let rid := Recipient.id recipient.

Lemma add_first_time_world :
  subscription_of (db w) uid rid = None ->
  let row := Subscription.mk (next_id (map Subscription.id (subscriptions (db w))))
                             uid rid true in
  let w1 := record (DbInsert TSubscription (Subscription.id row))
              (set_db (with_subscriptions (subscriptions (db w) ++ [row]) (db w)) w) in
  do_add_subscription user_profile stream no_log w
  = (Ok true,
     if no_log then w1 else record (LogAppend (subscription_added user_profile stream)) w1).
Proof.
  intros Hnone row w1. unfold do_add_subscription.
  rewrite (bind_ok _ _ _ _ _ Hrecipient). fold uid rid.
  assert (Hget : Subscription_get uid rid w = (Raise DoesNotExist, w)).
  { rewrite Subscription_get_spec by exact Hwf. now rewrite Hnone. }
  assert (Hcreate : Subscription_create uid rid true w = (Ok row, w1)).
  { unfold Subscription_create.
    replace (existsb (sub_matches uid rid) (subscriptions (db w))) with false;
      [reflexivity|].
    symmetry. apply filter_nil_existsb.
    unfold Subscription_get in Hget. inversion Hget as [Hq].
    now apply objects_get_missing_inv. }
  rewrite (bind_ok _ _ _ _ _ (get_or_create_created _ _ _ _ _ _ Hget Hcreate)).
  destruct no_log; reflexivity.
Qed.

Lemma add_reactivates_world (x : Subscription.t) :
  subscription_of (db w) uid rid = Some x ->
  Subscription.active x = false ->
  let w1 := record (DbUpdate TSubscription (Subscription.id x))
              (set_db (with_subscriptions
                         (saved_subscription (Subscription.set_active true x)
                                             (subscriptions (db w))) (db w)) w) in
  do_add_subscription user_profile stream no_log w
  = (Ok true,
     if no_log then w1 else record (LogAppend (subscription_added user_profile stream)) w1).
Proof.
  intros Hsome Hinactive w1. unfold do_add_subscription.
  rewrite (bind_ok _ _ _ _ _ Hrecipient). fold uid rid.
  assert (Hget : Subscription_get uid rid w = (Ok x, w)).
  { rewrite Subscription_get_spec by exact Hwf. now rewrite Hsome. }
  rewrite (bind_ok _ _ _ _ _ (get_or_create_found _ _ _ _ _ Hget)).
  rewrite Hinactive. destruct no_log; reflexivity.
Qed.

Lemma remove_present_world (x : Subscription.t) :
  subscription_of (db w) uid rid = Some x ->
  let w1 := record (DbUpdate TSubscription (Subscription.id x))
              (set_db (with_subscriptions
                         (saved_subscription (Subscription.set_active false x)
                                             (subscriptions (db w))) (db w)) w) in
  do_remove_subscription user_profile stream no_log w
  = (Ok (Subscription.active x),
     if Subscription.active x && negb no_log
     then record (LogAppend (subscription_removed user_profile stream)) w1
     else w1).
Proof.
  intros Hsome w1. unfold do_remove_subscription.
  rewrite (bind_ok _ _ _ _ _ Hrecipient). fold uid rid.
  unfold subscription_of in Hsome. rewrite filter_head_find in Hsome.
  destruct (List.filter (sub_matches uid rid) (subscriptions (db w))) as [|y l] eqn:Hf;
    [discriminate|].
  inversion Hsome; subst y.
  assert (Hfilter : Subscription_filter uid rid w = (Ok (x :: l), w)).
  { unfold Subscription_filter. now rewrite Hf. }
  rewrite (bind_ok _ _ _ _ _ Hfilter).
  destruct (Subscription.active x); destruct no_log; reflexivity.
Qed.

End SubscriptionWorlds.

Section SubscriptionStores.
Context {ext : Externals}.
Variables (user_profile : UserProfile.t) (stream : Stream.t) (no_log : bool).
Variables (w : World) (recipient : Recipient.t).
Hypothesis Hwf : wf_store (db w).
Hypothesis Hrecipient :
  Recipient_get (Stream.id stream) Recipient.STREAM w = (Ok recipient, w).

(** The Subscription table after do_add_subscription. *)
Lemma add_store :
  db (snd (do_add_subscription user_profile stream no_log w))
  = with_subscriptions
      (match subscription_of (db w) (UserProfile.id user_profile)
                             (Recipient.id recipient) with
       | None =>
           subscriptions (db w)
           ++ [Subscription.mk (next_id (map Subscription.id (subscriptions (db w))))
                               (UserProfile.id user_profile) (Recipient.id recipient)
                               true]
       | Some x =>
           if Subscription.active x then subscriptions (db w)
           else saved_subscription (Subscription.set_active true x)
                                   (subscriptions (db w))
       end) (db w).
Proof.
  destruct (subscription_of (db w) (UserProfile.id user_profile)
                            (Recipient.id recipient)) as [x|] eqn:Hprior.
  - destruct (Subscription.active x) eqn:Hactive.
    + rewrite (add_already_active user_profile stream no_log w recipient
                 Hwf Hrecipient x Hprior Hactive).
      simpl. now rewrite with_subscriptions_same.
    + rewrite (add_reactivates_world user_profile stream no_log w recipient
                 Hwf Hrecipient x Hprior Hactive).
      destruct no_log; reflexivity.
  - rewrite (add_first_time_world user_profile stream no_log w recipient
               Hwf Hrecipient Hprior).
    destruct no_log; reflexivity.
Qed.

(** The Subscription table after do_remove_subscription. *)
Lemma remove_store :
  db (snd (do_remove_subscription user_profile stream no_log w))
  = with_subscriptions
      (match subscription_of (db w) (UserProfile.id user_profile)
                             (Recipient.id recipient) with
       | None => subscriptions (db w)
       | Some x => saved_subscription (Subscription.set_active false x)
                                      (subscriptions (db w))
       end) (db w).
Proof.
  destruct (subscription_of (db w) (UserProfile.id user_profile)
                            (Recipient.id recipient)) as [x|] eqn:Hprior.
  - rewrite (remove_present_world user_profile stream no_log w recipient
               Hrecipient x Hprior).
    destruct (Subscription.active x && negb no_log); reflexivity.
  - rewrite (remove_absent user_profile stream no_log w recipient Hrecipient Hprior).
    simpl. now rewrite with_subscriptions_same.
Qed.

End SubscriptionStores.

Section SubscriptionExtras.
Context {ext : Externals}.

(** X12. Every change of a subscription, and nothing else, is logged:
    do_add_subscription appends one 'subscription_added' line (user email,
    stream name, realm domain, the clock) exactly when the user was not
    subscribed and no_log is off, do_remove_subscription one
    'subscription_removed' line exactly when the user was subscribed and
    no_log is off; otherwise the log is as before. *)
Theorem subscription_changes_are_logged
    (user_profile : UserProfile.t) (stream : Stream.t) (no_log : bool)
    (w : World) (recipient : Recipient.t) :
  wf_store (db w) ->
  Recipient_get (Stream.id stream) Recipient.STREAM w = (Ok recipient, w) ->
  let was := is_subscribed (db w) (UserProfile.id user_profile)
                           (Recipient.id recipient) in
  message_log (snd (do_add_subscription user_profile stream no_log w))
  = (message_log w
     ++ if negb was && negb no_log
        then [subscription_added user_profile stream] else [])%list
  /\ message_log (snd (do_remove_subscription user_profile stream no_log w))
     = (message_log w
        ++ if was && negb no_log
           then [subscription_removed user_profile stream] else [])%list.
Proof.
  intros Hwf Hrecipient was. subst was. unfold is_subscribed.
  destruct (subscription_of (db w) (UserProfile.id user_profile)
                            (Recipient.id recipient)) as [x|] eqn:Hprior.
  - rewrite (remove_present_world user_profile stream no_log w recipient
               Hrecipient x Hprior).
    destruct (Subscription.active x) eqn:Hactive.
    + rewrite (add_already_active user_profile stream no_log w recipient
                 Hwf Hrecipient x Hprior Hactive).
      destruct no_log; simpl; rewrite ?message_log_record, ?app_nil_r;
        split; reflexivity.
    + rewrite (add_reactivates_world user_profile stream no_log w recipient
                 Hwf Hrecipient x Hprior Hactive).
      destruct no_log; simpl; rewrite ?message_log_record, ?app_nil_r;
        split; reflexivity.
  - rewrite (remove_absent user_profile stream no_log w recipient Hrecipient Hprior).
    rewrite (add_first_time_world user_profile stream no_log w recipient
               Hwf Hrecipient Hprior).
    destruct no_log; simpl; rewrite ?message_log_record, ?app_nil_r;
      split; reflexivity.
Qed.

(** X13. Subscribing or unsubscribing one user to one stream leaves every
    other subscription row, of this user or of any other, as it was, and
    changes no table other than Subscription. *)
Theorem subscription_change_is_local
    (user_profile : UserProfile.t) (stream : Stream.t) (no_log : bool)
    (w : World) (recipient : Recipient.t) (uid' rid' : nat) :
  wf_store (db w) ->
  Recipient_get (Stream.id stream) Recipient.STREAM w = (Ok recipient, w) ->
  (uid', rid') <> (UserProfile.id user_profile, Recipient.id recipient) ->
  let added := db (snd (do_add_subscription user_profile stream no_log w)) in
  let removed := db (snd (do_remove_subscription user_profile stream no_log w)) in
  subscription_of added uid' rid' = subscription_of (db w) uid' rid'
  /\ added = with_subscriptions (subscriptions added) (db w)
  /\ subscription_of removed uid' rid' = subscription_of (db w) uid' rid'
  /\ removed = with_subscriptions (subscriptions removed) (db w).
Proof.
  intros Hwf Hrecipient Hother added removed. subst added removed.
  rewrite (add_store user_profile stream no_log w recipient Hwf Hrecipient).
  rewrite (remove_store user_profile stream no_log w recipient Hrecipient).
  assert (Hsave : forall x b,
            subscription_of (db w) (UserProfile.id user_profile)
                            (Recipient.id recipient) = Some x ->
            List.find (sub_matches uid' rid')
                      (saved_subscription (Subscription.set_active b x)
                                          (subscriptions (db w)))
            = List.find (sub_matches uid' rid') (subscriptions (db w))).
  { intros x b Hprior. apply find_some in Hprior as [Hin Hm].
    assert (Hx : sub_matches uid' rid' x = false)
      by (eapply sub_matches_other; eassumption).
    apply find_other_after_save; [exact Hx|].
    intros y Hy Hid.
    assert (y = x).
    { eapply NoDup_map_inj_on;
        [apply (wf_subscription_pk _ Hwf) | exact Hy | exact Hin | exact Hid]. }
    now subst y. }
  destruct (subscription_of (db w) (UserProfile.id user_profile)
                            (Recipient.id recipient)) as [x|] eqn:Hprior.
  - pose proof (Hsave x false eq_refl) as Hoff.
    pose proof (Hsave x true eq_refl) as Hon.
    destruct (Subscription.active x); unfold subscription_of;
      simpl subscriptions; rewrite ?Hoff, ?Hon; repeat split; reflexivity.
  - unfold subscription_of; simpl subscriptions.
    rewrite find_app_other; [repeat split; reflexivity|].
    eapply sub_matches_other; [|exact Hother].
    unfold sub_matches. simpl. now rewrite !Nat.eqb_refl.
Qed.

Lemma add_keeps_wf
    (user_profile : UserProfile.t) (stream : Stream.t) (no_log : bool)
    (w : World) (recipient : Recipient.t) :
  wf_store (db w) ->
  Recipient_get (Stream.id stream) Recipient.STREAM w = (Ok recipient, w) ->
  wf_store (db (snd (do_add_subscription user_profile stream no_log w))).
Proof.
  intros Hwf Hrecipient.
  rewrite (add_store user_profile stream no_log w recipient Hwf Hrecipient).
  destruct (subscription_of (db w) (UserProfile.id user_profile)
                            (Recipient.id recipient)) as [x|] eqn:Hprior.
  - destruct (Subscription.active x); [now rewrite with_subscriptions_same|].
    apply find_some in Hprior as [Hin _].
    apply with_subscriptions_wf; [exact Hwf | |].
    + rewrite saved_subscription_id. apply (wf_subscription_pk _ Hwf).
    + rewrite (saved_subscription_key x); try reflexivity;
        [apply (wf_subscription_unique _ Hwf) | apply (wf_subscription_pk _ Hwf)
        | exact Hin].
  - apply with_subscriptions_wf; [exact Hwf | |]; rewrite map_app;
      apply NoDup_app; simpl.
    + split; [apply (wf_subscription_pk _ Hwf) | split; [|apply NoDup_singleton]].
      intros n Hn Hn'. apply list_elem_of_In in Hn, Hn'.
      destruct Hn' as [<- | []]. apply next_id_above in Hn. lia.
    + split; [apply (wf_subscription_unique _ Hwf) | split; [|apply NoDup_singleton]].
      intros k Hk Hk'. apply list_elem_of_In in Hk, Hk'.
      destruct Hk' as [<- | []]. apply in_map_iff in Hk as (y & Hy & Hin).
      unfold subscription_of in Hprior.
      apply (find_none _ _ Hprior) in Hin. unfold sub_matches in Hin.
      inversion Hy as [[Hu Hr]]. now rewrite Hu, Hr, !Nat.eqb_refl in Hin.
Qed.

Lemma remove_keeps_wf
    (user_profile : UserProfile.t) (stream : Stream.t) (no_log : bool)
    (w : World) (recipient : Recipient.t) :
  wf_store (db w) ->
  Recipient_get (Stream.id stream) Recipient.STREAM w = (Ok recipient, w) ->
  wf_store (db (snd (do_remove_subscription user_profile stream no_log w))).
Proof.
  intros Hwf Hrecipient.
  rewrite (remove_store user_profile stream no_log w recipient Hrecipient).
  destruct (subscription_of (db w) (UserProfile.id user_profile)
                            (Recipient.id recipient)) as [x|] eqn:Hprior.
  - apply find_some in Hprior as [Hin _].
    apply with_subscriptions_wf; [exact Hwf | |].
    + rewrite saved_subscription_id. apply (wf_subscription_pk _ Hwf).
    + rewrite (saved_subscription_key x); try reflexivity;
        [apply (wf_subscription_unique _ Hwf) | apply (wf_subscription_pk _ Hwf)
        | exact Hin].
  - now rewrite with_subscriptions_same.
Qed.

(** X15. The constraints of the store hold after do_add_subscription and
    after do_remove_subscription, whatever they return or raise. *)
Theorem subscription_changes_keep_constraints
    (user_profile : UserProfile.t) (stream : Stream.t) (no_log : bool) (w : World) :
  wf_store (db w) ->
  wf_store (db (snd (do_add_subscription user_profile stream no_log w)))
  /\ wf_store (db (snd (do_remove_subscription user_profile stream no_log w))).
Proof.
  intros Hwf.
  destruct (Recipient_get (Stream.id stream) Recipient.STREAM w)
    as [[recipient|e] w0] eqn:Hget;
    assert (w0 = w) by (unfold Recipient_get in Hget; now inversion Hget); subst w0.
  - split; [eapply add_keeps_wf | eapply remove_keeps_wf]; eassumption.
  - unfold do_add_subscription, do_remove_subscription.
    rewrite !(bind_raise _ _ _ _ _ Hget). now split.
Qed.

(** X14. Unsubscribing a subscribed user and subscribing them again brings
    the store back to what it was: both calls return True, and the row is
    the same row, active again. *)
Theorem unsubscribe_then_subscribe
    (user_profile : UserProfile.t) (stream : Stream.t) (no_log : bool)
    (w : World) (recipient : Recipient.t) :
  wf_store (db w) ->
  Recipient_get (Stream.id stream) Recipient.STREAM w = (Ok recipient, w) ->
  is_subscribed (db w) (UserProfile.id user_profile) (Recipient.id recipient) = true ->
  let removed := do_remove_subscription user_profile stream no_log w in
  let added := do_add_subscription user_profile stream no_log (snd removed) in
  fst removed = Ok true /\ fst added = Ok true /\ db (snd added) = db w.
Proof.
  intros Hwf Hrecipient Hsub removed added. subst added removed.
  unfold is_subscribed in Hsub.
  destruct (subscription_of (db w) (UserProfile.id user_profile)
                            (Recipient.id recipient)) as [x|] eqn:Hprior;
    [|discriminate].
  set (w1 := snd (do_remove_subscription user_profile stream no_log w)).
  assert (Hdb1 : db w1
                 = with_subscriptions
                     (saved_subscription (Subscription.set_active false x)
                                         (subscriptions (db w))) (db w)).
  { unfold w1.
    rewrite (remove_store user_profile stream no_log w recipient Hrecipient).
    now rewrite Hprior. }
  assert (Hwf1 : wf_store (db w1))
    by (eapply remove_keeps_wf; eassumption).
  assert (Hrecipient1 :
    Recipient_get (Stream.id stream) Recipient.STREAM w1 = (Ok recipient, w1)).
  { unfold Recipient_get in *. rewrite Hdb1. simpl recipients.
    inversion Hrecipient as [Hq]. now rewrite Hq. }
  assert (Hprior1 : subscription_of (db w1) (UserProfile.id user_profile)
                                    (Recipient.id recipient)
                    = Some (Subscription.set_active false x)).
  { unfold subscription_of. rewrite Hdb1. simpl subscriptions.
    exact (find_after_save (subscriptions (db w)) _ _ x false Hprior). }
  split; [|split].
  - fold w1.
    unfold w1. rewrite (remove_present_world user_profile stream no_log w recipient
                          Hrecipient x Hprior). simpl. now rewrite Hsub.
  - rewrite (add_reactivates_world user_profile stream no_log w1 recipient
               Hwf1 Hrecipient1 _ Hprior1 eq_refl). reflexivity.
  - rewrite (add_store user_profile stream no_log w1 recipient Hwf1 Hrecipient1).
    rewrite Hprior1. simpl Subscription.active. cbv iota.
    rewrite Hdb1. simpl subscriptions.
    etransitivity; [|apply with_subscriptions_same].
    unfold with_subscriptions. simpl. f_equal.
    apply find_some in Hprior as [Hin _].
    unfold saved_subscription. rewrite map_map.
    rewrite <- (map_id (subscriptions (db w))) at 2.
    apply map_ext_in. intros y Hy. simpl.
    destruct (Nat.eqb_spec (Subscription.id y) (Subscription.id x)) as [Heq|Hne].
    + simpl. rewrite Nat.eqb_refl.
      assert (y = x).
      { eapply NoDup_map_inj_on;
          [apply (wf_subscription_pk _ Hwf) | exact Hy | exact Hin | exact Heq]. }
      subst y. destruct x; simpl in *. now subst.
    + destruct (Nat.eqb_spec (Subscription.id y) (Subscription.id x));
        [contradiction | reflexivity].
Qed.

End SubscriptionExtras.

Section SubscriptionDelivery.
Context {ext : Externals}.

Lemma find_saved (l : list Subscription.t) uid rid x b :
  List.find (sub_matches uid rid) l = Some x ->
  List.find (sub_matches uid rid)
            (saved_subscription (Subscription.set_active b x) l)
  = Some (Subscription.set_active b x).
Proof. exact (find_after_save l uid rid x b). Qed.

Lemma add_subscribes
    (user_profile : UserProfile.t) (stream : Stream.t) (no_log : bool)
    (w : World) (recipient : Recipient.t) :
  wf_store (db w) ->
  Recipient_get (Stream.id stream) Recipient.STREAM w = (Ok recipient, w) ->
  is_subscribed (db (snd (do_add_subscription user_profile stream no_log w)))
                (UserProfile.id user_profile) (Recipient.id recipient) = true.
Proof.
  intros Hwf Hrecipient.
  rewrite (add_store user_profile stream no_log w recipient Hwf Hrecipient).
  unfold is_subscribed.
  destruct (subscription_of (db w) (UserProfile.id user_profile)
                            (Recipient.id recipient)) as [x|] eqn:Hprior.
  - destruct (Subscription.active x) eqn:Hactive.
    + rewrite with_subscriptions_same, Hprior. exact Hactive.
    + unfold subscription_of at 1. simpl subscriptions.
      now rewrite (find_saved (subscriptions (db w)) _ _ x true Hprior).
  - unfold subscription_of at 1. simpl subscriptions.
    rewrite (find_app_none _ _ _ Hprior); [reflexivity|].
    unfold sub_matches. simpl. now rewrite !Nat.eqb_refl.
Qed.

Lemma remove_unsubscribes
    (user_profile : UserProfile.t) (stream : Stream.t) (no_log : bool)
    (w : World) (recipient : Recipient.t) :
  Recipient_get (Stream.id stream) Recipient.STREAM w = (Ok recipient, w) ->
  is_subscribed (db (snd (do_remove_subscription user_profile stream no_log w)))
                (UserProfile.id user_profile) (Recipient.id recipient) = false.
Proof.
  intros Hrecipient.
  rewrite (remove_store user_profile stream no_log w recipient Hrecipient).
  unfold is_subscribed.
  destruct (subscription_of (db w) (UserProfile.id user_profile)
                            (Recipient.id recipient)) as [x|] eqn:Hprior.
  - unfold subscription_of at 1. simpl subscriptions.
    now rewrite (find_saved (subscriptions (db w)) _ _ x false Hprior).
  - now rewrite with_subscriptions_same, Hprior.
Qed.

(** Who gets a receipt for a stream message, in terms of [is_subscribed]. *)
Lemma stream_receipt_iff (message : Message.t) (no_log : bool) w (uid : nat) :
  wf_store (db w) ->
  Message.id message = None ->
  Recipient.type (Message.recipient message) = Recipient.STREAM ->
  fst (log_step message no_log w) = Ok tt ->
  In uid (map UserMessage.user_profile_id
              (receipts_of (next_message_id (db w))
                           (db (snd (do_send_message message no_log w)))))
  <-> is_subscribed (db w) uid (Recipient.id (Message.recipient message)) = true
      /\ exists p, In p (profiles (db w)) /\ UserProfile.id p = uid
                   /\ User.is_active (UserProfile.user p) = true.
Proof.
  intros Hwf Hid Htype Hlog.
  pose proof (resolve_recipients_subscribed message w (or_introl Htype)) as Hresolve.
  destruct (do_send_message_store message no_log w _ Hwf Hid Hlog Hresolve)
    as (_ & Hrows & _).
  rewrite Hrows, in_map_iff.
  rewrite (is_subscribed_actively _ _ _ (wf_subscription_unique _ Hwf)).
  split.
  - intros (p & Hp & Hpin). apply filter_In in Hpin as [Hpin Hact].
    apply subscribed_profiles_In in Hpin as [Hprof Hsub]. subst uid.
    split; [exact Hsub|]. exists p. auto.
  - intros (Hsub & p & Hprof & Hp & Hact). exists p. split; [exact Hp|].
    apply filter_In. split; [|exact Hact].
    apply subscribed_profiles_In. subst uid. auto.
Qed.

(** X16. Subscriptions decide delivery: a message sent to the stream right
    after do_add_subscription gives the user, if their account is active, a
    UserMessage row; the same message sent right after
    do_remove_subscription gives them none. *)
Theorem subscription_controls_delivery
    (user_profile : UserProfile.t) (stream : Stream.t) (no_log : bool)
    (w : World) (recipient : Recipient.t) (message : Message.t) (quiet : bool) :
  wf_store (db w) ->
  Recipient_get (Stream.id stream) Recipient.STREAM w = (Ok recipient, w) ->
  In user_profile (profiles (db w)) ->
  User.is_active (UserProfile.user user_profile) = true ->
  Message.id message = None ->
  Message.recipient message = recipient ->
  let receivers w0 :=
    map UserMessage.user_profile_id
        (receipts_of (next_message_id (db w0))
                     (db (snd (do_send_message message quiet w0)))) in
  let subscribed := snd (do_add_subscription user_profile stream no_log w) in
  let unsubscribed := snd (do_remove_subscription user_profile stream no_log w) in
  (fst (log_step message quiet subscribed) = Ok tt ->
   In (UserProfile.id user_profile) (receivers subscribed))
  /\ (fst (log_step message quiet unsubscribed) = Ok tt ->
      ~ In (UserProfile.id user_profile) (receivers unsubscribed)).
Proof.
  intros Hwf Hrecipient Hprofile Hactive Hid Hto receivers subscribed unsubscribed.
  subst receivers subscribed unsubscribed. cbv beta.
  assert (Htype : Recipient.type (Message.recipient message) = Recipient.STREAM).
  { rewrite Hto. unfold Recipient_get in Hrecipient.
    inversion Hrecipient as [Hget]. apply objects_get_ok_inv in Hget.
    assert (Hin : In recipient [recipient]) by now left.
    rewrite <- Hget in Hin. apply filter_In in Hin as [_ Hpass].
    apply andb_true_iff in Hpass as [_ Hty]. now apply Nat.eqb_eq in Hty. }
  split; intros Hlog.
  - apply (stream_receipt_iff message quiet _ _
             (add_keeps_wf user_profile stream no_log w recipient Hwf Hrecipient)
             Hid Htype Hlog).
    rewrite Hto. split; [now apply add_subscribes|].
    exists user_profile.
    rewrite (add_store user_profile stream no_log w recipient Hwf Hrecipient).
    simpl. auto.
  - intros Hin.
    apply (stream_receipt_iff message quiet _ _
             (remove_keeps_wf user_profile stream no_log w recipient Hwf Hrecipient)
             Hid Htype Hlog) in Hin as [Hsub _].
    rewrite Hto in Hsub.
    now rewrite (remove_unsubscribes user_profile stream no_log w recipient Hrecipient)
      in Hsub.
Qed.

End SubscriptionDelivery.

(** ** Invariants through the combinators *)

Lemma preserves_ret {A} (P : Store -> Prop) (a : A) : preserves P (ret a).
Proof. now intros w. Qed.

Lemma preserves_raise {A} (P : Store -> Prop) (e : exn) : preserves P (@raise A e).
Proof. now intros w. Qed.

Lemma preserves_query {A} (P : Store -> Prop) (q : World -> result A) :
  preserves P (fun w => (q w, w)).
Proof. now intros w. Qed.

Lemma preserves_emit (P : Store -> Prop) (e : Effect) : preserves P (emit e).
Proof. now intros w. Qed.

Lemma preserves_bind {A B} (P : Store -> Prop) (c : M A) (k : A -> M B) :
  preserves P c -> (forall a, preserves P (k a)) -> preserves P (bind c k).
Proof.
  intros Hc Hk w Hw. unfold bind. specialize (Hc w Hw).
  destruct (c w) as [[a|e] w1]; simpl in *; [now apply Hk | exact Hc].
Qed.

Lemma preserves_try_except {A} (P : Store -> Prop) (body handler : M A) (e : exn) :
  preserves P body -> preserves P handler -> preserves P (try_except body e handler).
Proof.
  intros Hb Hh w Hw. unfold try_except. specialize (Hb w Hw).
  destruct (body w) as [[a|e'] w1]; simpl in *; [exact Hb|].
  destruct (decide (e' = e)); simpl; [now apply Hh | exact Hb].
Qed.

Lemma preserves_get_or_create {A} (P : Store -> Prop) (get create : M A) :
  preserves P get -> preserves P create -> preserves P (get_or_create get create).
Proof.
  intros Hg Hc. unfold get_or_create.
  repeat first [ apply preserves_try_except | apply preserves_bind
               | apply preserves_ret | apply preserves_raise | assumption | intro ].
Qed.

Lemma preserves_for_each {A} (P : Store -> Prop) (l : list A) (body : A -> M unit) :
  (forall x, preserves P (body x)) -> preserves P (for_each l body).
Proof.
  intros Hb. induction l as [|x l IH]; simpl.
  - apply preserves_ret.
  - apply preserves_bind; [apply Hb | intros _; exact IH].
Qed.

Lemma preserves_commit_on_success {A} (P : Store -> Prop) (body : M A) :
  preserves P body -> preserves P (commit_on_success body).
Proof.
  intros Hb w Hw. unfold commit_on_success. specialize (Hb w Hw).
  destruct (body w) as [[a|e] w1]; simpl in *; [exact Hb | exact Hw].
Qed.

(** ** The inserts keep the constraints *)

Lemma NoDup_snoc_fresh {A K} (key : A -> K) (l : list A) (x : A) :
  NoDup (map key l) -> (forall y, In y l -> key y <> key x) ->
  NoDup (map key (l ++ [x])).
Proof.
  intros Hnd Hfresh. rewrite map_app. apply NoDup_app.
  split; [exact Hnd | split; [|apply NoDup_singleton]].
  intros k Hk Hk'. apply list_elem_of_In in Hk, Hk'.
  destruct Hk' as [<- | []]. apply in_map_iff in Hk as (y & Hy & Hin).
  now apply (Hfresh y Hin).
Qed.

Lemma existsb_false_In {A} (p : A -> bool) (l : list A) (x : A) :
  existsb p l = false -> In x l -> p x = false.
Proof.
  intros Hnone Hin. destruct (p x) eqn:Hp; [|reflexivity].
  assert (existsb p l = true) by (apply existsb_exists; eauto). congruence.
Qed.

Lemma Stream_create_wf realm name : preserves wf_store (Stream_create realm name).
Proof.
  intros w [Hpk Hru Hspk Hsu Hfk]. unfold Stream_create.
  destruct (existsb _ _); simpl; constructor; assumption.
Qed.

Lemma Client_create_wf name : preserves wf_store (Client_create name).
Proof.
  intros w [Hpk Hru Hspk Hsu Hfk]. unfold Client_create.
  destruct (existsb _ _); simpl; constructor; assumption.
Qed.

Lemma Huddle_create_wf huddle_hash : preserves wf_store (Huddle_create huddle_hash).
Proof.
  intros w [Hpk Hru Hspk Hsu Hfk]. unfold Huddle_create.
  destruct (existsb _ _); simpl; constructor; assumption.
Qed.

Lemma Recipient_create_wf type_id type :
  preserves wf_store (Recipient_create type_id type).
Proof.
  intros w [Hpk Hru Hspk Hsu Hfk]. unfold Recipient_create.
  destruct (existsb _ _) eqn:Hnone; simpl; constructor; try assumption.
  simpl. apply NoDup_snoc_fresh; [exact Hru|].
  intros y Hy Hkey. simpl in Hkey. inversion Hkey as [[Hty Hid]].
  pose proof (existsb_false_In _ _ y Hnone Hy) as Hp. simpl in Hp.
  now rewrite Hty, Hid, !Nat.eqb_refl in Hp.
Qed.

Lemma Subscription_create_wf uid rid active :
  preserves wf_store (Subscription_create uid rid active).
Proof.
  intros w [Hpk Hru Hspk Hsu Hfk]. unfold Subscription_create.
  destruct (existsb _ _) eqn:Hnone; simpl; constructor; try assumption; simpl.
  - apply NoDup_snoc_fresh; [exact Hspk|].
    intros y Hy Hid. simpl in Hid.
    assert (Hlt : Subscription.id y < next_id (map Subscription.id (subscriptions (db w))))
      by (apply next_id_above; now apply in_map).
    lia.
  - apply NoDup_snoc_fresh; [exact Hsu|].
    intros y Hy Hkey. simpl in Hkey. inversion Hkey as [[Hu Hr]].
    pose proof (existsb_false_In _ _ y Hnone Hy) as Hp. unfold sub_matches in Hp.
    now rewrite Hu, Hr, !Nat.eqb_refl in Hp.
Qed.

Section Constraints.
Context {ext : Externals}.

Lemma create_stream_if_needed_wf realm name :
  preserves wf_store (create_stream_if_needed realm name).
Proof.
  unfold create_stream_if_needed.
  apply preserves_bind.
  - apply preserves_get_or_create;
      [apply preserves_query | apply Stream_create_wf].
  - intros [stream [|]]; apply preserves_bind; intros;
      repeat first [ apply preserves_bind | apply Recipient_create_wf
                   | apply preserves_ret | intro ].
Qed.

Lemma get_client_wf name : preserves wf_store (get_client name).
Proof.
  unfold get_client. apply preserves_commit_on_success, preserves_try_except.
  - apply preserves_bind; [|intros; apply preserves_ret].
    apply preserves_get_or_create; [apply preserves_query | apply Client_create_wf].
  - apply preserves_bind; [apply preserves_emit | intros; apply preserves_query].
Qed.

Lemma get_huddle_wf id_list : preserves wf_store (get_huddle id_list).
Proof.
  unfold get_huddle.
  apply preserves_bind.
  - apply preserves_get_or_create;
      [apply preserves_query | apply Huddle_create_wf].
  - intros [huddle [|]]; apply preserves_bind; intros; try apply preserves_ret.
    apply preserves_bind; [apply Recipient_create_wf|]. intros recipient.
    apply preserves_for_each. intros uid.
    apply preserves_bind; [apply preserves_query|]. intros user_profile.
    apply preserves_bind; [apply Subscription_create_wf|]. intros.
    apply preserves_ret.
Qed.

Lemma internal_send_message_wf sender_email recipient_type recipient_name
    subject content :
  preserves wf_store
    (internal_send_message sender_email recipient_type recipient_name subject content).
Proof.
  unfold internal_send_message. cbv zeta.
  apply preserves_bind; [apply preserves_query|]. intros sender.
  apply preserves_bind; [apply create_stream_if_needed_wf|]. intros stream.
  apply preserves_bind; [apply preserves_query|]. intros recipient.
  apply preserves_bind; [apply get_client_wf|]. intros sending_client.
  intros w Hw. now apply do_send_message_keeps_wf.
Qed.

(** X17. The constraints of the store (primary keys, the unique pairs of
    Recipient and Subscription, every UserMessage pointing at a stored
    message) hold after create_stream_if_needed, get_client, get_huddle and
    internal_send_message, whether the call returns or raises; in
    particular after a get_huddle that fails halfway. *)
Theorem creation_keeps_constraints (w : World) :
  wf_store (db w) ->
  (forall realm name,
      wf_store (db (snd (create_stream_if_needed realm name w))))
  /\ (forall name, wf_store (db (snd (get_client name w))))
  /\ (forall id_list, wf_store (db (snd (get_huddle id_list w))))
  /\ (forall sender_email recipient_type recipient_name subject content,
         wf_store (db (snd (internal_send_message sender_email recipient_type
                                                  recipient_name subject content w)))).
Proof.
  intros Hwf. split; [|split; [|split]]; intros.
  - now apply create_stream_if_needed_wf.
  - now apply get_client_wf.
  - now apply get_huddle_wf.
  - now apply internal_send_message_wf.
Qed.

End Constraints.

(** ** The sweep of unreachable messages *)

Lemma filter_all {A} (p : A -> bool) (l : list A) :
  (forall x, In x l -> p x = true) -> List.filter p l = l.
Proof.
  intros Hall. induction l as [|x l IH]; simpl; [reflexivity|].
  rewrite Hall by now left. f_equal. apply IH. intros y Hy. apply Hall. now right.
Qed.

Lemma filter_twice {A} (p : A -> bool) (l : list A) :
  List.filter p (List.filter p l) = List.filter p l.
Proof.
  apply filter_all. intros x Hx. now apply filter_In in Hx.
Qed.

Lemma existsb_eqb_In (n : nat) (l : list nat) :
  existsb (Nat.eqb n) l = true <-> In n l.
Proof.
  rewrite existsb_exists. split.
  - intros (m & Hm & Heq). apply Nat.eqb_eq in Heq. now subst.
  - intros Hin. exists n. split; [exact Hin | apply Nat.eqb_refl].
Qed.

Lemma unreachable_receipts (s : Store) (m : Message.t) (i : nat) :
  Message.id m = Some i ->
  unreachable s m = true <-> receipts_of i s = [].
Proof.
  intros Hid. unfold unreachable, receipts_of. rewrite Hid, negb_true_iff. split.
  - intros Hnone. apply filter_nil_existsb. apply existsb_false_intro.
    intros row Hrow. apply Nat.eqb_neq. intros Heq.
    assert (Hin : existsb (Nat.eqb i) (map UserMessage.message_id (user_messages s))
                  = true).
    { apply existsb_eqb_In. rewrite <- Heq. now apply in_map. }
    congruence.
  - intros Hnil. apply not_true_is_false. intros Hin.
    apply existsb_eqb_In, in_map_iff in Hin as (row & Hrow & Hin).
    assert (Hrec : In row (List.filter (fun row => UserMessage.message_id row =? i)
                                       (user_messages s))).
    { apply filter_In. split; [exact Hin | now apply Nat.eqb_eq]. }
    now rewrite Hnil in Hrec.
Qed.

(** The cascade finds nothing to delete. *)
Lemma remove_unreachable_messages_only (s : Store) :
  remove_unreachable s
  = with_messages (List.filter (fun m => negb (unreachable s m)) (messages s)) s.
Proof.
  unfold remove_unreachable. cbv zeta.
  rewrite filter_all; [now destruct s|].
  intros row Hrow. apply negb_true_iff, not_true_is_false. intros Hin.
  apply existsb_eqb_In, list_elem_of_In, list_elem_of_omap in Hin
    as (m & Hm & Hid).
  apply list_elem_of_In, filter_In in Hm as [_ Hun].
  unfold unreachable in Hun. rewrite Hid in Hun.
  apply negb_true_iff in Hun.
  assert (existsb (Nat.eqb (UserMessage.message_id row))
                  (map UserMessage.message_id (user_messages s)) = true)
    by (apply existsb_eqb_In; now apply in_map).
  congruence.
Qed.

Lemma unreachable_after_sweep (s : Store) (m : Message.t) :
  unreachable (remove_unreachable s) m = unreachable s m.
Proof. now rewrite remove_unreachable_messages_only. Qed.

(** X18. Message.remove_unreachable deletes exactly the stored messages that
    no UserMessage refers to and nothing else: the cascade finds no
    UserMessage to delete, every other table is as before, a message
    survives exactly when it has a receipt, the constraints of the store
    still hold, and a second sweep changes nothing. *)
Theorem remove_unreachable_sweeps (s : Store) :
  remove_unreachable s = with_messages (messages (remove_unreachable s)) s
  /\ (forall m i, Message.id m = Some i ->
        (In m (messages (remove_unreachable s))
         <-> In m (messages s) /\ receipts_of i s <> []))
  /\ (forall i, receipts_of i (remove_unreachable s) = receipts_of i s)
  /\ (wf_store s -> wf_store (remove_unreachable s))
  /\ remove_unreachable (remove_unreachable s) = remove_unreachable s.
Proof.
  split; [|split; [|split; [|split]]].
  - now rewrite remove_unreachable_messages_only at 1 2.
  - intros m i Hid. rewrite remove_unreachable_messages_only. simpl.
    rewrite filter_In, negb_true_iff.
    pose proof (unreachable_receipts s m i Hid) as Hrec.
    split; intros [Hin Hkeep]; (split; [exact Hin|]).
    + intros Hnil. apply Hrec in Hnil. congruence.
    + apply not_true_is_false. intros Hun. now apply Hrec in Hun.
  - intros i. now rewrite remove_unreachable_messages_only.
  - intros [Hpk Hru Hspk Hsu Hfk]. rewrite remove_unreachable_messages_only.
    constructor; simpl; try assumption.
    intros row Hrow. destruct (Hfk row Hrow) as (m & Hm & Hid).
    exists m. split; [|exact Hid].
    apply filter_In. split; [exact Hm|].
    apply negb_true_iff, not_true_is_false. intros Hun.
    apply (unreachable_receipts s m _ Hid) in Hun.
    assert (Hrec : In row (receipts_of (UserMessage.message_id row) s)).
    { apply filter_In. split; [exact Hrow | apply Nat.eqb_refl]. }
    now rewrite Hun in Hrec.
  - rewrite (remove_unreachable_messages_only (remove_unreachable s)).
    rewrite (filter_ext _ (fun m => negb (unreachable s m)))
      by (intros m; now rewrite unreachable_after_sweep).
    rewrite (remove_unreachable_messages_only s). simpl.
    rewrite filter_twice. reflexivity.
Qed.

Section SendAndSweep.
Context {ext : Externals}.

(** The store after do_send_message, when the message was logged (or
    logging is off) and its recipients resolved. *)
Lemma do_send_message_rows (message : Message.t) (no_log : bool)
    w (recipients : list UserProfile.t) :
  wf_store (db w) ->
  Message.id message = None ->
  fst (log_step message no_log w) = Ok tt ->
  resolve_recipients message w = (Ok recipients, w) ->
  exists rows,
    db (snd (do_send_message message no_log w))
    = with_user_messages (user_messages (db w) ++ rows)
        (with_messages
           (messages (db w) ++ [Message.set_id (next_message_id (db w)) message])
           (db w))
    /\ map UserMessage.user_profile_id rows
       = map UserProfile.id
             (List.filter (fun p => User.is_active (UserProfile.user p)) recipients)
    /\ Forall (fun row => UserMessage.message_id row = next_message_id (db w)) rows.
Proof.
  intros Hwf Hid Hlog Hresolve.
  destruct (log_step message no_log w) as [r w1] eqn:Hstep. simpl in Hlog. subst r.
  assert (Hdb : db w1 = db w).
  { pose proof (log_step_keeps db message no_log db_stable w) as Hk.
    now rewrite Hstep in Hk. }
  assert (Hhash : user_hash w1 = user_hash w).
  { pose proof (log_step_keeps user_hash message no_log user_hash_stable w) as Hk.
    now rewrite Hstep in Hk. }
  assert (Hresolve1 : resolve_recipients message w1 = (Ok recipients, w1)).
  { pose proof (resolve_recipients_depends message w w1 Hdb Hhash) as Hdep.
    destruct (resolve_recipients message w1) as [r1 w1'] eqn:Hr1.
    pose proof (resolve_recipients_reads _ _ _ _ Hr1) as ->.
    rewrite Hresolve in Hdep. simpl in Hdep. now subst r1. }
  destruct (do_send_message_delivery message no_log w w1 recipients
              Hwf Hid Hstep Hresolve1) as (rows & Hrun & Hmap & Hreceipts & _).
  pose proof (notify_tornado_keeps db db_stable
                (Message.set_id (next_message_id (db w)) message) recipients
                (with_delivery message rows w1)) as Hkeep.
  exists rows. rewrite Hrun, Hkeep. split; [|split; [exact Hmap|]].
  - unfold with_delivery. simpl. rewrite Hdb. reflexivity.
  - rewrite <- Hreceipts. apply Forall_forall. intros row Hrow.
    apply list_elem_of_In in Hrow. unfold receipts_of in Hrow.
    apply filter_In in Hrow as [_ Heq]. apply Nat.eqb_eq in Heq.
    exact Heq.
Qed.

(** X19. A message that nobody received does not outlive the next sweep:
    after do_send_message, Message.remove_unreachable keeps the new message
    exactly when one of the resolved recipients has an active account, and
    decides about every older message as it would have before the send. *)
Theorem unreceived_message_is_swept (message : Message.t) (no_log : bool)
    w (recipients : list UserProfile.t) :
  wf_store (db w) ->
  Message.id message = None ->
  fst (log_step message no_log w) = Ok tt ->
  resolve_recipients message w = (Ok recipients, w) ->
  let sent := Message.set_id (next_message_id (db w)) message in
  let swept := remove_unreachable (db (snd (do_send_message message no_log w))) in
  (In sent (messages swept)
   <-> exists p, In p recipients /\ User.is_active (UserProfile.user p) = true)
  /\ (forall m, In m (messages (db w)) ->
        (In m (messages swept) <-> In m (messages (remove_unreachable (db w))))).
Proof.
  intros Hwf Hid Hlog Hresolve sent swept. subst sent swept.
  destruct (do_send_message_rows message no_log w recipients Hwf Hid Hlog Hresolve)
    as (rows & Hdb & Hmap & Hall).
  set (mid := next_message_id (db w)) in *.
  rewrite Hdb, !remove_unreachable_messages_only. simpl.
  rewrite Forall_forall in Hall.
  assert (Hnew : forall i, In i (map UserMessage.message_id rows) -> i = mid).
  { intros i Hi. apply in_map_iff in Hi as (row & <- & Hrow).
    apply Hall. now apply list_elem_of_In. }
  assert (Hold : ~ In mid (map UserMessage.message_id (user_messages (db w)))).
  { intros Hin. apply in_map_iff in Hin as (row & Heq & Hrow).
    now apply (next_message_id_fresh (db w) row (wf_user_message_fk _ Hwf) Hrow). }
  split.
  - rewrite filter_In, negb_true_iff. unfold unreachable.
    change (Message.id (Message.set_id mid message)) with (Some mid).
    cbv iota. simpl user_messages.
    rewrite negb_false_iff, existsb_eqb_In, map_app, !in_app_iff.
    split.
    + intros [_ [Hin | Hin]]; [contradiction|].
      apply in_map_iff in Hin as (row & _ & Hrow).
      assert (Hp : In (UserMessage.user_profile_id row)
                      (map UserMessage.user_profile_id rows)) by now apply in_map.
      rewrite Hmap in Hp. apply in_map_iff in Hp as (p & _ & Hp).
      apply filter_In in Hp. exists p. exact Hp.
    + intros (p & Hp & Hact). split; [right; now left|].
      right.
      assert (Hin : In (UserProfile.id p) (map UserMessage.user_profile_id rows)).
      { rewrite Hmap. apply in_map, filter_In. auto. }
      apply in_map_iff in Hin as (row & _ & Hrow).
      assert (Hi : In (UserMessage.message_id row) (map UserMessage.message_id rows))
        by now apply in_map.
      now rewrite (Hnew _ Hi) in Hi.
  - intros m Hm. rewrite !filter_In, in_app_iff.
    assert (Hsame : unreachable
                      (with_user_messages (user_messages (db w) ++ rows)
                         (with_messages
                            (messages (db w) ++ [Message.set_id mid message]) (db w))) m
                    = unreachable (db w) m).
    { unfold unreachable. simpl user_messages.
      destruct (Message.id m) as [i|] eqn:Hi; [|reflexivity].
      f_equal. rewrite map_app, existsb_app.
      assert (Hne : i <> mid).
      { assert (Hin : In i (omap Message.id (messages (db w)))).
        { apply list_elem_of_In, list_elem_of_omap. exists m.
          split; [now apply list_elem_of_In | exact Hi]. }
        apply next_id_above in Hin. unfold mid, next_message_id. lia. }
      replace (existsb (Nat.eqb i) (map UserMessage.message_id rows)) with false;
        [apply orb_false_r|].
      symmetry. apply not_true_is_false. intros Hin.
      apply existsb_eqb_In in Hin. now apply Hnew in Hin. }
    rewrite Hsame. tauto.
Qed.

End SendAndSweep.

(** ** filter_by_subscriptions *)

Lemma fetch_recipients (subs : list Subscription.t) w rs w' :
  map_m (fun sub => Recipient_get_by_id (Subscription.recipient_id sub)) subs w
  = (Ok rs, w') ->
  w' = w /\ map Recipient.id rs = map Subscription.recipient_id subs.
Proof.
  revert rs w'. induction subs as [|s subs IH]; simpl; intros rs w' Hrun.
  - inversion Hrun. auto.
  - apply bind_inv_ok in Hrun as (r & w1 & Hget & Hrun).
    apply bind_inv_ok in Hrun as (rs' & w2 & Hrest & Hret).
    unfold Recipient_get_by_id in Hget. inversion Hget as [[Hr Hw]]. subst w1.
    apply IH in Hrest as [-> Hids]. inversion Hret; subst.
    split; [reflexivity|]. simpl. f_equal; [|exact Hids].
    apply objects_get_ok_inv in Hr.
    assert (Hin : In r [r]) by now left.
    rewrite <- Hr in Hin. apply filter_In in Hin as [_ Heq].
    now apply Nat.eqb_eq in Heq.
Qed.

Lemma fetch_recipients_total (subs : list Subscription.t) w :
  (forall s, In s subs ->
     exists r, Recipient_get_by_id (Subscription.recipient_id s) w = (Ok r, w)) ->
  exists rs,
    map_m (fun sub => Recipient_get_by_id (Subscription.recipient_id sub)) subs w
    = (Ok rs, w).
Proof.
  induction subs as [|s subs IH]; simpl; intros Hfk.
  - now exists [].
  - destruct (Hfk s (or_introl eq_refl)) as (r & Hr).
    destruct IH as (rs & Hrs); [intros; apply Hfk; now right|].
    exists (r :: rs).
    rewrite (bind_ok _ _ _ _ _ Hr), (bind_ok _ _ _ _ _ Hrs). reflexivity.
Qed.

Lemma existsb_map {A B} (f : A -> B) (p : B -> bool) (l : list A) :
  existsb p (map f l) = existsb (fun x => p (f x)) l.
Proof. induction l as [|x l IH]; simpl; [reflexivity | now rewrite IH]. Qed.

Lemma subscribed_among (s : Store) (uid rid : nat) (rs : list Recipient.t) :
  map Recipient.id rs
  = map Subscription.recipient_id
        (List.filter (fun x => (Subscription.user_profile_id x =? uid)
                               && Subscription.active x) (subscriptions s)) ->
  existsb (fun r => rid =? Recipient.id r) rs = true
  <-> actively_subscribed s uid rid.
Proof.
  intros Hids.
  rewrite <- (existsb_map Recipient.id (Nat.eqb rid)), Hids, existsb_eqb_In, in_map_iff.
  unfold actively_subscribed. split.
  - intros (x & Hrid & Hx). apply filter_In in Hx as [Hx Hpass].
    apply andb_true_iff in Hpass as [Hu Hact]. apply Nat.eqb_eq in Hu.
    exists x. auto.
  - intros (x & Hx & Hu & Hr & Hact). exists x. split; [exact Hr|].
    apply filter_In. split; [exact Hx|].
    apply andb_true_iff. split; [now apply Nat.eqb_eq | exact Hact].
Qed.

(** What filter_by_subscriptions returns, when it returns. *)
Lemma filter_by_subscriptions_ok (messages : list Message.t) (user : User.t) w l w' :
  filter_by_subscriptions messages user w = (Ok l, w') ->
  w' = w
  /\ exists p keep,
       UserProfile_get_by_user user w = (Ok p, w)
       /\ l = List.filter keep messages
       /\ forall m,
            keep m = true
            <-> actively_subscribed (db w) (UserProfile.id p)
                                    (Recipient.id (Message.recipient m))
                \/ (Recipient.type (Message.recipient m) = Recipient.PERSONAL
                    /\ Message.sender_id m = UserProfile.id p).
Proof.
  unfold filter_by_subscriptions. intros Hrun.
  apply bind_inv_ok in Hrun as (p & w1 & Hget & Hrun).
  assert (w1 = w) by (unfold UserProfile_get_by_user in Hget; now inversion Hget).
  subst w1.
  apply bind_inv_ok in Hrun as (subs & w1 & Hsubs & Hrun).
  unfold Subscription_filter_active in Hsubs. inversion Hsubs; subst subs w1.
  clear Hsubs.
  apply bind_inv_ok in Hrun as (rs & w1 & Hfetch & Hret).
  apply fetch_recipients in Hfetch as [-> Hids].
  inversion Hret; subst. split; [reflexivity|].
  exists p. eexists. split; [exact Hget | split; [reflexivity|]].
  intros m. cbv beta. rewrite orb_true_iff, andb_true_iff, !Nat.eqb_eq.
  now rewrite (subscribed_among (db w') _ _ rs Hids).
Qed.

Section Visibility.
Context {ext : Externals}.

(** X20. filter_by_subscriptions reads the store and writes nothing.  For a
    user with one profile, every active subscription of whom points at a
    stored recipient, it returns the given messages in their order, keeping
    a message exactly when the user holds an active subscription to its
    recipient or the message is a personal message that they sent; an
    inactive subscription shows nothing. *)
Theorem filter_by_subscriptions_visible
    (messages : list Message.t) (user : User.t) w (p : UserProfile.t) :
  UserProfile_get_by_user user w = (Ok p, w) ->
  (forall s, In s (subscriptions (db w)) ->
     Subscription.user_profile_id s = UserProfile.id p ->
     Subscription.active s = true ->
     exists r, Recipient_get_by_id (Subscription.recipient_id s) w = (Ok r, w)) ->
  exists keep,
    filter_by_subscriptions messages user w = (Ok (List.filter keep messages), w)
    /\ forall m,
         keep m = true
         <-> actively_subscribed (db w) (UserProfile.id p)
                                 (Recipient.id (Message.recipient m))
             \/ (Recipient.type (Message.recipient m) = Recipient.PERSONAL
                 /\ Message.sender_id m = UserProfile.id p).
Proof.
  intros Hget Hfk.
  destruct (fetch_recipients_total
              (List.filter (fun s => (Subscription.user_profile_id s =? UserProfile.id p)
                                     && Subscription.active s)
                           (subscriptions (db w))) w) as (rs & Hrs).
  { intros s Hs. apply filter_In in Hs as [Hs Hpass].
    apply andb_true_iff in Hpass as [Hu Hact]. apply Nat.eqb_eq in Hu.
    now apply Hfk. }
  assert (Hrun : exists l, filter_by_subscriptions messages user w = (Ok l, w)).
  { unfold filter_by_subscriptions.
    rewrite (bind_ok _ _ _ _ _ Hget).
    unfold Subscription_filter_active at 1. unfold bind at 1.
    rewrite (bind_ok _ _ _ _ _ Hrs). eexists. reflexivity. }
  destruct Hrun as (l & Hrun).
  destruct (filter_by_subscriptions_ok _ _ _ _ _ Hrun)
    as (_ & q & keep & Hq & -> & Hkeep).
  rewrite Hget in Hq. inversion Hq; subst q.
  exists keep. split; [exact Hrun | exact Hkeep].
Qed.

(** X21. The slow filter and the delivery agree: after do_send_message of a
    stream or huddle message, a user whose account is active sees the new
    message through filter_by_subscriptions exactly when do_send_message
    gave them a UserMessage row for it. *)
Theorem filter_by_subscriptions_matches_receipts
    (message : Message.t) (no_log : bool) w (user : User.t) (p : UserProfile.t)
    (l : list Message.t) w'' :
  wf_store (db w) ->
  Message.id message = None ->
  Recipient.type (Message.recipient message) = Recipient.STREAM
  \/ Recipient.type (Message.recipient message) = Recipient.HUDDLE ->
  fst (log_step message no_log w) = Ok tt ->
  UserProfile_get_by_user user w = (Ok p, w) ->
  User.is_active (UserProfile.user p) = true ->
  let sent := Message.set_id (next_message_id (db w)) message in
  let w' := snd (do_send_message message no_log w) in
  filter_by_subscriptions [sent] user w' = (Ok l, w'') ->
  In sent l
  <-> In (UserProfile.id p)
         (map UserMessage.user_profile_id (receipts_of (next_message_id (db w)) (db w'))).
Proof.
  intros Hwf Hid Htype Hlog Hget Hactive sent w' Hrun.
  pose proof (resolve_recipients_subscribed message w Htype) as Hresolve.
  destruct (do_send_message_store message no_log w _ Hwf Hid Hlog Hresolve)
    as (_ & Hrows & _).
  fold w' in Hrows. rewrite Hrows. clear Hrows.
  destruct (do_send_message_rows message no_log w _ Hwf Hid Hlog Hresolve)
    as (rows & Hdb & _).
  fold w' in Hdb.
  apply filter_by_subscriptions_ok in Hrun as (_ & q & keep & Hq & -> & Hkeep).
  assert (q = p).
  { unfold UserProfile_get_by_user in Hq, Hget. rewrite Hdb in Hq. simpl in Hq.
    inversion Hq as [Hq']. inversion Hget as [Hget']. congruence. }
  subst q.
  assert (Hp : In p (profiles (db w))).
  { unfold UserProfile_get_by_user in Hget. inversion Hget as [Hget'].
    apply objects_get_ok_inv in Hget'.
    assert (Hin : In p [p]) by now left.
    rewrite <- Hget' in Hin. now apply filter_In in Hin. }
  assert (Hsubs : forall rid, actively_subscribed (db w') (UserProfile.id p) rid
                              <-> actively_subscribed (db w) (UserProfile.id p) rid).
  { intros rid. unfold actively_subscribed. now rewrite Hdb. }
  assert (Hnot_personal :
            Recipient.type (Message.recipient sent) <> Recipient.PERSONAL).
  { subst sent. simpl. destruct Htype as [-> | ->]; discriminate. }
  simpl List.filter. rewrite in_map_iff.
  split.
  - intros Hin.
    assert (Hk : keep sent = true).
    { destruct (keep sent); [reflexivity | destruct Hin]. }
    apply Hkeep in Hk as [Hsub | [Hty _]]; [|contradiction].
    apply Hsubs in Hsub. exists p. split; [reflexivity|].
    apply filter_In. split; [|exact Hactive].
    apply subscribed_profiles_In. auto.
  - intros (q & Hqid & Hq').
    apply filter_In in Hq' as [Hq' _].
    apply subscribed_profiles_In in Hq' as [_ Hsub].
    rewrite Hqid in Hsub.
    assert (Hk : keep sent = true).
    { apply Hkeep. left. apply Hsubs. exact Hsub. }
    rewrite Hk. now left.
Qed.

End Visibility.

(** ** Which tables an operation writes *)

Lemma store_eq (s s' : Store) :
  profiles s' = profiles s -> streams s' = streams s ->
  recipients s' = recipients s -> clients s' = clients s ->
  huddles s' = huddles s -> subscriptions s' = subscriptions s ->
  messages s' = messages s -> user_messages s' = user_messages s ->
  s' = s.
Proof. destruct s, s'; simpl; intros; subst; reflexivity. Qed.

Lemma keeps_reads {A B} (f : World -> B) (c : M A) :
  (forall w r w', c w = (r, w') -> w' = w) -> keeps f c.
Proof.
  intros Hreads w. destruct (c w) as [r w'] eqn:Hc.
  now rewrite (Hreads _ _ _ Hc).
Qed.

Lemma stable_store {B} (g : Store -> B) : stable (fun w => g (db w)).
Proof. repeat split. Qed.

Section TableFrames.
Context {B : Type} (g : Store -> B).

Lemma Message_save_frame (m : Message.t) :
  (forall l s, g (with_messages l s) = g s) ->
  keeps (fun w => g (db w)) (Message_save m).
Proof.
  intros Hg w. unfold Message_save.
  destruct (Message.id m); [destruct (existsb _ _)|]; simpl; apply Hg.
Qed.

Lemma UserMessage_save_frame (p : UserProfile.t) (m : Message.t) :
  (forall l s, g (with_user_messages l s) = g s) ->
  keeps (fun w => g (db w)) (UserMessage_save p m).
Proof.
  intros Hg w. unfold UserMessage_save.
  destruct (Message.id m); [destruct (existsb _ _)|]; simpl;
    try reflexivity; apply Hg.
Qed.

Lemma Stream_create_frame realm name :
  (forall l s, g (with_streams l s) = g s) ->
  keeps (fun w => g (db w)) (Stream_create realm name).
Proof.
  intros Hg w. unfold Stream_create.
  destruct (existsb _ _); simpl; [reflexivity | apply Hg].
Qed.

Lemma Recipient_create_frame type_id type :
  (forall l s, g (with_recipients l s) = g s) ->
  keeps (fun w => g (db w)) (Recipient_create type_id type).
Proof.
  intros Hg w. unfold Recipient_create.
  destruct (existsb _ _); simpl; [reflexivity | apply Hg].
Qed.

Lemma Client_create_frame name :
  (forall l s, g (with_clients l s) = g s) ->
  keeps (fun w => g (db w)) (Client_create name).
Proof.
  intros Hg w. unfold Client_create.
  destruct (existsb _ _); simpl; [reflexivity | apply Hg].
Qed.

Lemma Huddle_create_frame huddle_hash :
  (forall l s, g (with_huddles l s) = g s) ->
  keeps (fun w => g (db w)) (Huddle_create huddle_hash).
Proof.
  intros Hg w. unfold Huddle_create.
  destruct (existsb _ _); simpl; [reflexivity | apply Hg].
Qed.

Lemma Subscription_create_frame uid rid active :
  (forall l s, g (with_subscriptions l s) = g s) ->
  keeps (fun w => g (db w)) (Subscription_create uid rid active).
Proof.
  intros Hg w. unfold Subscription_create.
  destruct (existsb _ _); simpl; [reflexivity | apply Hg].
Qed.

Context {ext : Externals}.

Lemma do_send_message_frame (m : Message.t) (no_log : bool) :
  (forall l s, g (with_messages l s) = g s) ->
  (forall l s, g (with_user_messages l s) = g s) ->
  keeps (fun w => g (db w)) (do_send_message m no_log).
Proof.
  intros Hm Hu. rewrite do_send_message_steps.
  apply keeps_bind; [apply log_step_keeps, stable_store|]. intros _.
  unfold deliver.
  apply keeps_bind; [apply keeps_reads, resolve_recipients_reads|]. intros recipients.
  apply keeps_bind; [|intros; apply notify_tornado_keeps, stable_store].
  unfold save_receipts. apply keeps_commit_on_success.
  apply keeps_bind; [now apply Message_save_frame|]. intros saved.
  apply keeps_bind; [|intros; apply keeps_ret].
  apply keeps_for_each. intros p.
  destruct (User.is_active _); [now apply UserMessage_save_frame | apply keeps_ret].
Qed.

Lemma create_stream_if_needed_frame realm name :
  (forall l s, g (with_streams l s) = g s) ->
  (forall l s, g (with_recipients l s) = g s) ->
  keeps (fun w => g (db w)) (create_stream_if_needed realm name).
Proof.
  intros Hs Hr. unfold create_stream_if_needed.
  apply keeps_bind.
  - apply keeps_get_or_create; [apply query_keeps | now apply Stream_create_frame].
  - intros [stream [|]]; apply keeps_bind; intros; try apply keeps_ret.
    apply keeps_bind; [now apply Recipient_create_frame | intros; apply keeps_ret].
Qed.

Lemma get_client_frame name :
  (forall l s, g (with_clients l s) = g s) ->
  keeps (fun w => g (db w)) (get_client name).
Proof.
  intros Hc. unfold get_client. apply keeps_commit_on_success, keeps_try_except.
  - apply keeps_bind; [|intros; apply keeps_ret].
    apply keeps_get_or_create; [apply query_keeps | now apply Client_create_frame].
  - apply keeps_bind; [apply keeps_emit, stable_store | intros; apply query_keeps].
Qed.

Lemma get_huddle_frame id_list :
  (forall l s, g (with_huddles l s) = g s) ->
  (forall l s, g (with_recipients l s) = g s) ->
  (forall l s, g (with_subscriptions l s) = g s) ->
  keeps (fun w => g (db w)) (get_huddle id_list).
Proof.
  intros Hh Hr Hs. unfold get_huddle.
  apply keeps_bind.
  - apply keeps_get_or_create; [apply query_keeps | now apply Huddle_create_frame].
  - intros [huddle [|]]; apply keeps_bind; intros; try apply keeps_ret.
    apply keeps_bind; [now apply Recipient_create_frame|]. intros recipient.
    apply keeps_for_each. intros uid.
    apply keeps_bind; [apply query_keeps|]. intros user_profile.
    apply keeps_bind; [now apply Subscription_create_frame | intros; apply keeps_ret].
Qed.

Lemma internal_send_message_frame sender_email recipient_type recipient_name
    subject content :
  (forall l s, g (with_streams l s) = g s) ->
  (forall l s, g (with_recipients l s) = g s) ->
  (forall l s, g (with_clients l s) = g s) ->
  (forall l s, g (with_messages l s) = g s) ->
  (forall l s, g (with_user_messages l s) = g s) ->
  keeps (fun w => g (db w))
        (internal_send_message sender_email recipient_type recipient_name
                               subject content).
Proof.
  intros Hs Hr Hc Hm Hu. unfold internal_send_message. cbv zeta.
  apply keeps_bind; [apply query_keeps|]. intros sender.
  apply keeps_bind; [now apply create_stream_if_needed_frame|]. intros stream.
  apply keeps_bind; [apply query_keeps|]. intros recipient.
  apply keeps_bind; [now apply get_client_frame|]. intros sending_client.
  now apply do_send_message_frame.
Qed.

End TableFrames.

Section Footprints.
Context {ext : Externals}.

(** X22. Each operation writes its own tables and no other, whether it
    returns or raises: do_send_message only Message and UserMessage;
    create_stream_if_needed only Stream and Recipient; get_client only
    Client; get_huddle only Huddle, Recipient and Subscription;
    internal_send_message only Stream, Recipient, Client, Message and
    UserMessage.  None of them touches the user profiles. *)
Theorem writes_stay_in_their_tables (w : World) :
  (forall message no_log,
      let s' := db (snd (do_send_message message no_log w)) in
      s' = with_user_messages (user_messages s')
             (with_messages (messages s') (db w)))
  /\ (forall realm name,
         let s' := db (snd (create_stream_if_needed realm name w)) in
         s' = with_recipients (recipients s') (with_streams (streams s') (db w)))
  /\ (forall name,
         let s' := db (snd (get_client name w)) in
         s' = with_clients (clients s') (db w))
  /\ (forall id_list,
         let s' := db (snd (get_huddle id_list w)) in
         s' = with_subscriptions (subscriptions s')
                (with_recipients (recipients s')
                   (with_huddles (huddles s') (db w))))
  /\ (forall sender_email recipient_type recipient_name subject content,
         let s' := db (snd (internal_send_message sender_email recipient_type
                                                  recipient_name subject content w)) in
         s' = with_user_messages (user_messages s')
                (with_messages (messages s')
                   (with_clients (clients s')
                      (with_recipients (recipients s')
                         (with_streams (streams s') (db w)))))).
Proof.
  split; [|split; [|split; [|split]]]; intros; subst s';
    apply store_eq; simpl; try reflexivity;
    match goal with
    | |- ?p (db (snd (do_send_message ?m ?n ?w0))) = _ =>
        apply (do_send_message_frame p m n); reflexivity
    | |- ?p (db (snd (create_stream_if_needed ?r ?n ?w0))) = _ =>
        apply (create_stream_if_needed_frame p r n); reflexivity
    | |- ?p (db (snd (get_client ?n ?w0))) = _ =>
        apply (get_client_frame p n); reflexivity
    | |- ?p (db (snd (get_huddle ?l ?w0))) = _ =>
        apply (get_huddle_frame p l); reflexivity
    | |- ?p (db (snd (internal_send_message ?a ?b ?c ?d ?e ?w0))) = _ =>
        apply (internal_send_message_frame p a b c d e); reflexivity
    end.
Qed.

End Footprints.

Section InternalSendAddress.
Context {ext : Externals}.

Lemma Client_get_name name w c w' :
  Client_get name w = (Ok c, w') -> Client.name c = name.
Proof.
  unfold Client_get. intros H. inversion H as [[Hq Hw]].
  apply objects_get_ok_inv in Hq.
  assert (Hin : In c [c]) by now left.
  rewrite <- Hq in Hin. apply filter_In in Hin as [_ Heq].
  now apply String.eqb_eq.
Qed.

Lemma Client_create_name name w c w' :
  Client_create name w = (Ok c, w') -> Client.name c = name.
Proof.
  unfold Client_create. destruct (existsb _ _); intros H; inversion H. reflexivity.
Qed.

Lemma get_client_name name w c w' :
  get_client name w = (Ok c, w') -> Client.name c = name.
Proof.
  unfold get_client, commit_on_success.
  match goal with |- context [match ?b w with _ => _ end] =>
    destruct (b w) as [[c0|e] w1] eqn:Hbody end; intros H; inversion H; subst.
  unfold try_except in Hbody.
  match type of Hbody with context [match ?b w with _ => _ end] =>
    destruct (b w) as [[c0|e] w2] eqn:Hgoc end.
  - inversion Hbody; subst.
    apply bind_inv_ok in Hgoc as ([c1 created] & w3 & Hgoc & Hret).
    inversion Hret; subst. simpl.
    apply get_or_create_inv_ok in Hgoc
      as [[_ Hget] | [[_ (w0 & _ & Hmk)] | [_ (w0 & w0' & _ & _ & Hget)]]].
    + eapply Client_get_name; eassumption.
    + eapply Client_create_name; eassumption.
    + eapply Client_get_name; eassumption.
  - destruct (decide (e = IntegrityError)); [|discriminate].
    apply bind_inv_ok in Hbody as ([] & w3 & _ & Hget).
    eapply Client_get_name; eassumption.
Qed.

(** X23. internal_send_message always addresses a stream: whenever it
    returns, the message it stored is from the profile with the given
    e-mail address, through the client named 'Internal', dated by the
    clock, and its recipient row has the given type and, as type_id, the
    id of the stream of the sender's realm whose name is recipient_name up
    to case -- whatever recipient_type is. *)
Theorem internal_send_message_addresses_a_stream
    (sender_email : string) (recipient_type : nat) (recipient_name : string)
    (subject content : string) w w' :
  internal_send_message sender_email recipient_type recipient_name subject content w
  = (Ok tt, w') ->
  exists sender stream row,
    In sender (profiles (db w))
    /\ User.email (UserProfile.user sender) = sender_email
    /\ List.filter (same_stream (UserProfile.realm sender) recipient_name)
                   (streams (db w')) = [stream]
    /\ messages (db w') = (messages (db w) ++ [row])%list
    /\ Message.sender row = sender
    /\ Message.subject row = subject
    /\ Message.pub_date row = timezone_now
    /\ Client.name (Message.sending_client row) = "Internal"
    /\ In (Message.recipient row) (recipients (db w'))
    /\ Recipient.type (Message.recipient row) = recipient_type
    /\ Recipient.type_id (Message.recipient row) = Stream.id stream.
Proof.
  unfold internal_send_message. cbv zeta. intros Hrun.
  apply bind_inv_ok in Hrun as (sender & w1 & Hsender & Hrun).
  unfold UserProfile_get_by_email in Hsender.
  inversion Hsender as [[Hq Hw]]. subst w1.
  apply objects_get_ok_inv in Hq.
  assert (Hin : In sender [sender]) by now left.
  rewrite <- Hq in Hin. apply filter_In in Hin as [Hin Hemail].
  apply String.eqb_eq in Hemail.
  apply bind_inv_ok in Hrun as (stream & w2 & Hstream & Hrun).
  pose proof (create_stream_if_needed_keeps_messages
                (UserProfile.realm sender) recipient_name w) as Hk2.
  rewrite Hstream in Hk2. simpl in Hk2.
  apply create_stream_if_needed_one in Hstream.
  apply bind_inv_ok in Hrun as (recipient & w3 & Hrecipient & Hrun).
  unfold Recipient_get in Hrecipient.
  inversion Hrecipient as [[Hq3 Hw3]]. subst w3.
  apply objects_get_ok_inv in Hq3.
  assert (Hr : In recipient [recipient]) by now left.
  rewrite <- Hq3 in Hr. apply filter_In in Hr as [Hr Hpass].
  apply andb_true_iff in Hpass as [Htid Hty].
  apply Nat.eqb_eq in Htid, Hty.
  apply bind_inv_ok in Hrun as (client & w4 & Hclient & Hrun).
  pose proof (get_client_keeps_messages "Internal" w2) as Hk4.
  rewrite Hclient in Hk4. simpl in Hk4.
  pose proof (get_client_frame streams "Internal" ltac:(reflexivity) w2) as Hs4.
  rewrite Hclient in Hs4. simpl in Hs4.
  pose proof (get_client_frame recipients "Internal" ltac:(reflexivity) w2) as Hr4.
  rewrite Hclient in Hr4. simpl in Hr4.
  apply get_client_name in Hclient.
  match type of Hrun with do_send_message ?m ?n w4 = _ =>
    pose proof (do_send_message_frame streams m n
                  ltac:(reflexivity) ltac:(reflexivity) w4) as Hs5;
    pose proof (do_send_message_frame recipients m n
                  ltac:(reflexivity) ltac:(reflexivity) w4) as Hr5
  end.
  rewrite Hrun in Hs5, Hr5. simpl in Hs5, Hr5.
  apply do_send_message_persists in Hrun; [|reflexivity].
  exists sender, stream. eexists.
  split; [exact Hin | split; [exact Hemail|]].
  split; [now rewrite Hs5, Hs4|].
  split; [rewrite Hrun, Hk4, Hk2; reflexivity|].
  simpl. repeat split; try assumption.
  now rewrite Hr5, Hr4.
Qed.

End InternalSendAddress.

Section HuddleDelivery.
Context {ext : Externals}.

(** X24. A first get_huddle for distinct ids of existing users and a
    message to the Recipient it created: the UserMessage rows of the
    message go to the members of the list whose account is active, and to
    nobody else. *)
Theorem huddle_message_reaches_members
    (id_list : list nat) w (message : Message.t) (no_log : bool) :
  wf_store (db w) ->
  NoDup id_list ->
  (forall uid, In uid id_list ->
     exists p, objects_get (fun p => UserProfile.id p =? uid) (profiles (db w)) = Ok p) ->
  List.filter (fun h => String.eqb (Huddle.huddle_hash h) (get_huddle_hash id_list))
              (huddles (db w)) = [] ->
  (forall r, In r (recipients (db w)) -> Recipient.type r = Recipient.HUDDLE ->
             In (Recipient.type_id r) (map Huddle.id (huddles (db w)))) ->
  (forall s, In s (subscriptions (db w)) ->
             In (Subscription.recipient_id s) (map Recipient.id (recipients (db w)))) ->
  let w1 := snd (get_huddle id_list w) in
  let h := Huddle.mk (next_id (map Huddle.id (huddles (db w))))
                     (get_huddle_hash id_list) in
  let r := Recipient.mk (next_id (map Recipient.id (recipients (db w))))
                        (Huddle.id h) Recipient.HUDDLE in
  Message.id message = None ->
  Message.recipient message = r ->
  fst (log_step message no_log w1) = Ok tt ->
  fst (get_huddle id_list w) = Ok h
  /\ In r (recipients (db w1))
  /\ forall uid,
       In uid (map UserMessage.user_profile_id
                   (receipts_of (next_message_id (db w1))
                                (db (snd (do_send_message message no_log w1)))))
       <-> In uid id_list
           /\ exists p, In p (profiles (db w)) /\ UserProfile.id p = uid
                        /\ User.is_active (UserProfile.user p) = true.
Proof.
  intros Hwf Hnd Hprofiles Hnew Hrfk Hsfk w1 h r Hid Hto Hlog.
  destruct (get_huddle_first_resolution id_list w Hnd Hprofiles Hnew Hrfk Hsfk)
    as (rows & w1' & Hrun & Hh & Hr & Hs & Hmembers & Hrows).
  fold h in Hrun. fold h r in Hr. fold h r in Hrows.
  assert (w1' = w1) by (unfold w1; now rewrite Hrun). subst w1'.
  assert (Hwf1 : wf_store (db w1)) by (apply get_huddle_wf; exact Hwf).
  assert (Hprof : profiles (db w1) = profiles (db w)).
  { unfold w1. apply (get_huddle_frame profiles id_list); reflexivity. }
  split; [now rewrite Hrun|].
  split; [rewrite Hr; apply in_or_app; right; now left|].
  assert (Htype : Recipient.type (Message.recipient message) = Recipient.STREAM
                  \/ Recipient.type (Message.recipient message) = Recipient.HUDDLE)
    by (right; now rewrite Hto).
  pose proof (resolve_recipients_subscribed message w1 Htype) as Hresolve.
  destruct (do_send_message_store message no_log w1 _ Hwf1 Hid Hlog Hresolve)
    as (_ & Hreceipts & _).
  assert (Hsub : forall uid, actively_subscribed (db w1) uid (Recipient.id r)
                             <-> In uid id_list).
  { intros uid. unfold actively_subscribed. rewrite Hs. split.
    - intros (x & Hx & Hu & Hrid & _). apply in_app_or in Hx as [Hx | Hx].
      + exfalso. apply Hsfk in Hx. rewrite Hrid in Hx.
        apply next_id_above in Hx. simpl in Hx. lia.
      + rewrite <- Hmembers, <- Hu. now apply in_map.
    - intros Hin. rewrite <- Hmembers in Hin.
      apply in_map_iff in Hin as (x & Hu & Hx). exists x.
      rewrite Forall_forall in Hrows.
      destruct (Hrows x) as [Hrid Hact]; [now apply list_elem_of_In|].
      split; [apply in_or_app; now right | auto]. }
  intros uid. rewrite Hreceipts, in_map_iff, Hto. split.
  - intros (p & Hp & Hpin). apply filter_In in Hpin as [Hpin Hact].
    apply subscribed_profiles_In in Hpin as [Hin Hactive].
    rewrite Hp in Hactive. split; [now apply Hsub|].
    exists p. rewrite <- Hprof. auto.
  - intros (Hin & p & Hp & Hpid & Hact). exists p. split; [exact Hpid|].
    apply filter_In. split; [|exact Hact].
    apply subscribed_profiles_In. rewrite Hprof, Hpid. split; [exact Hp|].
    now apply Hsub.
Qed.

End HuddleDelivery.

(** ** The key of a huddle names its member set *)

Lemma pretty_N_char_not_comma (x : N) : Ascii.eqb (pretty_N_char x) comma = false.
Proof.
  unfold pretty_N_char. repeat case_match; reflexivity.
Qed.

Lemma pretty_N_go_no_comma (x : N) (s : string) :
  occurs comma s = false -> occurs comma (pretty_N_go x s) = false.
Proof.
  revert s. induction (N.lt_wf_0 x) as [x _ IH]. intros s Hs.
  destruct (decide (x = 0)%N) as [->|Hx]; [now rewrite pretty_N_go_0|].
  rewrite pretty_N_go_step by lia. apply IH.
  - apply N.div_lt; lia.
  - simpl. now rewrite pretty_N_char_not_comma.
Qed.

Lemma pretty_N_go_not_empty (x : N) (s : string) :
  s <> EmptyString -> pretty_N_go x s <> EmptyString.
Proof.
  revert s. induction (N.lt_wf_0 x) as [x _ IH]. intros s Hs.
  destruct (decide (x = 0)%N) as [->|Hx]; [now rewrite pretty_N_go_0|].
  rewrite pretty_N_go_step by lia. apply IH; [apply N.div_lt; lia | discriminate].
Qed.

Lemma pretty_nat_no_comma (n : nat) : occurs comma (pretty n) = false.
Proof.
  unfold pretty, pretty_nat, pretty, pretty_N.
  destruct (decide _); [reflexivity | now apply pretty_N_go_no_comma].
Qed.

Lemma pretty_nat_not_empty (n : nat) : pretty n <> EmptyString.
Proof.
  unfold pretty, pretty_nat, pretty, pretty_N.
  destruct (decide _) as [|Hn]; [discriminate|].
  rewrite pretty_N_go_step by lia. apply pretty_N_go_not_empty. discriminate.
Qed.

Lemma split_at_comma (x y r1 r2 : string) :
  occurs comma x = false -> occurs comma y = false ->
  rest_of_join r1 -> rest_of_join r2 ->
  (x ++ r1)%string = (y ++ r2)%string -> x = y /\ r1 = r2.
Proof.
  revert y. induction x as [|a x IH]; intros [|b y] Hx Hy Hr1 Hr2 Heq; simpl in *.
  - auto.
  - exfalso. destruct Hr1 as [-> | (r' & ->)]; [discriminate|].
    inversion Heq; subst b. unfold comma in Hy. now rewrite Ascii.eqb_refl in Hy.
  - exfalso. destruct Hr2 as [-> | (r' & ->)]; [discriminate|].
    inversion Heq; subst a. unfold comma in Hx. now rewrite Ascii.eqb_refl in Hx.
  - inversion Heq; subst b.
    apply orb_false_iff in Hx as [_ Hx]. apply orb_false_iff in Hy as [_ Hy].
    destruct (IH y Hx Hy Hr1 Hr2) as [-> ->]; auto.
Qed.

Lemma append_empty_r (s : string) : (s ++ EmptyString)%string = s.
Proof.
  induction s as [|a s IH]; [reflexivity|].
  change (String a (s ++ EmptyString)%string = String a s). now rewrite IH.
Qed.

Lemma concat_cons (x : string) (xs : list string) :
  String.concat "," (x :: xs)
  = (x ++ match xs with
          | [] => EmptyString
          | _ :: _ => String comma (String.concat "," xs)
          end)%string.
Proof.
  destruct xs as [|y ys]; [|reflexivity].
  symmetry. apply append_empty_r.
Qed.

Lemma concat_comma_inj (l1 l2 : list string) :
  Forall (fun s => occurs comma s = false /\ s <> EmptyString) l1 ->
  Forall (fun s => occurs comma s = false /\ s <> EmptyString) l2 ->
  String.concat "," l1 = String.concat "," l2 -> l1 = l2.
Proof.
  intros H1. revert l2.
  induction H1 as [|x xs [Hx Hxne] Hxs IH]; intros l2 H2 Heq.
  - destruct H2 as [|y ys [Hy Hyne] Hys]; [reflexivity|].
    rewrite concat_cons in Heq. simpl in Heq.
    destruct y; [contradiction | discriminate].
  - destruct H2 as [|y ys [Hy Hyne] Hys].
    + rewrite concat_cons in Heq. simpl in Heq.
      destruct x; [contradiction | discriminate].
    + rewrite !concat_cons in Heq.
      apply split_at_comma in Heq as [-> Hrest]; try assumption.
      * f_equal. destruct xs as [|x' xs], ys as [|y' ys];
          try reflexivity; try discriminate.
        inversion Hrest as [Hc]. now apply IH.
      * destruct xs; [now left | right; eauto].
      * destruct ys; [now left | right; eauto].
Qed.

Lemma map_pretty_inj (l1 l2 : list nat) :
  map pretty l1 = map pretty l2 -> l1 = l2.
Proof.
  revert l2. induction l1 as [|a l1 IH]; intros [|b l2] Heq;
    try discriminate; [reflexivity|].
  inversion Heq as [[Hab Hrest]]. f_equal; [now apply (inj pretty) | now apply IH].
Qed.

Lemma hash_key_inj (l1 l2 : list nat) :
  hash_key l1 = hash_key l2 -> sorted_set l1 = sorted_set l2.
Proof.
  unfold hash_key. intros Heq. apply map_pretty_inj.
  apply concat_comma_inj; [| |exact Heq];
    apply Forall_forall; intros s Hs; apply list_elem_of_In, in_map_iff in Hs
      as (n & <- & _);
    (split; [apply pretty_nat_no_comma | apply pretty_nat_not_empty]).
Qed.

Section HuddleKeys.
Context {ext : Externals}.

(** X25. The string that get_huddle_hash digests names the member set and
    nothing less: two id lists have the same key exactly when they have
    the same members ("1,23" and "12,3" are different keys).  So two
    different member sets get the same huddle only if the digest collides
    on their keys. *)
Theorem hash_key_names_the_member_set (l1 l2 : list nat) :
  get_huddle_hash l1 = sha1_hexdigest (hash_key l1)
  /\ (hash_key l1 = hash_key l2 <-> forall x, In x l1 <-> In x l2)
  /\ (get_huddle_hash l1 = get_huddle_hash l2 ->
      (forall x, In x l1 <-> In x l2)
      \/ (hash_key l1 <> hash_key l2
          /\ sha1_hexdigest (hash_key l1) = sha1_hexdigest (hash_key l2))).
Proof.
  assert (Hexact : hash_key l1 = hash_key l2 <-> forall x, In x l1 <-> In x l2).
  { split.
    - intros Heq x. apply hash_key_inj in Heq.
      now rewrite <- (sorted_set_In l1), <- (sorted_set_In l2), Heq.
    - intros Hsame. unfold hash_key. now rewrite (sorted_set_same l1 l2 Hsame). }
  split; [reflexivity | split; [exact Hexact|]].
  intros Hhash. destruct (string_dec (hash_key l1) (hash_key l2)) as [Heq|Hne].
  - left. now apply Hexact.
  - right. split; [exact Hne | exact Hhash].
Qed.

End HuddleKeys.

(** ** Stream.create and the lookup by name *)

Lemma objects_get_two {A} (p : A -> bool) (l : list A) (a b : A) :
  In a l -> p a = true -> p b = true ->
  objects_get p (l ++ [b]) = Raise MultipleObjectsReturned.
Proof.
  intros Ha Hpa Hpb. unfold objects_get. rewrite List.filter_app. simpl.
  rewrite Hpb.
  assert (Hin : In a (List.filter p l)) by (apply filter_In; auto).
  destruct (List.filter p l) as [|x [|y rest]]; [destruct Hin | reflexivity..].
Qed.

Lemma get_or_create_ambiguous {A} (get create : M A) w w1 :
  get w = (Raise MultipleObjectsReturned, w1) ->
  get_or_create get create w = (Raise MultipleObjectsReturned, w1).
Proof.
  intros Hget. unfold get_or_create, try_except.
  rewrite (bind_raise _ _ _ _ _ Hget).
  destruct (decide (MultipleObjectsReturned = DoesNotExist)); [discriminate|].
  reflexivity.
Qed.

(** X26. Stream.create compares names exactly, create_stream_if_needed
    up to case.  So in a realm that has a stream, Stream.create with a
    name that differs from it in case only succeeds, adding a second
    stream and its Recipient; and from then on create_stream_if_needed
    for that name, in either spelling, raises MultipleObjectsReturned
    and writes nothing. *)
Theorem Stream_create_case_variant
    (realm : Realm.t) (name name' : string) (existing : Stream.t) w :
  In existing (streams (db w)) ->
  same_stream realm name existing = true ->
  lower name' = lower name ->
  (forall s, In s (streams (db w)) ->
             Realm.id (Stream.realm s) = Realm.id realm -> Stream.name s <> name') ->
  (forall r, In r (recipients (db w)) -> Recipient.type r = Recipient.STREAM ->
             In (Recipient.type_id r) (map Stream.id (streams (db w)))) ->
  let stream := Stream.mk (next_id (map Stream.id (streams (db w)))) name' realm in
  let recipient := Recipient.mk (next_id (map Recipient.id (recipients (db w))))
                                (Stream.id stream) Recipient.STREAM in
  exists w',
    Stream_classmethod_create name' realm w = (Ok (stream, recipient), w')
    /\ streams (db w') = (streams (db w) ++ [stream])%list
    /\ recipients (db w') = (recipients (db w) ++ [recipient])%list
    /\ create_stream_if_needed realm name w' = (Raise MultipleObjectsReturned, w')
    /\ create_stream_if_needed realm name' w' = (Raise MultipleObjectsReturned, w').
Proof.
  intros Hin Hsame Hcase Hexact Hfk stream recipient.
  set (w1 := record (DbInsert TStream (Stream.id stream))
               (set_db (with_streams (streams (db w) ++ [stream]) (db w)) w)).
  set (w2 := record (DbInsert TRecipient (Recipient.id recipient))
               (set_db (with_recipients (recipients (db w1) ++ [recipient]) (db w1)) w1)).
  assert (Hcreate : Stream_create realm name' w = (Ok stream, w1)).
  { unfold Stream_create. rewrite existsb_false_intro; [reflexivity|].
    intros x Hx. apply andb_false_iff.
    destruct (Nat.eqb_spec (Realm.id (Stream.realm x)) (Realm.id realm)) as [Hr|];
      [left | now right].
    apply String.eqb_neq. now apply Hexact. }
  assert (Hrecipient :
    Recipient_create (Stream.id stream) Recipient.STREAM w1 = (Ok recipient, w2)).
  { unfold Recipient_create. rewrite existsb_false_intro; [reflexivity|].
    intros r Hr. simpl in Hr. apply andb_false_iff.
    destruct (Nat.eqb_spec (Recipient.type r) Recipient.STREAM) as [Hty|];
      [right | now left].
    apply Nat.eqb_neq. intros Heq.
    pose proof (next_id_above _ _ (Hfk r Hr Hty)) as Hlt. simpl in Heq. lia. }
  assert (Hambiguous : forall n, lower n = lower name ->
            create_stream_if_needed realm n w2 = (Raise MultipleObjectsReturned, w2)).
  { intros n Hn. unfold create_stream_if_needed.
    apply bind_raise. apply get_or_create_ambiguous.
    unfold Stream_get_iexact. simpl streams. f_equal.
    fold (same_stream realm n).
    apply (objects_get_two _ _ existing); [exact Hin | |].
    - unfold same_stream in *. now rewrite Hn.
    - unfold same_stream. simpl. now rewrite Nat.eqb_refl, Hcase, Hn, String.eqb_refl. }
  exists w2. split; [|split; [reflexivity | split; [reflexivity | split]]].
  - unfold Stream_classmethod_create.
    rewrite (bind_ok _ _ _ _ _ Hcreate), (bind_ok _ _ _ _ _ Hrecipient). reflexivity.
  - now apply Hambiguous.
  - now apply Hambiguous.
Qed.

Lemma Stream_create_case_variant_witness :
  let created := Stream_classmethod_create "General" Demo.example_com Demo.world in
  fst created = Ok (Stream.mk 2 "General" Demo.example_com,
                    Recipient.mk 6 2 Recipient.STREAM)
  /\ fst (create_stream_if_needed Demo.example_com "general" (snd created))
     = Raise MultipleObjectsReturned.
Proof.
  destruct (Stream_create_case_variant Demo.example_com "general" "General"
              Demo.general Demo.world
              ltac:(now left) eq_refl eq_refl) as (w' & Hrun & _ & _ & Hlookup & _).
  - intros s Hs _. simpl in Hs. destruct Hs as [<- | []]. discriminate.
  - intros r Hr Hty. simpl in Hr.
    destruct Hr as [<- | [<- | [<- | [<- | [<- | []]]]]];
      try discriminate Hty. now left.
  - cbv zeta. rewrite Hrun. cbn [fst snd].
    split; [reflexivity | now rewrite Hlookup].
Defined.

(** ** The properties at the small installation *)

Lemma create_stream_if_needed_idempotent_witness :
  create_stream_if_needed Demo.example_com "General" Demo.world
  = (Ok Demo.general, Demo.world)
  /\ create_stream_if_needed Demo.example_com "GENERAL" Demo.world
     = (Ok Demo.general, Demo.world).
Proof.
  assert (Hrun : create_stream_if_needed Demo.example_com
                   "General" Demo.world = (Ok Demo.general, Demo.world))
    by reflexivity.
  split; [exact Hrun|].
  destruct (create_stream_if_needed_idempotent _ _ _ _ _ Hrun)
    as (_ & _ & Hagain).
  apply Hagain. reflexivity.
Defined.

Lemma create_stream_if_needed_creates_witness :
  fst (create_stream_if_needed Demo.example_com "announce" Demo.world)
  = Ok (Stream.mk 2 "announce" Demo.example_com)
  /\ fst (Recipient_get 2 Recipient.STREAM
            (snd (create_stream_if_needed Demo.example_com
                    "announce" Demo.world)))
     = Ok (Recipient.mk 6 2 Recipient.STREAM).
Proof.
  destruct (create_stream_if_needed_creates Demo.example_com
              "announce" Demo.world eq_refl) as (w' & Hrun & _ & Hget).
  { intros r Hr Hty. simpl in Hr.
    destruct Hr as [<- | [<- | [<- | [<- | [<- | []]]]]];
      try discriminate Hty. now left. }
  rewrite Hrun. split; [reflexivity|].
  change (fst (Recipient_get 2 Recipient.STREAM w') = Ok (Recipient.mk 6 2 Recipient.STREAM)).
  exact (f_equal fst Hget).
Defined.

Lemma get_client_idempotent_witness :
  exists c, fst (get_client "Internal" Demo.world) = Ok c
            /\ Client.name c = "Internal"
            /\ fst (get_client "Internal"
                      (snd (get_client "Internal" Demo.world)))
               = Ok c.
Proof.
  destruct (get_client_idempotent "Internal" Demo.world)
    as (c & w' & Hrun & Hname & _ & _ & Hagain & _).
  { apply (bool_decide_unpack _). vm_compute. exact I. }
  exists c. rewrite Hrun. simpl. auto.
Defined.

Lemma do_send_message_all_or_nothing_witness :
  let sent := @do_send_message Outage.no_gateway
                (Demo.message Demo.A Demo.to_general "hello") true Demo.world in
  let again := @do_send_message Outage.no_gateway
                 (Message.set_id 1 (Demo.message Demo.A Demo.to_general "hello"))
                 true (snd sent) in
  fst again = Raise IntegrityError /\ db (snd again) = db (snd sent).
Proof.
  intros sent again.
  assert (Hraise : fst again = Raise IntegrityError) by (vm_compute; reflexivity).
  split; [exact Hraise|].
  destruct (@do_send_message_all_or_nothing Outage.no_gateway
              (Message.set_id 1 (Demo.message Demo.A Demo.to_general "hello"))
              true (snd sent) IntegrityError Hraise)
    as [Hsame | [Hon _]]; [exact Hsame | now destruct Hon].
Defined.

Lemma do_send_message_keeps_constraints_witness :
  wf_store (db (snd (@do_send_message Demo.externals
                       (Demo.message Demo.A Demo.to_general "hello")
                       false Demo.world))).
Proof.
  exact (@do_send_message_keeps_constraints Demo.externals
           (Demo.message Demo.A Demo.to_general "hello") false Demo.world
           example_store_wf eq_refl).
Defined.

Lemma do_send_message_effect_order_witness :
  let w' := snd (@do_send_message Demo.externals
                   (Demo.message Demo.A Demo.to_general "hello")
                   false Demo.world) in
  exists logged request,
    history w'
    = (history Demo.world ++ logged
       ++ DbInsert TMessage 1
          :: map (fun r => DbInsert TUserMessage (UserMessage.id r))
                 (receipts_of 1 (db w'))
       ++ [DbCommit; HttpPost request])%list
    /\ (logged = [] \/ exists event, logged = [LogAppend event]).
Proof.
  exact (@do_send_message_effect_order Demo.externals
           (Demo.message Demo.A Demo.to_general "hello") false Demo.world
           [Demo.A; Demo.B; Demo.C]
           example_store_wf eq_refl
           ltac:(discriminate) ltac:(vm_compute; reflexivity)
           ltac:(vm_compute; reflexivity)).
Defined.

Lemma personal_fanout_accounts_witness :
  let w' := snd (@do_send_message Demo.externals
                   (Demo.message Demo.A Demo.to_C "hello") false Demo.world) in
  In 1 (map UserMessage.user_profile_id (receipts_of 1 (db w')))
  /\ ~ In 3 (map UserMessage.user_profile_id (receipts_of 1 (db w'))).
Proof.
  destruct (@personal_fanout_accounts Demo.externals
              (Demo.message Demo.A Demo.to_C "hello") false Demo.world
              Demo.C Demo.A
              example_store_wf example_user_hash_coherent eq_refl eq_refl
              ltac:(vm_compute; reflexivity)
              ltac:(vm_compute; reflexivity) ltac:(vm_compute; reflexivity)
              ltac:(simpl; discriminate))
    as (_ & Htarget & Hsender & _).
  split.
  - apply Hsender. reflexivity.
  - intros Hin. apply Htarget in Hin. discriminate Hin.
Defined.

Lemma gateway_failure_keeps_delivery_witness :
  let run := @do_send_message Outage.gateway_down
               (Demo.message Demo.A Demo.to_general "hello") true Demo.world in
  is_ok (fst run) = false
  /\ In (Message.set_id 1 (Demo.message Demo.A Demo.to_general "hello"))
        (messages (db (snd run)))
  /\ map UserMessage.user_profile_id (receipts_of 1 (db (snd run))) = [1; 2].
Proof.
  exact (@gateway_failure_keeps_delivery Outage.gateway_down
           (Demo.message Demo.A Demo.to_general "hello") true Demo.world
           [Demo.A; Demo.B; Demo.C]
           example_store_wf eq_refl eq_refl
           ltac:(vm_compute; reflexivity) ltac:(discriminate)
           (fun _ => eq_refl)).
Defined.

Lemma subscription_changes_are_logged_witness :
  message_log (snd (@do_add_subscription Demo.externals Demo.D Demo.general
                      false Demo.world))
  = [@subscription_added Demo.externals Demo.D Demo.general]
  /\ message_log (snd (@do_remove_subscription Demo.externals Demo.D Demo.general
                         false Demo.world)) = [].
Proof.
  exact (@subscription_changes_are_logged Demo.externals Demo.D Demo.general
           false Demo.world Demo.to_general example_store_wf eq_refl).
Defined.

Lemma subscription_change_is_local_witness :
  subscription_of
    (db (snd (@do_remove_subscription Demo.externals Demo.A Demo.general
                false Demo.world))) 2 5
  = Some (Subscription.mk 6 2 5 true).
Proof.
  destruct (@subscription_change_is_local Demo.externals Demo.A Demo.general
              false Demo.world Demo.to_general 2 5 example_store_wf eq_refl
              ltac:(discriminate)) as (_ & _ & Hremoved & _).
  exact Hremoved.
Defined.

Lemma subscription_changes_keep_constraints_witness :
  wf_store (db (snd (@do_add_subscription Demo.externals Demo.D Demo.general
                       false Demo.world)))
  /\ wf_store (db (snd (@do_remove_subscription Demo.externals Demo.D Demo.general
                          false Demo.world))).
Proof.
  exact (@subscription_changes_keep_constraints Demo.externals Demo.D Demo.general
           false Demo.world example_store_wf).
Defined.

Lemma unsubscribe_then_subscribe_witness :
  let removed := @do_remove_subscription Demo.externals Demo.A Demo.general
                   false Demo.world in
  let added := @do_add_subscription Demo.externals Demo.A Demo.general
                 false (snd removed) in
  fst removed = Ok true /\ fst added = Ok true /\ db (snd added) = db Demo.world.
Proof.
  exact (@unsubscribe_then_subscribe Demo.externals Demo.A Demo.general
           false Demo.world Demo.to_general example_store_wf eq_refl eq_refl).
Defined.

Lemma subscription_controls_delivery_witness :
  let receivers w0 :=
    map UserMessage.user_profile_id
        (receipts_of (next_message_id (db w0))
           (db (snd (@do_send_message Demo.externals
                       (Demo.message Demo.A Demo.to_general "hello") true w0)))) in
  In 4 (receivers (snd (@do_add_subscription Demo.externals Demo.D Demo.general
                          false Demo.world)))
  /\ ~ In 4 (receivers (snd (@do_remove_subscription Demo.externals Demo.D
                               Demo.general false Demo.world))).
Proof.
  destruct (@subscription_controls_delivery Demo.externals Demo.D Demo.general
              false Demo.world Demo.to_general
              (Demo.message Demo.A Demo.to_general "hello") true
              example_store_wf eq_refl
              ltac:(simpl; auto) eq_refl eq_refl eq_refl) as [Hadd Hremove].
  split; [apply Hadd | apply Hremove]; reflexivity.
Defined.

Lemma creation_keeps_constraints_witness :
  wf_store (db (snd (@get_huddle Demo.externals [1; 1; 2; 3] Demo.world)))
  /\ wf_store (db (snd (@internal_send_message Demo.externals "a@example.com"
                          Recipient.STREAM "announce" "subject" "content"
                          Demo.world))).
Proof.
  destruct (@creation_keeps_constraints Demo.externals Demo.world example_store_wf)
    as (_ & _ & Hhuddle & Hsend).
  split; [apply Hhuddle | apply Hsend].
Defined.

Lemma unreceived_message_is_swept_witness :
  let sent := Message.set_id 1 (Demo.message Demo.C Demo.to_C "hello") in
  let w' := snd (@do_send_message Demo.externals
                   (Demo.message Demo.C Demo.to_C "hello") true Demo.world) in
  In sent (messages (db w')) /\ ~ In sent (messages (remove_unreachable (db w'))).
Proof.
  intros sent w'.
  destruct (@unreceived_message_is_swept Demo.externals
              (Demo.message Demo.C Demo.to_C "hello") true Demo.world [Demo.C]
              example_store_wf eq_refl eq_refl ltac:(vm_compute; reflexivity))
    as [Hsent _].
  split; [vm_compute; now left|].
  intros Hin. apply Hsent in Hin as (p & [<- | []] & Hactive).
  discriminate Hactive.
Defined.

Lemma filter_by_subscriptions_visible_witness :
  let to_stream := Demo.message Demo.A Demo.to_general "to the stream" in
  let from_B := Demo.message Demo.B Demo.to_A "from B" in
  let messages := [to_stream; Demo.message Demo.A Demo.to_A "to A"; from_B] in
  exists keep,
    filter_by_subscriptions messages (UserProfile.user Demo.B) Demo.world
    = (Ok (List.filter keep messages), Demo.world)
    /\ keep to_stream = true /\ keep from_B = true.
Proof.
  intros to_stream from_B messages.
  destruct (filter_by_subscriptions_visible messages (UserProfile.user Demo.B)
              Demo.world Demo.B eq_refl) as (keep & Hrun & Hkeep).
  { intros s Hs Hu Hact. simpl in Hs.
    destruct Hs as [<- | [<- | [<- | [<- | [<- | [<- | [<- | []]]]]]]];
      try discriminate Hu; eexists; reflexivity. }
  exists keep. split; [exact Hrun | split; apply Hkeep].
  - left. exists (Subscription.mk 6 2 5 true). simpl. auto 10.
  - right. split; reflexivity.
Defined.

Lemma filter_by_subscriptions_matches_receipts_witness :
  In 2 (map UserMessage.user_profile_id
            (receipts_of 1
               (db (snd (@do_send_message Demo.externals
                           (Demo.message Demo.A Demo.to_general "hello")
                           true Demo.world))))).
Proof.
  apply (@filter_by_subscriptions_matches_receipts Demo.externals
           (Demo.message Demo.A Demo.to_general "hello") true Demo.world
           (UserProfile.user Demo.B) Demo.B
           [Message.set_id 1 (Demo.message Demo.A Demo.to_general "hello")]
           (snd (@do_send_message Demo.externals
                   (Demo.message Demo.A Demo.to_general "hello") true Demo.world))
           example_store_wf eq_refl (or_introl eq_refl) eq_refl eq_refl eq_refl
           ltac:(vm_compute; reflexivity)).
  now left.
Defined.

Lemma internal_send_message_addresses_a_stream_witness :
  let run := @internal_send_message Demo.externals "b@example.com"
               Recipient.PERSONAL "General" "subject" "content" Demo.world in
  exists stream row,
    List.filter (same_stream Demo.example_com "General") (streams (db (snd run)))
    = [stream]
    /\ messages (db (snd run)) = [row]
    /\ Message.sender row = Demo.B
    /\ Recipient.type (Message.recipient row) = Recipient.PERSONAL
    /\ Recipient.type_id (Message.recipient row) = Stream.id stream.
Proof.
  intros run.
  assert (Hrun : run = (Ok tt, snd run)).
  { assert (Hok : fst run = Ok tt) by (vm_compute; reflexivity).
    rewrite (surjective_pairing run) at 1. now rewrite Hok. }
  destruct (@internal_send_message_addresses_a_stream Demo.externals
              "b@example.com" Recipient.PERSONAL "General" "subject" "content"
              Demo.world (snd run) Hrun)
    as (sender & stream & row & Hsender & Hemail & Hstream & Hrow & Hfrom & _ & _ & _
        & _ & Htype & Htid).
  assert (HB : sender = Demo.B).
  { simpl in Hsender.
    destruct Hsender as [<- | [<- | [<- | [<- | []]]]];
      try discriminate Hemail; reflexivity. }
  rewrite HB in Hstream, Hfrom. exists stream, row.
  exact (conj Hstream (conj Hrow (conj Hfrom (conj Htype Htid)))).
Defined.

Lemma huddle_message_reaches_members_witness :
  let w1 := snd (@get_huddle Demo.externals [3; 1; 2] Demo.world) in
  let message := Demo.message Demo.A (Recipient.mk 6 1 Recipient.HUDDLE) "hello" in
  let receivers :=
    map UserMessage.user_profile_id
        (receipts_of (next_message_id (db w1))
                     (db (snd (@do_send_message Demo.externals message true w1)))) in
  In 1 receivers /\ In 2 receivers /\ ~ In 3 receivers /\ ~ In 4 receivers.
Proof.
  intros w1 message receivers.
  destruct (@huddle_message_reaches_members Demo.externals [3; 1; 2] Demo.world
              message true example_store_wf
              ltac:(apply (bool_decide_unpack _); vm_compute; exact I))
    as (_ & _ & Hreceivers); try reflexivity.
  - intros uid [<- | [<- | [<- | []]]]; eexists; reflexivity.
  - intros r Hr Hty. simpl in Hr.
    destruct Hr as [<- | [<- | [<- | [<- | [<- | []]]]]]; discriminate Hty.
  - intros s Hs. simpl in Hs.
    destruct Hs as [<- | [<- | [<- | [<- | [<- | [<- | [<- | []]]]]]]];
      simpl; auto 10.
  - fold w1 receivers in Hreceivers. repeat split.
    + apply Hreceivers. split; [simpl; auto|]. exists Demo.A. simpl. auto.
    + apply Hreceivers. split; [simpl; auto|]. exists Demo.B. simpl. auto 10.
    + intros Hin. apply Hreceivers in Hin as (_ & p & Hp & Hid & Hact).
      simpl in Hp. destruct Hp as [<- | [<- | [<- | [<- | []]]]]; discriminate.
    + intros Hin. apply Hreceivers in Hin as (Hmember & _).
      simpl in Hmember. destruct Hmember as [H | [H | [H | []]]]; discriminate H.
Defined.
